(** * rosgo: the node runtime (ros/node.go) and the message-definition
      context (gengo, MsgContext) as a shallow embedding.

    Go strings are byte strings: they are [string] here (a list of 8-bit
    [ascii]).  Go maps are [gmap]s.  Everything the process gets from
    outside (environment variables, the Master, the network, the file
    system, the MD5 function of crypto/md5) is a Section variable or an
    explicit world that is passed along. *)

From Stdlib Require Import ZArith NArith String Ascii List Lia Permutation DecimalString.
From stdpp Require Import base option gmap strings list.

Set Default Proof Using "Type".
Set Warnings "-register-all".

(** ** The parts of Go's [strings] package that the code calls *)

Module strings.

(** [strings.HasPrefix s prefix]. *)
Definition HasPrefix (s prefix : string) : bool := String.prefix prefix s.

(** [s[n:]] for [n <= len s]. *)
Fixpoint drop_bytes (n : nat) (s : string) : string :=
  match n, s with
  | O, _ => s
  | S _, EmptyString => EmptyString
  | S n', String _ s' => drop_bytes n' s'
  end.

(** One step of the loop of [genSplit]: [m := Index(s, sep)], then
    [s[:m]] and [s[m+len(sep):]]; [None] when [Index] is negative. *)
Fixpoint Cut (sep s : string) {struct s} : option (string * string) :=
  if String.prefix sep s then Some (EmptyString, drop_bytes (String.length sep) s)
  else match s with
       | EmptyString => None
       | String c s' =>
           match Cut sep s' with
           | Some (before, after) => Some (String c before, after)
           | None => None
           end
       end.

(** [strings.Index(s, sep) >= 0]. *)
Definition Contains (s sep : string) : bool := bool_decide (is_Some (Cut sep s)).

(** The loop of [genSplit(s, sep, 0, -1)] for a separator that is not
    empty.  Go runs it at most [Count(s, sep)] times, which is at most
    [len(s)]; [n] is that bound. *)
Fixpoint genSplit (n : nat) (sep s : string) : list string :=
  match n with
  | O => [s]
  | S n' =>
      match Cut sep s with
      | None => [s]
      | Some (before, after) => before :: genSplit n' sep after
      end
  end.

(** [strings.Split(s, sep)], [sep] not empty. *)
Definition Split (s sep : string) : list string := genSplit (String.length s) sep s.

(** White space of [strings.TrimSpace] and [strings.Fields] within
    ASCII: tab, line feed, vertical tab, form feed, carriage return,
    space. *)
Definition isSpace (c : ascii) : bool :=
  let n := nat_of_ascii c in
  (Nat.eqb n 32 || (Nat.leb 9 n && Nat.leb n 13))%bool.

Fixpoint TrimLeftFunc (f : ascii -> bool) (s : string) : string :=
  match s with
  | EmptyString => EmptyString
  | String c s' => if f c then TrimLeftFunc f s' else s
  end.

Fixpoint TrimRightFunc (f : ascii -> bool) (s : string) : string :=
  match s with
  | EmptyString => EmptyString
  | String c s' =>
      match TrimRightFunc f s' with
      | EmptyString => if f c then EmptyString else String c EmptyString
      | r => String c r
      end
  end.

Definition TrimSpace (s : string) : string :=
  TrimRightFunc isSpace (TrimLeftFunc isSpace s).

(** [strings.Trim(s, cutset)] for a cutset of one byte. *)
Definition Trim1 (s : string) (cut : ascii) : string :=
  TrimRightFunc (Ascii.eqb cut) (TrimLeftFunc (Ascii.eqb cut) s).

(** [strings.Fields]: the maximal runs of bytes that are not white
    space. *)
Fixpoint FieldsFrom (cur : string) (s : string) : list string :=
  match s with
  | EmptyString => match cur with EmptyString => [] | _ => [cur] end
  | String c s' =>
      if isSpace c
      then match cur with
           | EmptyString => FieldsFrom EmptyString s'
           | _ => cur :: FieldsFrom EmptyString s'
           end
      else FieldsFrom (cur +:+ String c EmptyString) s'
  end.

Definition Fields (s : string) : list string := FieldsFrom EmptyString s.

(** [strings.Join(parts, sep)] *)
Fixpoint Join (parts : list string) (sep : string) : string :=
  match parts with
  | [] => EmptyString
  | [part] => part
  | part :: parts' => part +:+ sep +:+ Join parts' sep
  end.

End strings.

(** ** ros/node.go *)

Module ros.

(** [type NameMap map[string]string] *)
Abbreviation NameMap := (gmap string string).

Definition remap : string := ":=".

(** The four results of [processArguments], updated in the loop. *)
Record Arguments := {
  mapping : NameMap;
  params : NameMap;
  specials : NameMap;
  rest : list string
}.

(** The body of the loop of [processArguments] for one [arg]. *)
Definition processArgument (acc : Arguments) (arg : string) : Arguments :=
  match strings.Split arg remap with
  | [key; value] =>
      if strings.HasPrefix key "__" then
        {| mapping := mapping acc; params := params acc;
           specials := <[key := value]> (specials acc); rest := rest acc |}
      else if strings.HasPrefix key "_" then
        {| mapping := mapping acc;
           params := <[strings.drop_bytes 1 key := value]> (params acc);
           specials := specials acc; rest := rest acc |}
      else
        {| mapping := <[key := value]> (mapping acc); params := params acc;
           specials := specials acc; rest := rest acc |}
  | _ =>
      {| mapping := mapping acc; params := params acc;
         specials := specials acc; rest := rest acc ++ [arg] |}
  end.

Definition processArguments (args : list string) : Arguments :=
  fold_left processArgument args
    {| mapping := ∅; params := ∅; specials := ∅; rest := [] |}.

(** *** Values and errors *)

(** What an [interface{}] of the XML-RPC layer holds. *)
Inductive Value :=
| Nil
| Bool (b : bool)
| Int (z : Z)
| Str (s : string)
| Array (l : list Value).

(** A Go [error] that is not nil, by its [Error()] text. *)
Definition error := string.

(** A pair [(x, err)] as Go functions return it: [inl err] when [err]
    is not nil. *)
Definition Result (A : Type) := sum error A.

(** How a call ends: it returns, the process exits ([os.Exit] in a
    logger's [Fatal]), or a run-time panic unwinds it. *)
Inductive Outcome (A : Type) :=
| Return (a : A)
| Exit
| Panic.
Arguments Return {A} a.
Arguments Exit {A}.
Arguments Panic {A}.

Definition errorStatus : Z := -1.
Definition failureStatus : Z := 0.
Definition successStatus : Z := 1.

(** Modelled from the spec: [buildRosAPIResult] is in a file that is
    not part of the sources at hand; every response is the 3-tuple
    [[status_code, message, value]]. *)
Definition buildRosAPIResult (code : Z) (message : string) (value : Value) : Value :=
  Array [Int code; Str message; value].

(** [strconv.ParseInt(s, 10, 32)]: an optional sign, then at least one
    decimal digit and nothing else; out of the 32-bit range is an
    error. *)
Definition digit (c : ascii) : option Z :=
  let n := nat_of_ascii c in
  if (Nat.leb 48 n && Nat.leb n 57)%bool then Some (Z.of_nat n - 48)%Z else None.

Fixpoint parseDigits (acc : Z) (s : string) : option Z :=
  match s with
  | EmptyString => Some acc
  | String c s' =>
      match digit c with
      | Some d => parseDigits (10 * acc + d)%Z s'
      | None => None
      end
  end.

Definition ParseInt32 (s : string) : Result Z :=
  let '(neg, body) :=
    match s with
    | String "-" s' => (true, s')
    | String "+" s' => (false, s')
    | _ => (false, s)
    end in
  match body with
  | EmptyString => inl ("strconv.ParseInt: parsing: invalid syntax")
  | _ =>
      match parseDigits 0 body with
      | None => inl ("strconv.ParseInt: parsing: invalid syntax")
      | Some n =>
          let v := if neg then (- n)%Z else n in
          if ((- 2147483648 <=? v) && (v <=? 2147483647))%Z%bool
          then inr v
          else inl ("strconv.ParseInt: parsing: value out of range")
      end
  end.

(** *** The world outside the node *)

(** One [callRosAPI(uri, method, args...)]. *)
Record MasterCall := {
  call_uri : string;
  call_method : string;
  call_args : list Value
}.

(** What the node has done to the outside so far: the XML-RPC calls it
    made, oldest first, and how many times it called [net.Listen]. *)
Record World := {
  calls : list MasterCall;
  listeners : nat
}.

(** A [Logger] as far as control flow goes: whether its [Fatal] and
    [Fatalf] end the process or return to the caller.  What is logged
    is not part of the model. *)
Record Logger := { Fatal_exits : bool }.

(** The operating system, the network, the Master and the Go run time
    as the node sees them. *)
Class Environment := {
  Getenv : string -> string;
  filepath_Join : string -> string -> string;
  (** the [k]-th [net.Listen("tcp", address)] of the process, then
      [listener.Addr().String()] *)
  net_Listen : nat -> string -> Result string;
  net_SplitHostPort : string -> Result (string * string);
  (** the answer to an XML-RPC call, given the calls made before it *)
  master : list MasterCall -> MasterCall -> Result Value;
  (** the order in which a [range] loop visits a map *)
  range_NameMap : NameMap -> list (string * string);
  range_NameMap_perm : forall m, Permutation (range_NameMap m) (map_to_list m)
}.

(** The declarations of package [ros] that node.go uses and that live
    in its other files (name.go, publisher.go, subscriber.go, log.go,
    message.go), for a type of message types, a type of callbacks (an
    [interface{}] or a func that the node only stores) and a type of
    name resolvers. *)
Class Package (MessageType Callback nameResolver : Type) := {
  Name : MessageType -> string;
  qualifyNodeName : string -> Result (string * string);
  determineHost : string * bool;
  newNameResolver : string -> string -> NameMap -> nameResolver;
  resolver_remap : nameResolver -> string -> string;
  NewDefaultLogger : Logger
}.

Section Node.
Context {MessageType Callback nameResolver : Type}.
Context `{Env : Environment} {Pkg : Package MessageType Callback nameResolver}.

(** Modelled from the spec: [defaultPublisher] is declared in
    publisher.go, which is not part of the sources at hand.  A
    publisher has its topic, its message type, the two callbacks and
    a TCP listener; [pub_host] and [pub_port] are what
    [hostAndPort()] returns for that listener, [pub_serial] tells
    one allocated publisher from another. *)
Record defaultPublisher := {
  pub_serial : nat;
  pub_topic : string;
  pub_msgType : MessageType;
  pub_host : string;
  pub_port : string;
  connectCallback : option Callback;
  disconnectCallback : option Callback
}.

(** Modelled from the spec: [hostAndPort] is a method in publisher.go;
    host and port are those of the publisher's TCP listener. *)
Definition hostAndPort (pub : defaultPublisher) : string * string :=
  (pub_host pub, pub_port pub).

(** Modelled from the spec: [defaultSubscriber] is declared in
    subscriber.go, which is not part of the sources at hand.  A
    subscriber has its topic, its message type, the ordered
    callbacks and the channel of publisher lists; the channel is the
    queue of the lists sent and not yet received. *)
Record defaultSubscriber := {
  sub_topic : string;
  sub_msgType : MessageType;
  callbacks : list Callback;
  pubListChan : list (list string)
}.

(** Modelled from the spec: [newDefaultSubscriber(name, msgType,
    callback)] starts the callbacks list with [callback]. *)
Definition newDefaultSubscriber (name : string) (msgType : MessageType)
    (callback : Callback) : defaultSubscriber :=
  {| sub_topic := name; sub_msgType := msgType;
     callbacks := [callback]; pubListChan := [] |}.

(** [type defaultNode struct]; the listener, the handler, the
    mutexes, the channels and the wait group have no counterpart
    here, and neither have the service servers. *)
Record defaultNode := {
  name : string;
  namespace : string;
  qualifiedName : string;
  masterURI : string;
  xmlrpcURI : string;
  subscribers : gmap string defaultSubscriber;
  publishers : gmap string defaultPublisher;
  logger : Logger;
  ok : bool;
  logDir : string;
  hostname : string;
  listenIP : string;
  homeDir : string;
  resolver : nameResolver;
  nonRosArgs : list string
}.

(** Modelled from the spec: [newDefaultPublisher] is in publisher.go.
    The publisher binds a TCP listener on [listen_ip:0] and is
    reached at the node's host name and the port of that listener. *)
Definition newDefaultPublisher (node : defaultNode) (name : string)
    (msgType : MessageType) (cc dc : option Callback) (w : World)
    : defaultPublisher * World :=
  let port :=
    match net_Listen (listeners w) (listenIP node +:+ ":0") with
    | inr addr =>
        match net_SplitHostPort addr with
        | inr (_, p) => p
        | inl _ => EmptyString
        end
    | inl _ => EmptyString
    end in
  ({| pub_serial := listeners w; pub_topic := name; pub_msgType := msgType;
      pub_host := hostname node; pub_port := port;
      connectCallback := cc; disconnectCallback := dc |},
   {| calls := calls w; listeners := S (listeners w) |}).

(** Modelled from the spec: [callRosAPI] is in another file of the
    package.  It sends the call to the Master and returns the value of
    a success response; any other status, and a failure of the
    transport, is an error. *)
Definition callRosAPI (uri method : string) (args : list Value) (w : World)
    : Result Value * World :=
  let c := {| call_uri := uri; call_method := method; call_args := args |} in
  (master (calls w) c, {| calls := calls w ++ [c]; listeners := listeners w |}).

(** The value that stands next to the error of [callRosAPI]: nil when
    there is an error. *)
Definition resultValue (r : Result Value) : Value :=
  match r with inr v => v | inl _ => Nil end.

(** [logger.Fatal] and [logger.Fatalf]. *)
Definition Fatal (l : Logger) : Outcome unit :=
  if Fatal_exits l then Exit else Return tt.

Definition bind {A B : Type} (o : Outcome A) (k : A -> Outcome B) : Outcome B :=
  match o with
  | Return a => k a
  | Exit => Exit
  | Panic => Panic
  end.

(** The loop [for k, v := range params] of [newDefaultNode], over the
    entries in the order the run time visits them: the first call that
    fails ends the construction with its error. *)
Fixpoint setParams (masterURI qualifiedName : string) (kvs : list (string * string))
    (w : World) : option error * World :=
  match kvs with
  | [] => (None, w)
  | (k, v) :: kvs' =>
      match callRosAPI masterURI "setParam" [Str qualifiedName; Str k; Str v] w with
      | (inl err, w') => (Some err, w')
      | (inr _, w') => setParams masterURI qualifiedName kvs' w'
      end
  end.

(** [if v := os.Getenv(key); len(v) > 0 { x = v }] *)
Definition envOr (key : string) (x : string) : string :=
  if (0 <? String.length (Getenv key))%nat then Getenv key else x.

(** [if value, ok := specials[key]; ok { x = value }] *)
Definition specialOr (specials : NameMap) (key : string) (x : string) : string :=
  match specials !! key with Some value => value | None => x end.

(** [newDefaultNode(name, args)]: the result and the world after it.
    The signal handler, the job channel and the HTTP server that the
    function starts run beside the caller and are left out, as is what
    the logger prints. *)
Definition newDefaultNode (name0 : string) (args : list string) (w : World)
    : Outcome (Result defaultNode) * World :=
  match qualifyNodeName name0 with
  | inl err => (Return (inl err), w)
  | inr (namespace0, nodeName) =>
      let a := processArguments args in
      let homeDir' := envOr "ROS_HOME" (filepath_Join (Getenv "HOME") ".ros") in
      let name' := specialOr (specials a) "__name" nodeName in
      let namespace' :=
        specialOr (specials a) "__ns" (envOr "ROS_NAMESPACE" namespace0) in
      let logDir' :=
        specialOr (specials a) "__log"
          (envOr "ROS_LOG_DIR" (filepath_Join homeDir' "log")) in
      let '(hostname', onlyLocalhost) :=
        match specials a !! "__hostname" with
        | Some value => (value, String.eqb value "localhost")
        | None =>
            match specials a !! "__ip" with
            | Some value =>
                (value, (String.eqb value "::1" || strings.HasPrefix value "127.")%bool)
            | None => determineHost
            end
        end in
      let listenIP' := if onlyLocalhost then "127.0.0.1" else "0.0.0.0" in
      let masterURI' := specialOr (specials a) "__master" (Getenv "ROS_MASTER_URI") in
      let resolver' := newNameResolver namespace' name' (mapping a) in
      let qualifiedName' :=
        if (String.length namespace' =? 1)%nat
        then namespace' +:+ name'
        else namespace' +:+ "/" +:+ name' in
      let logger' := NewDefaultLogger in
      match setParams masterURI' qualifiedName' (range_NameMap (params a)) w with
      | (Some err, w1) => (Return (inl err), w1)
      | (None, w1) =>
          let w2 := {| calls := calls w1; listeners := S (listeners w1) |} in
          match net_Listen (listeners w1) (listenIP' +:+ ":0") with
          | inl err => (bind (Fatal logger') (fun _ => Return (inl err)), w2)
          | inr addr =>
              match net_SplitHostPort addr with
              | inl err => (Return (inl err), w2)
              | inr (_, port) =>
                  (Return (inr
                     {| name := name'; namespace := namespace';
                        qualifiedName := qualifiedName';
                        masterURI := masterURI';
                        xmlrpcURI := "http://" +:+ hostname' +:+ ":" +:+ port;
                        subscribers := ∅; publishers := ∅;
                        logger := logger'; ok := true; logDir := logDir';
                        hostname := hostname'; listenIP := listenIP';
                        homeDir := homeDir'; resolver := resolver';
                        nonRosArgs := rest a |}), w2)
              end
          end
      end
  end.

(** The loop over [protocols] in [requestTopic].  [v.([]interface{})]
    and [protocolParams[0].(string)] panic on a value of another shape,
    [protocolParams[0]] on an empty array. *)
Fixpoint selectProtocol (pub : defaultPublisher) (protocols : list Value)
    : Outcome (Result (list Value)) :=
  match protocols with
  | [] => Return (inr [])
  | Array (Str protocolName :: _) :: protocols' =>
      if String.eqb protocolName "TCPROS" then
        let '(host, portStr) := hostAndPort pub in
        match ParseInt32 portStr with
        | inl err => Return (inl err)
        | inr port => Return (inr [Str "TCPROS"; Str host; Int port])
        end
      else selectProtocol pub protocols'
  | _ => Panic
  end.

(** [requestTopic]; it reads the node under the publishers lock and
    changes nothing. *)
Definition requestTopic (node : defaultNode) (callerID topic : string)
    (protocols : list Value) : Outcome (Result Value) :=
  match publishers node !! topic with
  | None => Return (inr (buildRosAPIResult failureStatus "No such topic" (Int 0)))
  | Some pub =>
      bind (selectProtocol pub protocols) (fun r =>
        match r with
        | inl err => Return (inl err)
        | inr selectedProtocol =>
            Return (inr (buildRosAPIResult successStatus "Success" (Array selectedProtocol)))
        end)
  end.

Definition set_publishers (node : defaultNode) (m : gmap string defaultPublisher)
    : defaultNode :=
  {| name := name node; namespace := namespace node;
     qualifiedName := qualifiedName node; masterURI := masterURI node;
     xmlrpcURI := xmlrpcURI node; subscribers := subscribers node;
     publishers := m; logger := logger node; ok := ok node;
     logDir := logDir node; hostname := hostname node;
     listenIP := listenIP node; homeDir := homeDir node;
     resolver := resolver node; nonRosArgs := nonRosArgs node |}.

Definition set_subscribers (node : defaultNode) (m : gmap string defaultSubscriber)
    : defaultNode :=
  {| name := name node; namespace := namespace node;
     qualifiedName := qualifiedName node; masterURI := masterURI node;
     xmlrpcURI := xmlrpcURI node; subscribers := m;
     publishers := publishers node; logger := logger node; ok := ok node;
     logDir := logDir node; hostname := hostname node;
     listenIP := listenIP node; homeDir := homeDir node;
     resolver := resolver node; nonRosArgs := nonRosArgs node |}.

(** [NewPublisherWithCallbacks]: the node after the call and the
    publisher the call returns, which is the one in the map.  The
    goroutine [pub.start] is left out. *)
Definition NewPublisherWithCallbacks (node : defaultNode) (topic : string)
    (msgType : MessageType) (cc dc : option Callback) (w : World)
    : Outcome (defaultNode * defaultPublisher) * World :=
  let name' := resolver_remap (resolver node) topic in
  match publishers node !! topic with
  | Some pub => (Return (node, pub), w)
  | None =>
      let '(r, w1) :=
        callRosAPI (masterURI node) "registerPublisher"
          [Str (qualifiedName node); Str name'; Str (Name msgType);
           Str (xmlrpcURI node)] w in
      match (match r with inl _ => Fatal (logger node) | inr _ => Return tt end) with
      | Return _ =>
          let '(pub, w2) := newDefaultPublisher node name' msgType cc dc w1 in
          (Return (set_publishers node (<[name' := pub]> (publishers node)), pub), w2)
      | Exit => (Exit, w1)
      | Panic => (Panic, w1)
      end
  end.

Definition NewPublisher (node : defaultNode) (topic : string)
    (msgType : MessageType) (w : World)
    : Outcome (defaultNode * defaultPublisher) * World :=
  let name' := resolver_remap (resolver node) topic in
  NewPublisherWithCallbacks node name' msgType None None w.

(** The loop [for _, item := range list] of [NewSubscriber]: an item
    that is not a string goes to [logger.Fatal], and when that returns
    the zero string is appended. *)
Fixpoint publisherURIs (l : Logger) (items : list Value) : Outcome (list string) :=
  match items with
  | [] => Return []
  | item :: items' =>
      bind (match item with
            | Str s => Return s
            | _ => bind (Fatal l) (fun _ => Return EmptyString)
            end) (fun s =>
      bind (publisherURIs l items') (fun ss => Return (s :: ss)))
  end.

(** [list, ok := result.([]interface{})] and the [Fatalf] when it is
    not ok; the argument [reflect.TypeOf(result).String()] of that call
    panics on a nil [result]. *)
Definition resultList (l : Logger) (result : Value) : Outcome (list Value) :=
  match result with
  | Array items => Return items
  | Nil => Panic
  | _ => bind (Fatal l) (fun _ => Return [])
  end.

(** [NewSubscriber]: the node after the call and the subscriber the
    call returns, which is the one in the map: appending to
    [sub.callbacks] changes the subscriber that the map holds.  The
    goroutine [sub.start] is left out; the send on [pubListChan] adds
    to the queue. *)
Definition NewSubscriber (node : defaultNode) (topic : string)
    (msgType : MessageType) (callback : Callback) (w : World)
    : Outcome (defaultNode * defaultSubscriber) * World :=
  let name' := resolver_remap (resolver node) topic in
  match subscribers node !! name' with
  | None =>
      let '(r, w1) :=
        callRosAPI (masterURI node) "registerSubscriber"
          [Str (qualifiedName node); Str name'; Str (Name msgType);
           Str (xmlrpcURI node)] w in
      (bind (match r with inl _ => Fatal (logger node) | inr _ => Return tt end) (fun _ =>
       bind (resultList (logger node) (resultValue r)) (fun items =>
       bind (publisherURIs (logger node) items) (fun pubs =>
         let sub := newDefaultSubscriber name' msgType callback in
         let sub' :=
           {| sub_topic := sub_topic sub; sub_msgType := sub_msgType sub;
              callbacks := callbacks sub;
              pubListChan := pubListChan sub ++ [pubs] |} in
         Return (set_subscribers node (<[name' := sub']> (subscribers node)), sub')))),
       w1)
  | Some sub =>
      let sub' :=
        {| sub_topic := sub_topic sub; sub_msgType := sub_msgType sub;
           callbacks := callbacks sub ++ [callback];
           pubListChan := pubListChan sub |} in
      (Return (set_subscribers node (<[name' := sub']> (subscribers node)), sub'), w)
  end.

(** *** Notions the statements about the node use *)

(** The call [setParam(qualifiedName, k, v)] to the Master at [uri]. *)
Definition setParamCall (uri qualifiedName : string) (kv : string * string) : MasterCall :=
  {| call_uri := uri; call_method := "setParam";
     call_args := [Str qualifiedName; Str kv.1; Str kv.2] |}.

(** An offered protocol [[name, ...]] whose name is not TCPROS. *)
Definition otherProtocol (v : Value) : Prop :=
  exists protocolName protocolParams,
    v = Array (Str protocolName :: protocolParams) /\ protocolName <> "TCPROS".

(** The call [registerPublisher] that [NewPublisherWithCallbacks] makes. *)
Definition registerPublisherCall (node : defaultNode) (topic : string)
    (msgType : MessageType) : MasterCall :=
  {| call_uri := masterURI node; call_method := "registerPublisher";
     call_args := [Str (qualifiedName node);
                   Str (resolver_remap (resolver node) topic);
                   Str (Name msgType); Str (xmlrpcURI node)] |}.

End Node.

Arguments defaultPublisher : clear implicits.
Arguments defaultSubscriber : clear implicits.
Arguments defaultNode : clear implicits.

(** *** The slave API and the parameter calls of node.go *)

(** The order in which a [range] loop visits a map of the node,
    whatever its values are. *)
Class Ranging := {
  range_map : forall V : Type, gmap string V -> list (string * V);
  range_map_perm :
    forall (V : Type) (m : gmap string V), Permutation (range_map V m) (map_to_list m)
}.

Section SlaveAPI.
Context {MessageType Callback nameResolver : Type}.
Context `{Env : Environment} {Pkg : Package MessageType Callback nameResolver}.
Context {Rng : Ranging}.

#[local] Abbreviation node_t := (defaultNode MessageType Callback nameResolver).
#[local] Abbreviation publisher_t := (defaultPublisher MessageType Callback).
#[local] Abbreviation subscriber_t := (defaultSubscriber MessageType Callback).

(** [getSubscriptions]: a pair [[topic, type name]] for every
    subscriber, in the order of the [range] loop. *)
Definition getSubscriptions (node : node_t) (callerID : string) : Result Value :=
  inr (buildRosAPIResult successStatus "Success"
         (Array (map (fun ts : string * subscriber_t =>
                        Array [Str ts.1; Str (Name (sub_msgType ts.2))])
                     (range_map _ (subscribers node))))).

(** [getPublications]: the same for the publishers. *)
Definition getPublications (node : node_t) (callerID : string) : Result Value :=
  inr (buildRosAPIResult successStatus "Success"
         (Array (map (fun tp : string * publisher_t =>
                        Array [Str tp.1; Str (Name (pub_msgType tp.2))])
                     (range_map _ (publishers node))))).

(** The loop [pubURIs[i] = URI.(string)] of [publisherUpdate]; the
    assertion panics on a value that is not a string. *)
Fixpoint pubURIs (publishers : list Value) : Outcome (list string) :=
  match publishers with
  | [] => Return []
  | Str URI :: publishers' => bind (pubURIs publishers') (fun uris => Return (URI :: uris))
  | _ => Panic
  end.

(** [publisherUpdate]: the node after the call and the response.  The
    lookup is under the topic as it is given; the send on
    [pubListChan] adds to the queue of the subscriber in the map. *)
Definition publisherUpdate (node : node_t) (callerID topic : string)
    (publishers : list Value) : Outcome (node_t * Result Value) :=
  match subscribers node !! topic with
  | None =>
      Return (node, inr (buildRosAPIResult failureStatus "No such topic" (Int 0)))
  | Some sub =>
      bind (pubURIs publishers) (fun uris =>
        let sub' :=
          {| sub_topic := sub_topic sub; sub_msgType := sub_msgType sub;
             callbacks := callbacks sub;
             pubListChan := pubListChan sub ++ [uris] |} in
        Return (set_subscribers node (<[topic := sub']> (subscribers node)),
                inr (buildRosAPIResult successStatus "Success" (Int 0))))
  end.

(** [GetParam] *)
Definition GetParam (node : node_t) (key : string) (w : World) : Result Value * World :=
  let name' := resolver_remap (resolver node) key in
  callRosAPI (masterURI node) "getParam" [Str (qualifiedName node); Str name'] w.

(** [SetParam]: the error, if any. *)
Definition SetParam (node : node_t) (key : string) (value : Value) (w : World)
    : option error * World :=
  let name' := resolver_remap (resolver node) key in
  match callRosAPI (masterURI node) "setParam" [Str (qualifiedName node); Str name'; value] w with
  | (inl e, w') => (Some e, w')
  | (inr _, w') => (None, w')
  end.

(** [HasParam]: the pair of the result and the error; [result.(bool)]
    panics on a value that is not a bool. *)
Definition HasParam (node : node_t) (key : string) (w : World)
    : Outcome (bool * option error) * World :=
  let name' := resolver_remap (resolver node) key in
  match callRosAPI (masterURI node) "hasParam" [Str (qualifiedName node); Str name'] w with
  | (inl err, w') => (Return (false, Some err), w')
  | (inr (Bool hasParam), w') => (Return (hasParam, None), w')
  | (inr _, w') => (Panic, w')
  end.

(** [SearchParam]: the key goes to the Master as it is given;
    [result.(string)] panics on a value that is not a string. *)
Definition SearchParam (node : node_t) (key : string) (w : World)
    : Outcome (string * option error) * World :=
  match callRosAPI (masterURI node) "searchParam" [Str (qualifiedName node); Str key] w with
  | (inl err, w') => (Return (EmptyString, Some err), w')
  | (inr (Str foundKey), w') => (Return (foundKey, None), w')
  | (inr _, w') => (Panic, w')
  end.

(** [DeleteParam]: the error, if any. *)
Definition DeleteParam (node : node_t) (key : string) (w : World) : option error * World :=
  let name' := resolver_remap (resolver node) key in
  match callRosAPI (masterURI node) "deleteParam" [Str (qualifiedName node); Str name'] w with
  | (inl e, w') => (Some e, w')
  | (inr _, w') => (None, w')
  end.

(** *** Notions the statements about these use *)

(** Every publisher and every subscriber is stored under its own
    topic. *)
Definition keyedByTopic (node : node_t) : Prop :=
  (forall key pub, publishers node !! key = Some pub -> pub_topic pub = key)
  /\ (forall key sub, subscribers node !! key = Some sub -> sub_topic sub = key).

(** An offered protocol of the shape [[name, ...]]. *)
Definition namedProtocol (v : Value) : Prop :=
  exists protocolName protocolParams, v = Array (Str protocolName :: protocolParams).

(** The call [registerSubscriber] that [NewSubscriber] makes. *)
Definition registerSubscriberCall (node : node_t) (topic : string)
    (msgType : MessageType) : MasterCall :=
  {| call_uri := masterURI node; call_method := "registerSubscriber";
     call_args := [Str (qualifiedName node);
                   Str (resolver_remap (resolver node) topic);
                   Str (Name msgType); Str (xmlrpcURI node)] |}.

End SlaveAPI.

End ros.

(** ** gengo: the message context (MsgContext and its loaders) *)

Module gengo.

Definition LF : string := String "010"%char EmptyString.

(** A Go [error] that is not nil: made by [fmt.Errorf] here or handed
    over from another file or package, with its text, or made by
    [NewSyntaxError(fullname, lineno, message)]. *)
Inductive error :=
| errorString (msg : string)
| SyntaxError (fullname : string) (lineno : nat) (msg : string).

(** A pair [(x, err)]: [inl err] when [err] is not nil. *)
Definition Fallible (A : Type) := sum error A.

(** Modelled from the spec: the struct declarations are in a file that
    is not part of the sources at hand.  Constant =
    [(type, name, value_text)]. *)
Record Constant := {
  Const_Type : string;
  Const_Name : string;
  ValueText : string
}.

(** Modelled from the spec: array_kind is scalar, fixed(n) or
    unbounded. *)
Inductive array_kind :=
| scalar
| fixed (n : nat)
| unbounded.

(** Modelled from the spec: Field =
    [(package_opt, type, name, array_kind)]. *)
Record Field := {
  Field_Package : string;
  Field_Type : string;
  Field_Name : string;
  Field_Array : array_kind
}.

(** Modelled from the spec: MsgSpec = [(package, short_name, full_name,
    raw_text, fields, constants, md5)]. *)
Record MsgSpec := {
  Fields : list Field;
  Constants : list Constant;
  Text : string;
  FullName : string;
  ShortName : string;
  Package : string;
  MD5Sum : string
}.

(** Modelled from the spec: SrvSpec, in the order of the positional
    literal in [LoadSrvFromString]. *)
Record SrvSpec := {
  Srv_Package : string;
  Srv_ShortName : string;
  Srv_FullName : string;
  Srv_Text : string;
  Srv_MD5Sum : string;
  Request : MsgSpec;
  Response : MsgSpec
}.

(** Modelled from the spec: ActionSpec, with the field names of the
    literal in [LoadActionFromString]. *)
Record ActionSpec := {
  Action_Package : string;
  Action_ShortName : string;
  Action_FullName : string;
  Action_Text : string;
  Action_MD5Sum : string;
  Goal : MsgSpec;
  Feedback : MsgSpec;
  Result : MsgSpec;
  ActionGoal : MsgSpec;
  ActionFeedback : MsgSpec;
  ActionResult : MsgSpec
}.

(** Modelled from the spec: [NewMsgSpec] with the two options the
    loader passes fills the record and leaves the MD5 empty. *)
Definition NewMsgSpec (fields : list Field) (constants : list Constant)
    (text fullname packageName shortName : string) : MsgSpec :=
  {| Fields := fields; Constants := constants; Text := text;
     FullName := fullname; ShortName := shortName; Package := packageName;
     MD5Sum := EmptyString |}.

Definition set_MD5Sum (spec : MsgSpec) (md5sum : string) : MsgSpec :=
  {| Fields := Fields spec; Constants := Constants spec; Text := Text spec;
     FullName := FullName spec; ShortName := ShortName spec;
     Package := Package spec; MD5Sum := md5sum |}.

(** The line parsers and the other helpers of gengo that the context
    calls; they are in files that are not part of the sources at hand.
    A helper's error is given by its [Error()] text. *)
Class Parsing := {
  ConstChar : string;
  packageResourceName : string -> sum string (string * string);
  stripComment : string -> string;
  loadConstantLine : string -> sum string Constant;
  loadFieldLine : string -> string -> sum string Field;
  Field_String : Field -> string
}.

(** The file system and crypto/md5 with encoding/hex:
    [md5hex s] is [hex.EncodeToString] of the MD5 digest of [s]. *)
Class System := {
  ReadFile : string -> sum string string;
  md5hex : string -> string
}.

(** [type MsgContext struct] *)
Record MsgContext := {
  msgPathMap : gmap string string;
  srvPathMap : gmap string string;
  actionPathMap : gmap string string;
  msgRegistry : gmap string MsgSpec
}.

(** A method of [*MsgContext]: it may change the registry, and returns
    a value or an error; the context is kept in both cases.  [None]
    stands for a recursion deeper than the fuel allows (message
    definitions that include each other make the Go code recurse for
    ever). *)
Definition M (A : Type) := MsgContext -> option (Fallible A * MsgContext).

Definition ret {A : Type} (a : A) : M A := fun ctx => Some (inr a, ctx).

Definition fail {A : Type} (e : error) : M A := fun ctx => Some (inl e, ctx).

(** [x, err := m; if err != nil { return nil, err }; k x] *)
Definition bind {A B : Type} (m : M A) (k : A -> M B) : M B :=
  fun ctx =>
    match m ctx with
    | None => None
    | Some (inl e, ctx') => Some (inl e, ctx')
    | Some (inr a, ctx') => k a ctx'
    end.

Notation "x <- m ;; k" := (bind m (fun x => k))
  (at level 100, m at next level, right associativity).

(** [g] gives every result that [f] gives: what more fuel does to a
    method. *)
Definition extends {A B : Type} (f g : A -> M B) : Prop :=
  forall a ctx r, f a ctx = Some r -> g a ctx = Some r.

(** [func (ctx *MsgContext) Register(fullname, spec)] *)
Definition Register (fullname : string) (spec : MsgSpec) : M unit :=
  fun ctx =>
    Some (inr tt,
          {| msgPathMap := msgPathMap ctx; srvPathMap := srvPathMap ctx;
             actionPathMap := actionPathMap ctx;
             msgRegistry := <[fullname := spec]> (msgRegistry ctx) |}).

(** *** Notions the statements about blank and comment lines use *)

(** What stands before the comment of a line. *)
Definition beforeComment (line : string) : string :=
  match strings.Cut "#" line with
  | Some (before, _) => before
  | None => line
  end.

(** A blank line or a line that is a comment as a whole: nothing, or
    only white space, stands before the [#] or the end of the line. *)
Definition blankOrComment (line : string) : bool :=
  (String.length (strings.TrimSpace (beforeComment line)) =? 0)%nat.

(** The lines of a text that are neither. *)
Definition contentLines (text : string) : list string :=
  filter (fun line => blankOrComment line = false) (strings.Split text LF).

(** A load that returns, without its error. *)
Definition loaded {A : Type} (r : Fallible A) : option A :=
  match r with inr a => Some a | inl _ => None end.

Section Context.
Context `{Par : Parsing} `{Sys : System}.

(** The loop over the lines in [LoadMsgFromString]. *)
Fixpoint loadLines (fullname packageName : string) (lineno : nat)
    (lines : list string) (fields : list Field) (constants : list Constant)
    : Fallible (list Field * list Constant) :=
  match lines with
  | [] => inr (fields, constants)
  | origLine :: lines' =>
      let cleanLine := stripComment origLine in
      if (String.length cleanLine =? 0)%nat then
        loadLines fullname packageName (S lineno) lines' fields constants
      else if strings.Contains cleanLine ConstChar then
        match loadConstantLine origLine with
        | inl e => inl (SyntaxError fullname lineno e)
        | inr constant =>
            loadLines fullname packageName (S lineno) lines' fields
              (constants ++ [constant])
        end
      else
        match loadFieldLine origLine packageName with
        | inl e => inl (SyntaxError fullname lineno e)
        | inr field =>
            loadLines fullname packageName (S lineno) lines' (fields ++ [field])
              constants
        end
  end.

(** The first loop of [ComputeMD5Text]. *)
Fixpoint constantsText (constants : list Constant) (buf : string) : string :=
  match constants with
  | [] => buf
  | c :: constants' =>
      constantsText constants'
        (buf +:+ Const_Type c +:+ " " +:+ Const_Name c +:+ "=" +:+ ValueText c +:+ LF)
  end.

Section Recursion.
(** The methods call each other in a cycle that goes through
    [ComputeMD5Text]; [md5Text] is that method one level deeper. *)
Variable md5Text : MsgSpec -> M string.

Definition ComputeMsgMD5_in (spec : MsgSpec) : M string :=
  md5text <- md5Text spec ;;
  ret (md5hex md5text).

Definition LoadMsgFromString_in (text fullname : string) : M MsgSpec :=
  match packageResourceName fullname with
  | inl e => fail (errorString e)
  | inr (packageName, shortName) =>
      match loadLines fullname packageName 0 (strings.Split text LF) [] [] with
      | inl e => fail e
      | inr (fields, constants) =>
          let spec := NewMsgSpec fields constants text fullname packageName shortName in
          md5sum <- ComputeMsgMD5_in spec ;;
          let spec' := set_MD5Sum spec md5sum in
          _ <- Register fullname spec' ;;
          ret spec'
      end
  end.

Definition LoadMsgFromFile_in (filePath fullname : string) : M MsgSpec :=
  match ReadFile filePath with
  | inl e => fail (errorString e)
  | inr text => LoadMsgFromString_in text fullname
  end.

Definition LoadMsg_in (fullname : string) : M MsgSpec :=
  fun ctx =>
    match msgRegistry ctx !! fullname with
    | Some spec => ret spec ctx
    | None =>
        match msgPathMap ctx !! fullname with
        | Some path =>
            (spec <- LoadMsgFromFile_in path fullname ;;
             _ <- Register fullname spec ;;
             ret spec) ctx
        | None =>
            fail (errorString
                    ("Message definition of `" +:+ fullname +:+ "` is not found")) ctx
        end
    end.

(** The second loop of [ComputeMD5Text] and the return after it.  Both
    [if err != nil] branches return the empty text and a nil error. *)
Fixpoint fieldsText (fields : list Field) (buf : string) : M string :=
  match fields with
  | [] => ret (strings.Trim1 buf "010"%char)
  | f :: fields' =>
      if String.eqb (Field_Package f) EmptyString then
        fieldsText fields' (buf +:+ Field_String f +:+ LF)
      else
        fun ctx =>
          match LoadMsg_in (Field_Package f +:+ "/" +:+ Field_Type f) ctx with
          | None => None
          | Some (inl _, ctx1) => Some (inr EmptyString, ctx1)
          | Some (inr subspec, ctx1) =>
              match ComputeMsgMD5_in subspec ctx1 with
              | None => None
              | Some (inl _, ctx2) => Some (inr EmptyString, ctx2)
              | Some (inr submd5, ctx2) =>
                  fieldsText fields' (buf +:+ submd5 +:+ " " +:+ Field_Name f +:+ LF) ctx2
              end
          end
  end.

End Recursion.

Fixpoint ComputeMD5Text (fuel : nat) (spec : MsgSpec) : M string :=
  match fuel with
  | O => fun _ => None
  | S fuel' =>
      fieldsText (ComputeMD5Text fuel') (Fields spec)
        (constantsText (Constants spec) EmptyString)
  end.

Definition ComputeMsgMD5 (fuel : nat) : MsgSpec -> M string :=
  ComputeMsgMD5_in (ComputeMD5Text fuel).

Definition LoadMsgFromString (fuel : nat) : string -> string -> M MsgSpec :=
  LoadMsgFromString_in (ComputeMD5Text fuel).

Definition LoadMsgFromFile (fuel : nat) : string -> string -> M MsgSpec :=
  LoadMsgFromFile_in (ComputeMD5Text fuel).

Definition LoadMsg (fuel : nat) : string -> M MsgSpec :=
  LoadMsg_in (ComputeMD5Text fuel).

(** [hash.Write] after [hash.Write] hashes the concatenation. *)
Definition ComputeSrvMD5 (fuel : nat) (spec : SrvSpec) : M string :=
  reqText <- ComputeMD5Text fuel (Request spec) ;;
  resText <- ComputeMD5Text fuel (Response spec) ;;
  ret (md5hex (reqText +:+ resText)).

Definition ComputeActionMD5 (fuel : nat) (spec : ActionSpec) : M string :=
  goalText <- ComputeMD5Text fuel (ActionGoal spec) ;;
  feedbackText <- ComputeMD5Text fuel (ActionFeedback spec) ;;
  resultText <- ComputeMD5Text fuel (ActionResult spec) ;;
  ret (md5hex (goalText +:+ feedbackText +:+ resultText)).

Definition set_Srv_MD5Sum (spec : SrvSpec) (md5sum : string) : SrvSpec :=
  {| Srv_Package := Srv_Package spec; Srv_ShortName := Srv_ShortName spec;
     Srv_FullName := Srv_FullName spec; Srv_Text := Srv_Text spec;
     Srv_MD5Sum := md5sum; Request := Request spec; Response := Response spec |}.

Definition LoadSrvFromString (fuel : nat) (text fullname : string) : M SrvSpec :=
  match packageResourceName fullname with
  | inl e => fail (errorString e)
  | inr (packageName, shortName) =>
      match strings.Split text "---" with
      | [reqText; resText] =>
          reqSpec <- LoadMsgFromString fuel reqText (fullname +:+ "Request") ;;
          resSpec <- LoadMsgFromString fuel resText (fullname +:+ "Response") ;;
          let spec :=
            {| Srv_Package := packageName; Srv_ShortName := shortName;
               Srv_FullName := fullname; Srv_Text := text;
               Srv_MD5Sum := EmptyString;
               Request := reqSpec; Response := resSpec |} in
          md5sum <- ComputeSrvMD5 fuel spec ;;
          ret (set_Srv_MD5Sum spec md5sum)
      | _ => fail (errorString "Syntax error: missing '---'")
      end
  end.

Definition actionGoalText (fullname : string) : string :=
  "Header header" +:+ LF +:+ "actionlib_msgs/GoalID goal_id" +:+ LF
  +:+ fullname +:+ "Goal goal" +:+ LF.

Definition actionFeedbackText (fullname : string) : string :=
  "Header header" +:+ LF +:+ "actionlib_msgs/GoalStatus status" +:+ LF
  +:+ fullname +:+ "Feedback feedback".

Definition actionResultText (fullname : string) : string :=
  "Header header" +:+ LF +:+ "actionlib_msgs/GoalStatus status" +:+ LF
  +:+ fullname +:+ "Result result".

Definition set_Action_MD5Sum (spec : ActionSpec) (md5sum : string) : ActionSpec :=
  {| Action_Package := Action_Package spec;
     Action_ShortName := Action_ShortName spec;
     Action_FullName := Action_FullName spec; Action_Text := Action_Text spec;
     Action_MD5Sum := md5sum; Goal := Goal spec; Feedback := Feedback spec;
     Result := Result spec; ActionGoal := ActionGoal spec;
     ActionFeedback := ActionFeedback spec; ActionResult := ActionResult spec |}.

Definition LoadActionFromString (fuel : nat) (text fullname : string) : M ActionSpec :=
  match packageResourceName fullname with
  | inl e => fail (errorString e)
  | inr (packageName, shortName) =>
      match strings.Split text "---" with
      | [goalText; resultText; feedbackText] =>
          goalSpec <- LoadMsgFromString fuel goalText (fullname +:+ "Goal") ;;
          actionGoalSpec <-
            LoadMsgFromString fuel (actionGoalText fullname) (fullname +:+ "ActionGoal") ;;
          feedbackSpec <- LoadMsgFromString fuel feedbackText (fullname +:+ "Feedback") ;;
          actionFeedbackSpec <-
            LoadMsgFromString fuel (actionFeedbackText fullname)
              (fullname +:+ "ActionFeedback") ;;
          resultSpec <- LoadMsgFromString fuel resultText (fullname +:+ "Result") ;;
          actionResultSpec <-
            LoadMsgFromString fuel (actionResultText fullname)
              (fullname +:+ "ActionResult") ;;
          let spec :=
            {| Action_Package := packageName; Action_ShortName := shortName;
               Action_FullName := fullname; Action_Text := text;
               Action_MD5Sum := EmptyString;
               Goal := goalSpec; Feedback := feedbackSpec; Result := resultSpec;
               ActionGoal := actionGoalSpec;
               ActionFeedback := actionFeedbackSpec;
               ActionResult := actionResultSpec |} in
          md5sum <- ComputeActionMD5 fuel spec ;;
          ret (set_Action_MD5Sum spec md5sum)
      | _ => fail (errorString "Syntax error: missing '---'")
      end
  end.

(** [LoadSrvFromFile] *)
Definition LoadSrvFromFile (fuel : nat) (filePath fullname : string) : M SrvSpec :=
  match ReadFile filePath with
  | inl e => fail (errorString e)
  | inr text => LoadSrvFromString fuel text fullname
  end.

(** [LoadSrv] *)
Definition LoadSrv (fuel : nat) (fullname : string) : M SrvSpec :=
  fun ctx =>
    match srvPathMap ctx !! fullname with
    | Some path => LoadSrvFromFile fuel path fullname ctx
    | None =>
        fail (errorString
                ("Service definition of `" +:+ fullname +:+ "` is not found")) ctx
    end.

(** [LoadActionFromFile] *)
Definition LoadActionFromFile (fuel : nat) (filePath fullname : string) : M ActionSpec :=
  match ReadFile filePath with
  | inl e => fail (errorString e)
  | inr text => LoadActionFromString fuel text fullname
  end.

(** [LoadAction] *)
Definition LoadAction (fuel : nat) (fullname : string) : M ActionSpec :=
  fun ctx =>
    match actionPathMap ctx !! fullname with
    | Some path => LoadActionFromFile fuel path fullname ctx
    | None =>
        fail (errorString
                ("Action definition of `" +:+ fullname +:+ "` is not found")) ctx
    end.

(** *** Notions the statements about the loaders use *)

(** What the loop of [LoadMsgFromString] takes a line for. *)
Inductive lineKind :=
| skippedLine
| constantLine
| fieldLine.

Definition kindOf (line : string) : lineKind :=
  let cleanLine := stripComment line in
  if (String.length cleanLine =? 0)%nat then skippedLine
  else if strings.Contains cleanLine ConstChar then constantLine
  else fieldLine.

Definition isConstantLine (line : string) : bool :=
  match kindOf line with constantLine => true | _ => false end.

Definition isFieldLine (line : string) : bool :=
  match kindOf line with fieldLine => true | _ => false end.

(** The context [ctx'] has every registered spec of [ctx], unchanged,
    and the same path maps. *)
Definition keeps (ctx ctx' : MsgContext) : Prop :=
  msgRegistry ctx ⊆ msgRegistry ctx'
  /\ msgPathMap ctx' = msgPathMap ctx
  /\ srvPathMap ctx' = srvPathMap ctx
  /\ actionPathMap ctx' = actionPathMap ctx.

(** A field of a built-in type, which the MD5 text shows as it is. *)
Definition builtin (f : Field) : Prop := Field_Package f = EmptyString.

(** The lines of the MD5 text for constants and for built-in fields. *)
Definition constantLineText (c : Constant) : string :=
  Const_Type c +:+ " " +:+ Const_Name c +:+ "=" +:+ ValueText c +:+ LF.

Definition fieldLineText (f : Field) : string := Field_String f +:+ LF.

Fixpoint concatText (lines : list string) : string :=
  match lines with
  | [] => EmptyString
  | line :: lines' => line +:+ concatText lines'
  end.

(** The MD5 text of a message of built-in fields: the lines of the
    constants, then those of the fields, and the newlines at both ends
    taken off. *)
Definition flatText (spec : MsgSpec) : string :=
  strings.Trim1 (concatText (map constantLineText (Constants spec))
                 +:+ concatText (map fieldLineText (Fields spec))) "010"%char.

(** A field that the MD5 text shows without loading a file: of a
    built-in type, or of a registered message of built-in fields. *)
Definition flatField (ctx : MsgContext) (f : Field) : Prop :=
  builtin f
  \/ exists sub,
       msgRegistry ctx !! (Field_Package f +:+ "/" +:+ Field_Type f) = Some sub
       /\ Forall builtin (Fields sub).

(** The line of the MD5 text for such a field. *)
Definition includedLine (ctx : MsgContext) (f : Field) : string :=
  if String.eqb (Field_Package f) EmptyString then fieldLineText f
  else
    match msgRegistry ctx !! (Field_Package f +:+ "/" +:+ Field_Type f) with
    | Some sub => md5hex (flatText sub) +:+ " " +:+ Field_Name f +:+ LF
    | None => EmptyString
    end.

End Context.

(** *** Finding the definitions in the package paths *)

(** [os.FileInfo], as far as it is used. *)
Record FileInfo := {
  File_Name : string;
  IsDir : bool
}.

(** io/ioutil and path/filepath, as far as [findPackages] uses them, on
    the file system that the process sees. *)
Class Directories := {
  ReadDir : string -> sum string (list FileInfo);
  Glob : string -> sum string (list string);
  filepath_Join : string -> string -> string;
  filepath_Base : string -> string
}.

(** [s[:n]] for [n <= len s]. *)
Fixpoint take_bytes (n : nat) (s : string) : string :=
  match n, s with
  | O, _ => EmptyString
  | S _, EmptyString => EmptyString
  | S n', String c s' => String c (take_bytes n' s')
  end.

Section Packages.
Context `{Dirs : Directories}.

(** [isRosPackage] *)
Definition isRosPackage (dir : string) : bool :=
  match ReadDir dir with
  | inl _ => false
  | inr files => existsb (fun f => String.eqb (File_Name f) "package.xml") files
  end.

(** The name under which [findPackages] enters the file [m] of the
    package [pkgName]. *)
Definition definitionName (pkgType pkgName m : string) : string :=
  let basename := filepath_Base m in
  let rootname :=
    take_bytes (String.length basename - String.length pkgType - 1) basename in
  pkgName +:+ "/" +:+ rootname.

(** The loop over [msgPaths] in [findPackages].  [None]: the slice
    expression panics, the base name being shorter than the dot and
    the extension. *)
Fixpoint addDefinitions (pkgType pkgName : string) (msgPaths : list string)
    (pkgs : gmap string string) : option (gmap string string) :=
  match msgPaths with
  | [] => Some pkgs
  | m :: msgPaths' =>
      if (String.length (filepath_Base m) <? String.length pkgType + 1)%nat then None
      else addDefinitions pkgType pkgName msgPaths'
             (<[definitionName pkgType pkgName m := m]> pkgs)
  end.

(** The loop over [files] in [findPackages]. *)
Fixpoint addPackages (pkgType p : string) (files : list FileInfo)
    (pkgs : gmap string string) : option (gmap string string) :=
  match files with
  | [] => Some pkgs
  | f :: files' =>
      if negb (IsDir f) then addPackages pkgType p files' pkgs
      else
        let pkgPath := filepath_Join p (File_Name f) in
        if isRosPackage pkgPath then
          let pkgName := filepath_Base pkgPath in
          let msgPath := filepath_Join pkgPath pkgType in
          match Glob (msgPath +:+ "/*." +:+ pkgType) with
          | inl _ => addPackages pkgType p files' pkgs
          | inr msgPaths =>
              match addDefinitions pkgType pkgName msgPaths pkgs with
              | None => None
              | Some pkgs' => addPackages pkgType p files' pkgs'
              end
          end
        else addPackages pkgType p files' pkgs
  end.

(** The loop over [rosPkgPaths] in [findPackages]. *)
Fixpoint addPaths (pkgType : string) (rosPkgPaths : list string)
    (pkgs : gmap string string) : option (gmap string string) :=
  match rosPkgPaths with
  | [] => Some pkgs
  | p :: rosPkgPaths' =>
      match ReadDir p with
      | inl _ => addPaths pkgType rosPkgPaths' pkgs
      | inr files =>
          match addPackages pkgType p files pkgs with
          | None => None
          | Some pkgs' => addPaths pkgType rosPkgPaths' pkgs'
          end
      end
  end.

(** [findPackages]; [None] when it panics. *)
Definition findPackages (pkgType : string) (rosPkgPaths : list string)
    : option (Fallible (gmap string string)) :=
  match addPaths pkgType rosPkgPaths ∅ with
  | None => None
  | Some pkgs => Some (inr pkgs)
  end.

Definition findAllMessages (rosPkgPaths : list string) := findPackages "msg" rosPkgPaths.

Definition findAllServices (rosPkgPaths : list string) := findPackages "srv" rosPkgPaths.

Definition findAllActions (rosPkgPaths : list string) := findPackages "action" rosPkgPaths.

(** [NewMsgContext] *)
Definition NewMsgContext (rosPkgPaths : list string) : option (Fallible MsgContext) :=
  match findAllMessages rosPkgPaths with
  | None => None
  | Some (inl err) => Some (inl err)
  | Some (inr msgs) =>
      match findAllServices rosPkgPaths with
      | None => None
      | Some (inl err) => Some (inl err)
      | Some (inr srvs) =>
          match findAllActions rosPkgPaths with
          | None => None
          | Some (inl err) => Some (inl err)
          | Some (inr acts) =>
              Some (inr {| msgPathMap := msgs; srvPathMap := srvs;
                           actionPathMap := acts; msgRegistry := ∅ |})
          end
      end
  end.

(** The file [m] is a definition of kind [pkgType] in a package that
    is one of the directories [files] of the path [p], and [fullname]
    is the name it is entered with. *)
Definition foundIn (pkgType p : string) (files : list FileInfo)
    (fullname m : string) : Prop :=
  exists f msgPaths,
    f ∈ files /\ IsDir f = true
    /\ isRosPackage (filepath_Join p (File_Name f)) = true
    /\ Glob (filepath_Join (filepath_Join p (File_Name f)) pkgType
             +:+ "/*." +:+ pkgType) = inr msgPaths
    /\ m ∈ msgPaths
    /\ fullname = definitionName pkgType (filepath_Base (filepath_Join p (File_Name f))) m.

(** The same under one of the paths that can be read. *)
Definition found (pkgType : string) (rosPkgPaths : list string)
    (fullname m : string) : Prop :=
  exists p files,
    p ∈ rosPkgPaths /\ ReadDir p = inr files /\ foundIn pkgType p files fullname m.

End Packages.

End gengo.

(** ** crypto/md5 and encoding/hex (RFC 1321), on 32-bit words as [N]
       with the wrap-around written out *)

Module md5.

Definition mask32 (x : N) : N := N.land x 0xFFFFFFFF.

Definition rotl (x s : N) : N :=
  mask32 (N.lor (N.shiftl x s) (N.shiftr x (32 - s))).

Definition K : list N :=
 [0xd76aa478; 0xe8c7b756; 0x242070db; 0xc1bdceee;
  0xf57c0faf; 0x4787c62a; 0xa8304613; 0xfd469501;
  0x698098d8; 0x8b44f7af; 0xffff5bb1; 0x895cd7be;
  0x6b901122; 0xfd987193; 0xa679438e; 0x49b40821;
  0xf61e2562; 0xc040b340; 0x265e5a51; 0xe9b6c7aa;
  0xd62f105d; 0x02441453; 0xd8a1e681; 0xe7d3fbc8;
  0x21e1cde6; 0xc33707d6; 0xf4d50d87; 0x455a14ed;
  0xa9e3e905; 0xfcefa3f8; 0x676f02d9; 0x8d2a4c8a;
  0xfffa3942; 0x8771f681; 0x6d9d6122; 0xfde5380c;
  0xa4beea44; 0x4bdecfa9; 0xf6bb4b60; 0xbebfbc70;
  0x289b7ec6; 0xeaa127fa; 0xd4ef3085; 0x04881d05;
  0xd9d4d039; 0xe6db99e5; 0x1fa27cf8; 0xc4ac5665;
  0xf4292244; 0x432aff97; 0xab9423a7; 0xfc93a039;
  0x655b59c3; 0x8f0ccc92; 0xffeff47d; 0x85845dd1;
  0x6fa87e4f; 0xfe2ce6e0; 0xa3014314; 0x4e0811a1;
  0xf7537e82; 0xbd3af235; 0x2ad7d2bb; 0xeb86d391]%N.

Definition shifts : list N :=
 [7; 12; 17; 22; 7; 12; 17; 22; 7; 12; 17; 22; 7; 12; 17; 22;
  5; 9; 14; 20; 5; 9; 14; 20; 5; 9; 14; 20; 5; 9; 14; 20;
  4; 11; 16; 23; 4; 11; 16; 23; 4; 11; 16; 23; 4; 11; 16; 23;
  6; 10; 15; 21; 6; 10; 15; 21; 6; 10; 15; 21; 6; 10; 15; 21]%N.

Definition not32 (x : N) : N := N.lxor x 0xFFFFFFFF.

Record digest := { A : N; B : N; C : N; D : N }.

(** One of the 64 operations on a block [M] of sixteen words. *)
Definition round (M : list N) (d : digest) (i : nat) : digest :=
  let '(F, g) :=
    if (i <? 16)%nat then
      (N.lor (N.land (B d) (C d)) (N.land (not32 (B d)) (D d)), i)
    else if (i <? 32)%nat then
      (N.lor (N.land (D d) (B d)) (N.land (not32 (D d)) (C d)), (5 * i + 1) mod 16)%nat
    else if (i <? 48)%nat then
      (N.lxor (B d) (N.lxor (C d) (D d)), (3 * i + 5) mod 16)%nat
    else
      (N.lxor (C d) (N.lor (B d) (not32 (D d))), (7 * i) mod 16)%nat in
  let F' := mask32 (F + A d + nth i K 0 + nth g M 0)%N in
  {| A := D d; D := C d; C := B d;
     B := mask32 (B d + rotl F' (nth i shifts 0))%N |}.

Definition block (d : digest) (M : list N) : digest :=
  let d' := fold_left (round M) (seq 0 64) d in
  {| A := mask32 (A d + A d'); B := mask32 (B d + B d');
     C := mask32 (C d + C d'); D := mask32 (D d + D d') |}.

(** Little-endian bytes of a word, and back. *)
Fixpoint le_bytes (n : nat) (x : N) : list N :=
  match n with
  | O => []
  | S n' => N.land x 255 :: le_bytes n' (N.shiftr x 8)
  end.

Fixpoint le_words (bytes : list N) : list N :=
  match bytes with
  | b0 :: b1 :: b2 :: b3 :: bytes' =>
      (b0 + N.shiftl b1 8 + N.shiftl b2 16 + N.shiftl b3 24)%N :: le_words bytes'
  | _ => []
  end.

(** The message, the byte 0x80, zero bytes up to 56 modulo 64, and the
    length in bits as eight little-endian bytes. *)
Definition pad (bytes : list N) : list N :=
  let len := length bytes in
  let zeros := ((64 + 55 - len mod 64) mod 64)%nat in
  bytes ++ [128%N] ++ repeat 0%N zeros ++ le_bytes 8 (8 * N.of_nat len).

Fixpoint blocks (n : nat) (words : list N) (d : digest) : digest :=
  match n with
  | O => d
  | S n' =>
      match words with
      | [] => d
      | _ => blocks n' (drop 16 words) (block d (take 16 words))
      end
  end.

Definition bytes_of (s : string) : list N :=
  map N_of_ascii (list_ascii_of_string s).

(** [md5.Sum]: the sixteen bytes of the digest. *)
Definition Sum (s : string) : list N :=
  let words := le_words (pad (bytes_of s)) in
  let d := blocks (length words) words
             {| A := 0x67452301; B := 0xefcdab89; C := 0x98badcfe; D := 0x10325476 |} in
  le_bytes 4 (A d) ++ le_bytes 4 (B d) ++ le_bytes 4 (C d) ++ le_bytes 4 (D d).

Definition hexdigit (n : N) : ascii :=
  nth (N.to_nat n) (list_ascii_of_string "0123456789abcdef") "0"%char.

(** [hex.EncodeToString] *)
Fixpoint EncodeToString (bytes : list N) : string :=
  match bytes with
  | [] => EmptyString
  | b :: bytes' =>
      String (hexdigit (N.shiftr b 4)) (String (hexdigit (N.land b 15)) (EncodeToString bytes'))
  end.

Definition hexsum (s : string) : string := EncodeToString (Sum s).

End md5.

(** ** The helpers that are not part of the sources at hand, written
       out from the specification.  The theorems below hold for every
       choice of the helpers; these are the ones the examples run on. *)

Module helpers.

Import gengo.

Definition itoa (n : nat) : string := NilEmpty.string_of_uint (Nat.to_uint n).

(** Modelled from the spec: [packageResourceName] is in a file that is
    not part of the sources at hand; a full name is [package/short_name]. *)
Definition packageResourceName (name : string) : sum string (string * string) :=
  if strings.Contains name "/" then
    match strings.Split name "/" with
    | [pkg; short] => inr (pkg, short)
    | _ => inl ("Invalid name " +:+ name)
    end
  else inr (EmptyString, name).

(** Modelled from the spec: [stripComment] is in a file that is not part
    of the sources at hand; comments begin at [#], and a line with
    nothing or only white space before the comment is an empty line. *)
Definition stripComment (line : string) : string :=
  strings.TrimSpace (hd EmptyString (strings.Split line "#")).

(** Modelled from the spec: the primitive types. *)
Definition primitives : list string :=
  ["bool"; "int8"; "uint8"; "int16"; "uint16"; "int32"; "uint32"; "int64";
   "uint64"; "float32"; "float64"; "string"; "time"; "duration"; "char"; "byte"].

(** Modelled from the spec: the type of a field may carry [[]] or
    [[N]]; this takes the suffix off. *)
Definition arraySuffix (t : string) : option (string * array_kind) :=
  match strings.Cut "[" t with
  | None => Some (t, scalar)
  | Some (base, suffix) =>
      match strings.Cut "]" suffix with
      | Some (EmptyString, EmptyString) => Some (base, unbounded)
      | Some (n, EmptyString) =>
          match ros.parseDigits 0 n with
          | Some z => Some (base, fixed (Z.to_nat z))
          | None => None
          end
      | _ => None
      end
  end.

(** Modelled from the spec: [loadFieldLine] is in a file that is not
    part of the sources at hand; a field line is [TYPE NAME], where
    TYPE may carry [[]] or [[N]]; [Header] expands to
    [std_msgs/Header], a primitive has no package, a type without
    package is local to the package of the message. *)
Definition loadFieldLine (line packageName : string) : sum string Field :=
  match strings.Fields (stripComment line) with
  | [t; n] =>
      match arraySuffix t with
      | None => inl ("Invalid field type: " +:+ t)
      | Some (base, kind) =>
          let '(pkg, ty) :=
            if String.eqb base "Header" then ("std_msgs", "Header")
            else if bool_decide (base ∈ primitives) then (EmptyString, base)
            else match strings.Split base "/" with
                 | [p; short] => (p, short)
                 | _ => (packageName, base)
                 end in
          inr {| Field_Package := pkg; Field_Type := ty; Field_Name := n;
                 Field_Array := kind |}
      end
  | _ => inl ("Invalid field line: " +:+ line)
  end.

(** Modelled from the spec: [loadConstantLine] is in a file that is not
    part of the sources at hand; a constant line is [TYPE NAME = VALUE],
    the value text is the right-hand side with the white space around it
    trimmed, and a string constant keeps what follows the [=] in the
    original line. *)
Definition loadConstantLine (line : string) : sum string Constant :=
  match strings.Cut "=" (stripComment line), strings.Cut "=" line with
  | Some (lhs, rhs), Some (_, rhs0) =>
      match strings.Fields lhs with
      | [t; n] =>
          inr {| Const_Type := t; Const_Name := n;
                 ValueText := strings.TrimSpace
                                (if String.eqb t "string" then rhs0 else rhs) |}
      | _ => inl ("Invalid constant line: " +:+ line)
      end
  | _, _ => inl ("Invalid constant line: " +:+ line)
  end.

(** Modelled from the spec: the canonical string form of a field is
    [TYPE NAME], with the array suffix [[]] or [[N]]. *)
Definition Field_String (f : Field) : string :=
  Field_Type f
  +:+ match Field_Array f with
      | scalar => EmptyString
      | unbounded => "[]"
      | fixed n => "[" +:+ itoa n +:+ "]"
      end
  +:+ " " +:+ Field_Name f.

#[export] Instance parsing : Parsing := {|
  gengo.ConstChar := "=";
  gengo.packageResourceName := packageResourceName;
  gengo.stripComment := stripComment;
  gengo.loadConstantLine := loadConstantLine;
  gengo.loadFieldLine := loadFieldLine;
  gengo.Field_String := Field_String
|}.

(** A file system with the files of [files], and the real MD5. *)
Definition system (files : gmap string string) : System := {|
  ReadFile path :=
    match files !! path with
    | Some text => inr text
    | None => inl ("open " +:+ path +:+ ": no such file or directory")
    end;
  md5hex := md5.hexsum
|}.

(** A context that knows no message at all. *)
Definition emptyContext : MsgContext :=
  {| msgPathMap := ∅; srvPathMap := ∅; actionPathMap := ∅; msgRegistry := ∅ |}.

(** Modelled from the spec: the name resolver is in name.go, which is
    not part of the sources at hand.  [resolve]: a name that begins
    with [/] is returned as it is, one that begins with [~] becomes
    [<namespace>/<node_name>/<rest>], any other [<namespace>/<name>],
    with duplicate [/] collapsed.  [remap]: resolve, then substitute by
    the remapping table, which is itself resolved first. *)
Record nameResolver := {
  res_namespace : string;
  res_nodeName : string;
  res_mapping : ros.NameMap
}.

(** Modelled from the spec: duplicate [/] are collapsed. *)
Fixpoint collapse (s : string) : string :=
  match s with
  | EmptyString => EmptyString
  | String c s' =>
      match c, s' with
      | "/"%char, String "/"%char _ => collapse s'
      | _, _ => String c (collapse s')
      end
  end.

(** Modelled from the spec: [resolve(name)], see above. *)
Definition resolve (namespace nodeName name : string) : string :=
  match name with
  | String "/"%char _ => name
  | String "~"%char rest' => collapse (namespace +:+ "/" +:+ nodeName +:+ "/" +:+ rest')
  | _ => collapse (namespace +:+ "/" +:+ name)
  end.

(** Modelled from the spec: the remapping table is built from the
    [key:=value] arguments and is itself resolved. *)
Definition newNameResolver (namespace nodeName : string) (remapping : ros.NameMap)
    : nameResolver :=
  {| res_namespace := namespace; res_nodeName := nodeName;
     res_mapping :=
       list_to_map
         (map (fun kv => (resolve namespace nodeName kv.1, resolve namespace nodeName kv.2))
              (map_to_list remapping)) |}.

(** Modelled from the spec: [remap(name)] resolves first and then
    substitutes by the table, once. *)
Definition remap (r : nameResolver) (name : string) : string :=
  let key := resolve (res_namespace r) (res_nodeName r) name in
  match res_mapping r !! key with
  | Some value => value
  | None => key
  end.

(** Modelled from the spec: [qualifyNodeName] is in name.go.  A plain
    node name lies in the root namespace; the examples need no other
    name, and an empty or a structured name is refused here. *)
Definition qualifyNodeName (name : string) : ros.Result (string * string) :=
  if ((String.length name =? 0)%nat || strings.Contains name "/")%bool
  then inl ("Invalid node name: " +:+ name)
  else inr ("/", name).

(** A package [ros] whose message types are given by their names, whose
    callbacks are numbered, and whose default logger ends the process
    on [Fatal]. *)
#[export] Instance package : ros.Package string nat nameResolver := {|
  ros.Name := fun t => t;
  ros.qualifyNodeName := qualifyNodeName;
  ros.determineHost := ("localhost", true);
  ros.newNameResolver := newNameResolver;
  ros.resolver_remap := remap;
  ros.NewDefaultLogger := {| ros.Fatal_exits := true |}
|}.

(** A process environment with the variables of [env], a Master that
    gives the answer [answer] to every call, listeners on the ports
    4000, 4001, ..., and maps visited in the order of [map_to_list]. *)
Definition environment (env : gmap string string)
    (answer : ros.MasterCall -> ros.Result ros.Value) : ros.Environment := {|
  ros.Getenv key := match env !! key with Some v => v | None => EmptyString end;
  ros.filepath_Join a b := a +:+ "/" +:+ b;
  ros.net_Listen k address :=
    match strings.Cut ":" address with
    | Some (host, _) => inr (host +:+ ":" +:+ itoa (4000 + k))
    | None => inl ("listen tcp: address " +:+ address +:+ ": missing port in address")
    end;
  ros.net_SplitHostPort address :=
    match strings.Cut ":" address with
    | Some (host, port) => inr (host, port)
    | None => inl ("address " +:+ address +:+ ": missing port in address")
    end;
  ros.master _ c := answer c;
  ros.range_NameMap := map_to_list;
  ros.range_NameMap_perm := fun m => Permutation_refl (map_to_list m)
|}.

(** A Master that registers everything and knows no publisher. *)
Definition friendlyMaster (c : ros.MasterCall) : ros.Result ros.Value :=
  if String.eqb (ros.call_method c) "registerSubscriber"
  then inr (ros.Array [])
  else inr (ros.Int 0).

(** *** The inputs of the examples *)

(** A process with [ROS_MASTER_URI] set and a Master that accepts
    every call. *)
Definition exampleEnvironment : ros.Environment :=
  environment {[ "ROS_MASTER_URI" := "http://localhost:11311" ]} friendlyMaster.

(** The world before the node has done anything. *)
Definition world0 : ros.World := {| ros.calls := []; ros.listeners := 0 |}.

Definition Header_msg : string :=
  "# Standard metadata for higher-level stamped data types.
uint32 seq
time stamp
string frame_id
".

Definition GoalID_msg : string :=
  "# The stamp should store the time at which this goal was requested.
time stamp

# The id provides a way to associate feedback and
# result message with specific goal requests.
string id
".

Definition GoalStatus_msg : string :=
  "GoalID goal_id
uint8 status
uint8 PENDING         = 0   # The goal has yet to be processed by the action server
uint8 ACTIVE          = 1   # The goal is currently being processed by the action server
uint8 PREEMPTED       = 2   # The goal received a cancel request after it started executing
                            #   and has since completed its execution (Terminal State)
uint8 SUCCEEDED       = 3   # The goal was achieved successfully by the action server (Terminal State)
uint8 ABORTED         = 4   # The goal was aborted during execution by the action server due
                            #    to some failure (Terminal State)
uint8 REJECTED        = 5   # The goal was rejected by the action server without being processed,
                            #    because the goal was unattainable or invalid (Terminal State)
uint8 PREEMPTING      = 6   # The goal received a cancel request after it started executing
                            #    and has not yet completed execution
uint8 RECALLING       = 7   # The goal received a cancel request before it started executing,
                            #    but the action server has not yet confirmed that the goal is canceled
uint8 RECALLED        = 8   # The goal received a cancel request before it started executing
                            #    and was successfully cancelled (Terminal State)
uint8 LOST            = 9   # An action client can determine that a goal is LOST. This should not be
                            #    sent over the wire by an action server

#Allow for the user to associate a string with GoalStatus for debugging
string text
".

Definition Fibonacci_action : string :=
  "#goal definition
int32 order
---
#result definition
int32[] sequence
---
#feedback
int32[] sequence
".

(** The three message files that every action needs. *)
Definition actionFiles : gmap string string :=
  {[ "/opt/ros/share/std_msgs/msg/Header.msg" := Header_msg;
     "/opt/ros/share/actionlib_msgs/msg/GoalID.msg" := GoalID_msg;
     "/opt/ros/share/actionlib_msgs/msg/GoalStatus.msg" := GoalStatus_msg ]}.

(** The context that [NewMsgContext] makes when it finds those files. *)
Definition actionContext : MsgContext :=
  {| msgPathMap :=
       {[ "std_msgs/Header" := "/opt/ros/share/std_msgs/msg/Header.msg";
          "actionlib_msgs/GoalID" := "/opt/ros/share/actionlib_msgs/msg/GoalID.msg";
          "actionlib_msgs/GoalStatus" := "/opt/ros/share/actionlib_msgs/msg/GoalStatus.msg" ]};
     srvPathMap := ∅; actionPathMap := ∅; msgRegistry := ∅ |}.

(** A Master that cannot be reached. *)
Definition refusingMaster (c : ros.MasterCall) : ros.Result ros.Value :=
  inl "dial tcp 127.0.0.1:11311: connect: connection refused".

(** A process with [ROS_MASTER_URI] set and no Master behind it. *)
Definition refusingEnvironment : ros.Environment :=
  environment {[ "ROS_MASTER_URI" := "http://localhost:11311" ]} refusingMaster.

(** A process as in [exampleEnvironment], on a host where no port can
    be opened. *)
Definition deafEnvironment : ros.Environment := {|
  ros.Getenv := ros.Getenv (Environment := exampleEnvironment);
  ros.filepath_Join := ros.filepath_Join (Environment := exampleEnvironment);
  ros.net_Listen _ address :=
    inl ("listen tcp " +:+ address +:+ ": bind: address already in use");
  ros.net_SplitHostPort := ros.net_SplitHostPort (Environment := exampleEnvironment);
  ros.master := ros.master (Environment := exampleEnvironment);
  ros.range_NameMap := map_to_list;
  ros.range_NameMap_perm := fun m => Permutation_refl (map_to_list m)
|}.

(** Maps of publishers and subscribers visited in the order of
    [map_to_list]. *)
#[export] Instance ranging : ros.Ranging := {|
  ros.range_map := fun V => map_to_list;
  ros.range_map_perm := fun V m => Permutation_refl (map_to_list m)
|}.

(** A message with a field of its own type. *)
Definition Node_msg : string :=
  "int32 value
pkg/Node next
".

Definition selfFiles : gmap string string :=
  {[ "/ws/src/pkg/msg/Node.msg" := Node_msg ]}.

Definition selfContext : MsgContext :=
  {| msgPathMap := {[ "pkg/Node" := "/ws/src/pkg/msg/Node.msg" ]};
     srvPathMap := ∅; actionPathMap := ∅; msgRegistry := ∅ |}.

(** [rospy_tutorials/AddTwoInts.srv] *)
Definition AddTwoInts_srv : string :=
  "int64 a
int64 b
---
int64 sum
".

(** The last element of a path written with single slashes. *)
Definition Base (path : string) : string :=
  List.last (strings.Split path "/") EmptyString.

(** A file system given by its directories and by what the patterns
    match. *)
Definition directories (dirs : gmap string (list FileInfo))
    (globs : gmap string (list string)) : Directories := {|
  gengo.ReadDir dir :=
    match dirs !! dir with
    | Some files => inr files
    | None => inl ("open " +:+ dir +:+ ": no such file or directory")
    end;
  gengo.Glob pattern := inr (default [] (globs !! pattern));
  gengo.filepath_Join a b := a +:+ "/" +:+ b;
  gengo.filepath_Base := Base
|}.

(** An installation with the package [std_msgs] and a directory that is
    no package, and a workspace with another [std_msgs]. *)
Definition shareDirs : gmap string (list FileInfo) :=
  {[ "/opt/ros/share" :=
       [{| File_Name := "README"; IsDir := false |};
        {| File_Name := "std_msgs"; IsDir := true |};
        {| File_Name := "tools"; IsDir := true |}];
     "/opt/ros/share/std_msgs" :=
       [{| File_Name := "msg"; IsDir := true |};
        {| File_Name := "package.xml"; IsDir := false |}];
     "/opt/ros/share/tools" := [{| File_Name := "bin"; IsDir := true |}];
     "/ws/src" := [{| File_Name := "std_msgs"; IsDir := true |}];
     "/ws/src/std_msgs" :=
       [{| File_Name := "msg"; IsDir := true |};
        {| File_Name := "package.xml"; IsDir := false |}] ]}.

Definition shareGlobs : gmap string (list string) :=
  {[ "/opt/ros/share/std_msgs/msg/*.msg" :=
       ["/opt/ros/share/std_msgs/msg/Header.msg";
        "/opt/ros/share/std_msgs/msg/String.msg"];
     "/ws/src/std_msgs/msg/*.msg" := ["/ws/src/std_msgs/msg/String.msg"] ]}.

End helpers.

(** ** Facts about the string functions *)

Module strings_facts.

Import strings.

Lemma append_cons (c : ascii) (a b : string) :
  String c a +:+ b = String c (a +:+ b).
Proof. reflexivity. Qed.

Lemma append_empty (b : string) : EmptyString +:+ b = b.
Proof. reflexivity. Qed.

Lemma prefix_cons_true (c d : ascii) (p s : string) :
  String.prefix (String c p) (String d s) = true ->
  c = d /\ String.prefix p s = true.
Proof. cbn [String.prefix]. by destruct (ascii_dec c d). Qed.

Lemma prefix_drop (sep s : string) :
  String.prefix sep s = true -> s = sep +:+ drop_bytes (String.length sep) s.
Proof.
  revert s. induction sep as [|c sep IH]; intros s Hp; [reflexivity|].
  destruct s as [|d s]; simpl in Hp; [discriminate|].
  destruct (ascii_dec c d) as [->|]; [|discriminate].
  rewrite append_cons. simpl. f_equal. by apply IH.
Qed.

Lemma prefix_append (sep s : string) : String.prefix sep (sep +:+ s) = true.
Proof.
  induction sep as [|c sep IH].
  - rewrite append_empty. by destruct s.
  - rewrite append_cons. simpl. destruct (ascii_dec c c); [apply IH | done].
Qed.

Lemma Cut_unfold (sep s : string) :
  Cut sep s =
  if String.prefix sep s then Some (EmptyString, drop_bytes (String.length sep) s)
  else match s with
       | EmptyString => None
       | String c s' =>
           match Cut sep s' with
           | Some (before, after) => Some (String c before, after)
           | None => None
           end
       end.
Proof. by destruct s. Qed.

(** A cut is made at an occurrence of the separator. *)
Lemma Cut_Some (sep s before after : string) :
  Cut sep s = Some (before, after) -> s = before +:+ sep +:+ after.
Proof.
  revert before after. induction s as [|c s IH]; intros before after;
    rewrite Cut_unfold.
  - destruct (String.prefix sep EmptyString) eqn:Hp; [|discriminate].
    intros [= <- <-]. rewrite append_empty. by apply prefix_drop.
  - destruct (String.prefix sep (String c s)) eqn:Hp.
    + intros [= <- <-]. rewrite append_empty. by apply prefix_drop.
    + destruct (Cut sep s) as [[b a]|] eqn:Hc; [|discriminate].
      intros [= <- <-]. rewrite append_cons. f_equal. by apply IH.
Qed.

(** Where the separator occurs, a cut is made. *)
Lemma Cut_occurrence (sep a b : string) : is_Some (Cut sep (a +:+ sep +:+ b)).
Proof.
  induction a as [|c a IH].
  - rewrite append_empty, Cut_unfold, prefix_append. eauto.
  - rewrite append_cons, Cut_unfold.
    destruct (String.prefix sep (String c (a +:+ sep +:+ b))); [eauto|].
    destruct IH as [[x y] ->]. eauto.
Qed.

Lemma Cut_None (sep s : string) :
  Cut sep s = None -> forall a b, s <> a +:+ sep +:+ b.
Proof.
  intros Hc a b ->. destruct (Cut_occurrence sep a b) as [? H]. congruence.
Qed.

Lemma length_append (a b : string) :
  String.length (a +:+ b) = String.length a + String.length b.
Proof. induction a; [done|]. rewrite append_cons. simpl. congruence. Qed.

Lemma genSplit_length_ge (n : nat) (sep s : string) : 1 <= length (genSplit n sep s).
Proof. destruct n; simpl; [lia|]. destruct (Cut sep s) as [[? ?]|]; simpl; lia. Qed.

(** A text without the separator is one component. *)
Lemma Split_absent (sep s : string) :
  (forall a b, s <> a +:+ sep +:+ b) -> Split s sep = [s].
Proof.
  intros Hn. unfold Split. destruct (String.length s); simpl; [done|].
  destruct (Cut sep s) as [[x y]|] eqn:Hc; [|done].
  apply Cut_Some in Hc. by destruct (Hn x y).
Qed.

(** A text with the separator anywhere in it has two components at
    least. *)
Lemma Split_occurrence (sep a b : string) :
  sep <> EmptyString -> 2 <= length (Split (a +:+ sep +:+ b) sep).
Proof.
  intros Hsep. unfold Split.
  destruct (String.length (a +:+ sep +:+ b)) eqn:Hl.
  - rewrite !length_append in Hl. destruct sep; [done|simpl in Hl; lia].
  - simpl. destruct (Cut_occurrence sep a b) as [[x y] ->]. simpl.
    pose proof (genSplit_length_ge n sep y). lia.
Qed.

(** The first cut of a text with [:=] in it leaves either what follows
    that occurrence or a text with the occurrence still in it: [:=]
    cannot overlap itself. *)
Lemma Cut_remap_occurrence (a b : string) :
  exists x y, Cut ":=" (a +:+ ":=" +:+ b) = Some (x, y)
              /\ (y = b \/ exists a', y = a' +:+ ":=" +:+ b).
Proof.
  induction a as [|c a IH].
  - exists EmptyString, b. split; [|by left].
    rewrite append_empty, Cut_unfold, prefix_append. reflexivity.
  - destruct IH as (x & y & Hc & Hy). rewrite append_cons, Cut_unfold.
    destruct (String.prefix ":=" (String c (a +:+ ":=" +:+ b))) eqn:Hp.
    + eexists _, _. split; [reflexivity|]. right.
      apply prefix_cons_true in Hp as [<- Hp].
      destruct a as [|d a]; [done|]. rewrite append_cons in Hp |- *.
      apply prefix_cons_true in Hp as [<- _].
      exists a. reflexivity.
    + rewrite Hc. eauto.
Qed.

(** A text with [:=] in it twice has three components at least. *)
Lemma Split_remap_twice (a b c : string) :
  3 <= length (Split (a +:+ ":=" +:+ b +:+ ":=" +:+ c) ":=").
Proof.
  unfold Split.
  destruct (Cut_remap_occurrence a (b +:+ ":=" +:+ c)) as (x & y & Hc & Hy).
  assert (Hy' : exists u v, y = u +:+ ":=" +:+ v).
  { destruct Hy as [->|[a' ->]]; eauto. }
  destruct Hy' as (u & v & ->).
  pose proof (Cut_Some _ _ _ _ Hc) as Hs.
  destruct (String.length (a +:+ ":=" +:+ b +:+ ":=" +:+ c)) as [|[|n]] eqn:Hl.
  - rewrite !length_append in Hl. simpl in Hl. lia.
  - rewrite !length_append in Hl. simpl in Hl. lia.
  - cbn [genSplit]. rewrite Hc.
    destruct (Cut_occurrence ":=" u v) as [[x' y'] ->]. simpl.
    pose proof (genSplit_length_ge n ":=" y'). lia.
Qed.

End strings_facts.

(** ** Facts about the node (ros/node.go) *)

Module node_facts.

Import strings ros strings_facts.

(** *** Argument parsing *)

(** What one round of the loop does, by the shape of the token. *)
Lemma processArgument_cases (acc : Arguments) (arg : string) :
  (length (Split arg remap) <> 2
   /\ processArgument acc arg =
      {| mapping := mapping acc; params := params acc; specials := specials acc;
         rest := rest acc ++ [arg] |})
  \/ exists key value, Split arg remap = [key; value] /\
     ((HasPrefix key "__" = true
       /\ processArgument acc arg =
          {| mapping := mapping acc; params := params acc;
             specials := <[key := value]> (specials acc); rest := rest acc |})
      \/ (HasPrefix key "__" = false /\ HasPrefix key "_" = true
          /\ processArgument acc arg =
             {| mapping := mapping acc;
                params := <[drop_bytes 1 key := value]> (params acc);
                specials := specials acc; rest := rest acc |})
      \/ (HasPrefix key "_" = false
          /\ processArgument acc arg =
             {| mapping := <[key := value]> (mapping acc); params := params acc;
                specials := specials acc; rest := rest acc |})).
Proof.
  unfold processArgument.
  destruct (Split arg remap) as [|key [|value [|? ?]]] eqn:Hs;
    try (left; split; [simpl; lia | reflexivity]).
  right. exists key, value. split; [done|].
  destruct (HasPrefix key "__") eqn:H2; [by left|].
  destruct (HasPrefix key "_") eqn:H1; [right; by left|].
  right; right. done.
Qed.

Lemma fold_rest (args : list string) (acc : Arguments) :
  rest (fold_left processArgument args acc) =
  rest acc ++ filter (fun arg => length (Split arg remap) <> 2) args.
Proof.
  revert acc. induction args as [|arg args IH]; intros acc; simpl.
  - by rewrite app_nil_r.
  - rewrite IH, filter_cons.
    destruct (processArgument_cases acc arg)
      as [[Hn ->]|(key & value & Hs & [[_ ->]|[(_ & _ & ->)|[_ ->]]])]; simpl.
    + rewrite decide_True by done. by rewrite <- app_assoc.
    + rewrite decide_False; [done|]. rewrite Hs. simpl. lia.
    + rewrite decide_False; [done|]. rewrite Hs. simpl. lia.
    + rewrite decide_False; [done|]. rewrite Hs. simpl. lia.
Qed.

Lemma fold_specials (args : list string) (acc : Arguments) (k v : string) :
  specials (fold_left processArgument args acc) !! k = Some v ->
  specials acc !! k = Some v
  \/ exists arg, arg ∈ args /\ Split arg remap = [k; v] /\ HasPrefix k "__" = true.
Proof.
  revert acc. induction args as [|arg args IH]; intros acc; simpl; [by left|].
  intros H. apply IH in H as [H|(arg' & Hin & Hs)].
  - destruct (processArgument_cases acc arg)
      as [[Hn E]|(key & value & Hs & [[Hp E]|[(_ & _ & E)|[_ E]]])];
      rewrite E in H; simpl in H; try by left.
    destruct (decide (key = k)) as [->|Hne].
    + rewrite lookup_insert_eq in H. injection H as ->.
      right. exists arg. split; [apply list_elem_of_here | done].
    + rewrite lookup_insert_ne in H by done. by left.
  - right. exists arg'. split; [by apply list_elem_of_further | done].
Qed.

Lemma fold_params (args : list string) (acc : Arguments) (k v : string) :
  params (fold_left processArgument args acc) !! k = Some v ->
  params acc !! k = Some v
  \/ exists arg key, arg ∈ args /\ Split arg remap = [key; v]
       /\ HasPrefix key "__" = false /\ HasPrefix key "_" = true
       /\ k = drop_bytes 1 key.
Proof.
  revert acc. induction args as [|arg args IH]; intros acc; simpl; [by left|].
  intros H. apply IH in H as [H|(arg' & key' & Hin & Hs)].
  - destruct (processArgument_cases acc arg)
      as [[Hn E]|(key & value & Hs & [[Hp E]|[(H2 & H1 & E)|[_ E]]])];
      rewrite E in H; simpl in H; try by left.
    destruct (decide (drop_bytes 1 key = k)) as [<-|Hne].
    + rewrite lookup_insert_eq in H. injection H as ->.
      right. exists arg, key. split; [apply list_elem_of_here | done].
    + rewrite lookup_insert_ne in H by done. by left.
  - right. exists arg', key'. split; [by apply list_elem_of_further | done].
Qed.

Lemma fold_mapping (args : list string) (acc : Arguments) (k v : string) :
  mapping (fold_left processArgument args acc) !! k = Some v ->
  mapping acc !! k = Some v
  \/ exists arg, arg ∈ args /\ Split arg remap = [k; v] /\ HasPrefix k "_" = false.
Proof.
  revert acc. induction args as [|arg args IH]; intros acc; simpl; [by left|].
  intros H. apply IH in H as [H|(arg' & Hin & Hs)].
  - destruct (processArgument_cases acc arg)
      as [[Hn E]|(key & value & Hs & [[Hp E]|[(_ & _ & E)|[Hp E]]])];
      rewrite E in H; simpl in H; try by left.
    destruct (decide (key = k)) as [->|Hne].
    + rewrite lookup_insert_eq in H. injection H as ->.
      right. exists arg. split; [apply list_elem_of_here | done].
    + rewrite lookup_insert_ne in H by done. by left.
  - right. exists arg'. split; [by apply list_elem_of_further | done].
Qed.

(** C10.  Argument parsing classifies a token as a special, a private
    parameter or a remapping only when splitting it on [:=] gives
    exactly two components: the non-ROS arguments are exactly the
    tokens that split otherwise, unchanged and in their order; every
    entry of the three maps comes from a token of two components; and a
    token with [:=] in it twice or more (such as [a:=b:=c]), like a
    token without [:=], is among the non-ROS arguments. *)
Theorem processArguments_two_components (args : list string) :
  let r := processArguments args in
  rest r = filter (fun arg => length (Split arg ":=") <> 2) args
  /\ (forall k v, specials r !! k = Some v ->
        exists arg, arg ∈ args /\ Split arg ":=" = [k; v] /\ HasPrefix k "__" = true)
  /\ (forall k v, params r !! k = Some v ->
        exists arg key, arg ∈ args /\ Split arg ":=" = [key; v]
          /\ HasPrefix key "__" = false /\ HasPrefix key "_" = true
          /\ k = drop_bytes 1 key)
  /\ (forall k v, mapping r !! k = Some v ->
        exists arg, arg ∈ args /\ Split arg ":=" = [k; v] /\ HasPrefix k "_" = false)
  /\ (forall arg, arg ∈ args ->
        (exists a b c, arg = a +:+ ":=" +:+ b +:+ ":=" +:+ c)
        \/ (forall a b, arg <> a +:+ ":=" +:+ b) ->
        arg ∈ rest r).
Proof.
  intros r. subst r. unfold processArguments.
  split; [apply (fold_rest args) | split; [|split; [|split]]].
  - intros k v H. by apply fold_specials in H as [H|H].
  - intros k v H. by apply fold_params in H as [H|H].
  - intros k v H. by apply fold_mapping in H as [H|H].
  - intros arg Hin Hocc. rewrite (fold_rest args). simpl.
    apply list_elem_of_filter. split; [|done].
    destruct Hocc as [(a & b & c & ->)|Hno].
    + pose proof (Split_remap_twice a b c). unfold remap. lia.
    + unfold remap. by rewrite (Split_absent ":=" arg Hno).
Qed.

(** A token [_key:=value] that no later token overrides sets the
    private parameter [key]. *)
Lemma fold_params_last (post : list string) (acc : Arguments) (key value : string) :
  params acc !! key = Some value ->
  (forall arg v, arg ∈ post -> Split arg remap <> [String "_" key; v]) ->
  params (fold_left processArgument post acc) !! key = Some value.
Proof.
  revert acc. induction post as [|arg post IH]; intros acc Hacc Hpost; simpl; [done|].
  apply IH.
  - destruct (processArgument_cases acc arg)
      as [[Hn E]|(k & v & Hs & [[Hp E]|[(H2 & H1 & E)|[_ E]]])];
      rewrite E; simpl; try done.
    destruct (decide (drop_bytes 1 k = key)) as [Hk|Hne];
      [|by rewrite lookup_insert_ne].
    exfalso. apply (Hpost arg v); [apply list_elem_of_here|].
    rewrite Hs. repeat f_equal.
    destruct k as [|c k]; [done|]. apply prefix_cons_true in H1 as [<- _].
    simpl in Hk. by rewrite Hk.
  - intros arg' v Hin. apply Hpost. by apply list_elem_of_further.
Qed.

Lemma HasPrefix_underscore (key : string) : HasPrefix (String "_" key) "_" = true.
Proof. by destruct key. Qed.

Lemma HasPrefix_underscores (key : string) :
  HasPrefix (String "_" key) "__" = HasPrefix key "_".
Proof. reflexivity. Qed.

Lemma processArguments_param (pre post : list string) (arg key value : string) :
  Split arg remap = [String "_" key; value] ->
  HasPrefix key "_" = false ->
  (forall arg' v, arg' ∈ post -> Split arg' remap <> [String "_" key; v]) ->
  params (processArguments (pre ++ arg :: post)) !! key = Some value.
Proof.
  intros Hs Hk Hpost. unfold processArguments. rewrite fold_left_app. simpl.
  apply fold_params_last; [|done].
  unfold processArgument at 1.
  rewrite Hs, HasPrefix_underscores, Hk, HasPrefix_underscore.
  apply lookup_insert_eq.
Qed.

Section Node.
Context {MessageType Callback nameResolver : Type}.
Context `{Env : Environment} {Pkg : Package MessageType Callback nameResolver}.

#[local] Abbreviation Node := (defaultNode MessageType Callback nameResolver).
#[local] Abbreviation Publisher := (defaultPublisher MessageType Callback).
#[local] Abbreviation Subscriber := (defaultSubscriber MessageType Callback).

(** *** Node construction *)

Lemma setParams_calls (uri q : string) (kvs : list (string * string)) (w w' : World) :
  setParams uri q kvs w = (None, w') ->
  calls w' = calls w ++ map (setParamCall uri q) kvs /\ listeners w' = listeners w.
Proof.
  revert w. induction kvs as [|[k v] kvs IH]; intros w; simpl.
  - intros [= <-]. by rewrite app_nil_r.
  - destruct (master (calls w) _) as [err|val]; [discriminate|].
    intros H. apply IH in H as [-> ->]. simpl. by rewrite <- app_assoc.
Qed.

(** What a construction that returns a node has done. *)
Lemma newDefaultNode_returns (name0 : string) (args : list string)
    (w w' : World) (node : Node) :
  newDefaultNode name0 args w = (Return (inr node), w') ->
  let a := processArguments args in
  exists namespace0 nodeName,
    qualifyNodeName name0 = inr (namespace0, nodeName)
    /\ name node = specialOr (specials a) "__name" nodeName
    /\ namespace node = specialOr (specials a) "__ns" (envOr "ROS_NAMESPACE" namespace0)
    /\ masterURI node = specialOr (specials a) "__master" (Getenv "ROS_MASTER_URI")
    /\ qualifiedName node =
       (if (String.length (namespace node) =? 1)%nat
        then namespace node +:+ name node
        else namespace node +:+ "/" +:+ name node)
    /\ nonRosArgs node = rest a
    /\ subscribers node = ∅ /\ publishers node = ∅
    /\ calls w' =
       calls w ++ map (setParamCall (masterURI node) (qualifiedName node))
                      (range_NameMap (params a))
    /\ listeners w' = S (listeners w).
Proof.
  intros H a. unfold newDefaultNode in H.
  destruct (qualifyNodeName name0) as [err|[namespace0 nodeName]]; [discriminate|].
  exists namespace0, nodeName. split; [done|].
  fold a in H.
  match type of H with
  | context [let '(_, _) := ?x in _] => destruct x as [hostname' onlyLocalhost]
  end.
  match type of H with
  | context [setParams ?u ?q ?kvs ?w] =>
      destruct (setParams u q kvs w) as [[err|] w1] eqn:Hsp
  end; [discriminate|].
  apply setParams_calls in Hsp as [Hcalls Hl].
  destruct (net_Listen (listeners w1) _) as [err|addr].
  { unfold Fatal, bind in H. destruct (Fatal_exits NewDefaultLogger); discriminate. }
  destruct (net_SplitHostPort addr) as [err|[host port]]; [discriminate|].
  injection H as <- <-. simpl. rewrite Hl. done.
Qed.

(** C5, as the code has it.  The qualified name of a constructed node
    is namespace + name when the namespace is one byte long, as [/]
    is, and namespace + [/] + name for every other namespace. *)
Theorem qualifiedName_by_namespace_length (name0 : string) (args : list string)
    (w w' : World) (node : Node) :
  newDefaultNode name0 args w = (Return (inr node), w') ->
  (namespace node = "/" -> qualifiedName node = "/" +:+ name node)
  /\ (String.length (namespace node) = 1 ->
      qualifiedName node = namespace node +:+ name node)
  /\ (String.length (namespace node) <> 1 ->
      qualifiedName node = namespace node +:+ "/" +:+ name node).
Proof.
  intros H. apply newDefaultNode_returns in H.
  destruct H as (ns & nn & _ & _ & _ & _ & Hq & _). rewrite Hq.
  split; [|split].
  - by intros ->.
  - by intros ->.
  - intros Hl. by apply Nat.eqb_neq in Hl as ->.
Qed.

(** C6, as the code has it.  A token [_key:=value] with a single
    leading underscore and a single [:=], which no later token for the
    same key overrides, is pushed by a construction that returns a node
    as the Master call [setParam(qualifiedName, key, value)]: the
    parameter name is the key without the underscore, and no tilde is
    put before it. *)
Theorem private_parameter_pushed_as_key (name0 : string) (pre post : list string)
    (arg key value : string) (w w' : World) (node : Node) :
  newDefaultNode name0 (pre ++ arg :: post) w = (Return (inr node), w') ->
  Split arg ":=" = [String "_" key; value] ->
  HasPrefix key "_" = false ->
  (forall arg' v, arg' ∈ post -> Split arg' ":=" <> [String "_" key; v]) ->
  {| call_uri := masterURI node; call_method := "setParam";
     call_args := [Str (qualifiedName node); Str key; Str value] |} ∈ calls w'.
Proof.
  intros H Hs Hk Hpost.
  pose proof (processArguments_param pre post arg key value Hs Hk Hpost) as Hp.
  apply newDefaultNode_returns in H.
  destruct H as (ns & nn & _ & _ & _ & _ & _ & _ & _ & _ & -> & _).
  apply elem_of_app. right.
  change {| call_uri := masterURI node; call_method := "setParam";
            call_args := [Str (qualifiedName node); Str key; Str value] |}
    with (setParamCall (masterURI node) (qualifiedName node) (key, value)).
  apply list_elem_of_fmap_2.
  rewrite (range_NameMap_perm (params (processArguments (pre ++ arg :: post)))).
  by apply elem_of_map_to_list.
Qed.

(** *** requestTopic *)

Lemma selectProtocol_other (pub : Publisher) (v : Value) (protocols : list Value) :
  otherProtocol v -> selectProtocol pub (v :: protocols) = selectProtocol pub protocols.
Proof.
  intros (n & ps & -> & Hn). simpl.
  apply String.eqb_neq in Hn. by rewrite Hn.
Qed.

Lemma selectProtocol_none (pub : Publisher) (protocols : list Value) :
  Forall otherProtocol protocols -> selectProtocol pub protocols = Return (inr []).
Proof.
  induction 1 as [|v protocols Hv _ IH]; [done|].
  by rewrite selectProtocol_other.
Qed.

Lemma selectProtocol_first (pub : Publisher) (before after params : list Value)
    (port : Z) :
  Forall otherProtocol before ->
  ParseInt32 (pub_port pub) = inr port ->
  selectProtocol pub (before ++ Array (Str "TCPROS" :: params) :: after) =
  Return (inr [Str "TCPROS"; Str (pub_host pub); Int port]).
Proof.
  intros Hb Hp. induction Hb as [|v before Hv _ IH].
  - simpl. by rewrite Hp.
  - rewrite <- app_comm_cons. by rewrite selectProtocol_other.
Qed.

(** C7, as the code has it.  [requestTopic] on a topic without local
    publisher returns a failure-status 3-tuple.  On a topic with a
    publisher the offered protocols are scanned in order, each being
    taken for an array that begins with its name: with a first protocol
    named TCPROS (the ones before it being arrays that begin with
    another name) and a listener port that reads as a number, the
    result is success-status with the value [["TCPROS", host, port]]
    of the publisher's listener; when all are arrays that begin with
    another name, the result is success-status with an empty protocol
    list; and an offer that is not an array beginning with a string,
    with no protocol named TCPROS before it, makes the call panic,
    whatever is offered after it. *)
Theorem requestTopic_contract (node : Node) (callerID topic : string)
    (protocols : list Value) :
  (publishers node !! topic = None ->
   requestTopic node callerID topic protocols =
   Return (inr (Array [Int failureStatus; Str "No such topic"; Int 0])))
  /\ (forall pub, publishers node !! topic = Some pub ->
      (forall before params after port,
         protocols = before ++ Array (Str "TCPROS" :: params) :: after ->
         Forall otherProtocol before ->
         ParseInt32 (hostAndPort pub).2 = inr port ->
         requestTopic node callerID topic protocols =
         Return (inr (Array [Int successStatus; Str "Success";
                             Array [Str "TCPROS"; Str (hostAndPort pub).1; Int port]])))
      /\ (Forall otherProtocol protocols ->
          requestTopic node callerID topic protocols =
          Return (inr (Array [Int successStatus; Str "Success"; Array []])))
      /\ (forall before v after,
            protocols = before ++ v :: after ->
            Forall otherProtocol before ->
            ~ namedProtocol v ->
            requestTopic node callerID topic protocols = Panic)).
Proof.
  unfold requestTopic. split; [by intros ->|].
  intros pub ->. split; [|split].
  - intros before params after port -> Hb Hp.
    by rewrite (selectProtocol_first pub before after params port Hb Hp).
  - intros Hall. by rewrite selectProtocol_none.
  - intros before v after -> Hb Hv.
    assert (Hpanic : selectProtocol pub (before ++ v :: after) = Panic).
    { induction Hb as [|x before Hx _ IH].
      - destruct v as [| | | |[|[| | |name'|] params]]; try reflexivity.
        destruct Hv. by exists name', params.
      - rewrite <- app_comm_cons. by rewrite selectProtocol_other. }
    by rewrite Hpanic.
Qed.

(** *** NewSubscriber *)

(** C8.  On a topic for which a subscriber exists under the resolved
    name, [NewSubscriber] makes no call to the Master and leaves the
    world as it is, creates no subscriber (the map keeps its keys), and
    the subscriber of the topic, which it returns, has the callbacks it
    had, in their order, followed by the new callback. *)
Theorem NewSubscriber_existing_topic (node : Node) (topic : string)
    (msgType : MessageType) (callback : Callback) (w : World)
    (sub : Subscriber) :
  subscribers node !! resolver_remap (resolver node) topic = Some sub ->
  exists node' sub',
    NewSubscriber node topic msgType callback w = (Return (node', sub'), w)
    /\ callbacks sub' = callbacks sub ++ [callback]
    /\ sub_topic sub' = sub_topic sub /\ sub_msgType sub' = sub_msgType sub
    /\ pubListChan sub' = pubListChan sub
    /\ subscribers node' !! resolver_remap (resolver node) topic = Some sub'
    /\ (forall other, other <> resolver_remap (resolver node) topic ->
          subscribers node' !! other = subscribers node !! other)
    /\ dom (subscribers node') = dom (subscribers node)
    /\ publishers node' = publishers node.
Proof.
  intros Hsub. unfold NewSubscriber. rewrite Hsub.
  eexists _, _. split; [reflexivity|]. simpl.
  split; [done|]. split; [done|]. split; [done|]. split; [done|].
  split; [apply lookup_insert_eq|].
  split; [intros other Hne; by apply lookup_insert_ne|].
  split; [|done].
  rewrite dom_insert_L. apply elem_of_dom_2 in Hsub.
  apply (anti_symm (⊆)); [|apply union_subseteq_r].
  apply union_subseteq. split; [by apply singleton_subseteq_l | done].
Qed.

(** *** NewPublisherWithCallbacks *)

Lemma NewPublisherWithCallbacks_found (node : Node) (topic : string)
    (msgType : MessageType) (cc dc : option Callback) (w : World)
    (pub : Publisher) :
  publishers node !! topic = Some pub ->
  NewPublisherWithCallbacks node topic msgType cc dc w = (Return (node, pub), w).
Proof. intros H. unfold NewPublisherWithCallbacks. by rewrite H. Qed.

Lemma NewPublisherWithCallbacks_missing (node : Node) (topic : string)
    (msgType : MessageType) (cc dc : option Callback) (w : World) :
  publishers node !! topic = None ->
  NewPublisherWithCallbacks node topic msgType cc dc w =
  let name' := resolver_remap (resolver node) topic in
  let reg := registerPublisherCall node topic msgType in
  let w1 := {| calls := calls w ++ [reg]; listeners := listeners w |} in
  match master (calls w) reg, Fatal_exits (logger node) with
  | inl _, true => (Exit, w1)
  | _, _ =>
      let pw := newDefaultPublisher node name' msgType cc dc w1 in
      (Return (set_publishers node (<[name' := pw.1]> (publishers node)), pw.1), pw.2)
  end.
Proof.
  intros H. unfold NewPublisherWithCallbacks. rewrite H.
  unfold callRosAPI, Fatal. fold (registerPublisherCall node topic msgType).
  destruct (master (calls w) (registerPublisherCall node topic msgType));
    [destruct (Fatal_exits (logger node))|]; reflexivity.
Qed.

(** C9, as the code has it.  [NewPublisherWithCallbacks] looks the
    publisher up under the given string and stores it under the
    resolved name.  A publisher stored under the given string is
    returned without a call to the Master, whatever the resolved name
    is.  When none is stored there, the call registers with the Master
    and, unless the registration fails and the logger's [Fatalf] ends
    the process, stores a new publisher under the resolved name, in
    place of the one stored there; then, for a resolved name that
    differs from the given string, still none is stored under the
    given string, so that every further call registers and replaces
    again, and for a resolved name equal to the given string a second
    call returns the stored publisher and makes no call. *)
Theorem NewPublisherWithCallbacks_lookup_key (node : Node) (topic : string)
    (msgType : MessageType) (cc dc : option Callback) (w : World) :
  let name' := resolver_remap (resolver node) topic in
  (forall pub, publishers node !! topic = Some pub ->
     NewPublisherWithCallbacks node topic msgType cc dc w = (Return (node, pub), w))
  /\ (publishers node !! topic = None ->
      exists o w',
        NewPublisherWithCallbacks node topic msgType cc dc w = (o, w')
        /\ calls w' = calls w ++ [registerPublisherCall node topic msgType]
        /\ match master (calls w) (registerPublisherCall node topic msgType),
                 Fatal_exits (logger node) with
           | inl _, true => o = Exit
           | _, _ =>
               exists node' pub,
                 o = Return (node', pub)
                 /\ publishers node' = <[name' := pub]> (publishers node)
                 /\ resolver node' = resolver node
                 /\ pub_topic pub = name' /\ pub_serial pub = listeners w
                 /\ listeners w' = S (listeners w)
                 /\ (name' <> topic -> publishers node' !! topic = None)
                 /\ (name' = topic ->
                     forall msgType' cc' dc',
                       NewPublisherWithCallbacks node' topic msgType' cc' dc' w' =
                       (Return (node', pub), w'))
           end).
Proof.
  intros name'. split; [apply NewPublisherWithCallbacks_found|].
  intros Hnone. rewrite NewPublisherWithCallbacks_missing by done.
  fold name'. cbv zeta.
  destruct (master (calls w) (registerPublisherCall node topic msgType)) as [err|val];
    [destruct (Fatal_exits (logger node))|];
    eexists _, _; (split; [reflexivity|]); (split; [reflexivity|]);
    try reflexivity;
    (eexists _, _; split; [reflexivity|]; simpl;
     repeat (split; [done|]); split;
     [ intros Hne; by rewrite lookup_insert_ne
     | intros Heq msgType' cc' dc'; apply NewPublisherWithCallbacks_found; simpl;
       rewrite <- Heq at 1; apply lookup_insert_eq ]).
Qed.

End Node.

End node_facts.

(** ** Facts about the message context (gengo) *)

Module context_facts.

Import strings gengo strings_facts.

Section Context.
Context `{Par : Parsing} `{Sys : System}.

(** A sequence of two steps that returns a value: both steps did. *)
Lemma bind_returns {A B : Type} (m : M A) (k : A -> M B) (ctx ctx' : MsgContext) (b : B) :
  bind m k ctx = Some (inr b, ctx') ->
  exists a ctx1, m ctx = Some (inr a, ctx1) /\ k a ctx1 = Some (inr b, ctx').
Proof.
  unfold bind. destruct (m ctx) as [[[e|a] ctx1]|]; try discriminate. eauto.
Qed.

Lemma ret_returns {A : Type} (a b : A) (ctx ctx' : MsgContext) :
  ret a ctx = Some (inr b, ctx') -> a = b /\ ctx = ctx'.
Proof. by intros [= -> ->]. Qed.

(** *** More fuel changes no result *)

Lemma bind_extends {A B : Type} (m m' : M A) (k k' : A -> M B)
    (ctx : MsgContext) (r : Fallible B * MsgContext) :
  (forall c x, m c = Some x -> m' c = Some x) ->
  extends k k' ->
  bind m k ctx = Some r -> bind m' k' ctx = Some r.
Proof.
  intros Hm Hk. unfold bind.
  destruct (m ctx) as [[[e|a] ctx1]|] eqn:E; [| |discriminate];
    rewrite (Hm _ _ E); [done|]. apply Hk.
Qed.

Section Extends.
Variables f g : MsgSpec -> M string.
Hypothesis f_g : extends f g.

Lemma ComputeMsgMD5_in_extends : extends (ComputeMsgMD5_in f) (ComputeMsgMD5_in g).
Proof using f_g.
  intros spec ctx r. unfold ComputeMsgMD5_in.
  apply bind_extends; [apply f_g | by intros ? ? ?].
Qed.

Lemma LoadMsgFromString_in_extends (text : string) :
  extends (LoadMsgFromString_in f text) (LoadMsgFromString_in g text).
Proof using f_g.
  intros fullname ctx r. unfold LoadMsgFromString_in.
  destruct (packageResourceName fullname) as [e|[packageName shortName]]; [done|].
  destruct (loadLines _ _ _ _ _ _) as [e|[fields constants]]; [done|].
  apply bind_extends; [apply ComputeMsgMD5_in_extends | by intros ? ? ?].
Qed.

Lemma LoadMsg_in_extends : extends (LoadMsg_in f) (LoadMsg_in g).
Proof using f_g.
  intros fullname ctx r. unfold LoadMsg_in, LoadMsgFromFile_in.
  destruct (msgRegistry ctx !! fullname); [done|].
  destruct (msgPathMap ctx !! fullname) as [path|]; [|done].
  apply bind_extends; [|by intros ? ? ?].
  intros c x. destruct (ReadFile path) as [e|text]; [done|].
  apply LoadMsgFromString_in_extends.
Qed.

Lemma fieldsText_extends (fields : list Field) :
  extends (fieldsText f fields) (fieldsText g fields).
Proof using f_g.
  induction fields as [|fd fields IH]; intros buf ctx r; [done|]. simpl.
  destruct (String.eqb (Field_Package fd) EmptyString); [apply IH|].
  destruct (LoadMsg_in f _ ctx) as [[[e|subspec] ctx1]|] eqn:E; [| |discriminate];
    rewrite (LoadMsg_in_extends _ _ _ E); [done|].
  destruct (ComputeMsgMD5_in f subspec ctx1) as [[[e|submd5] ctx2]|] eqn:E2;
    [| |discriminate]; rewrite (ComputeMsgMD5_in_extends _ _ _ E2); [done|].
  apply IH.
Qed.

End Extends.

Lemma ComputeMD5Text_one_more (fuel : nat) :
  extends (ComputeMD5Text fuel) (ComputeMD5Text (S fuel)).
Proof.
  induction fuel as [|n IH]; intros spec ctx r; [discriminate|].
  cbn [ComputeMD5Text]. by apply fieldsText_extends.
Qed.

(** A result reached with some fuel is the result with any more fuel:
    the fuel only bounds how deep the definitions may include each
    other. *)
Lemma ComputeMD5Text_more_fuel (fuel fuel' : nat) :
  fuel <= fuel' -> extends (ComputeMD5Text fuel) (ComputeMD5Text fuel').
Proof.
  intros Hle. induction Hle as [|fuel' _ IH]; [by intros ? ? ?|].
  intros spec ctx r H. by apply ComputeMD5Text_one_more, IH.
Qed.

Lemma LoadMsgFromString_more_fuel (fuel fuel' : nat) (text : string) :
  fuel <= fuel' ->
  extends (LoadMsgFromString fuel text) (LoadMsgFromString fuel' text).
Proof.
  intros Hle. apply LoadMsgFromString_in_extends. by apply ComputeMD5Text_more_fuel.
Qed.

Lemma LoadActionFromString_more_fuel (fuel fuel' : nat) (text : string) :
  fuel <= fuel' ->
  extends (LoadActionFromString fuel text) (LoadActionFromString fuel' text).
Proof.
  intros Hle fullname ctx r. unfold LoadActionFromString.
  destruct (packageResourceName fullname) as [e|[packageName shortName]]; [done|].
  destruct (Split text "---") as [|goalT [|resultT [|feedbackT [|? ?]]]]; try done.
  pose proof (ComputeMD5Text_more_fuel fuel fuel' Hle) as Hf.
  repeat (apply bind_extends;
          [intros c x; by apply LoadMsgFromString_more_fuel | intros ? ? ?]).
  apply bind_extends; [|by intros ? ? ?].
  intros c x. unfold ComputeActionMD5.
  repeat (apply bind_extends; [by apply Hf | intros ? ? ?]). done.
Qed.

(** A message that loads has the given text and full name, and the MD5
    sum computed from its fields and constants. *)
Lemma LoadMsgFromString_returns (fuel : nat) (text fullname : string)
    (ctx ctx' : MsgContext) (spec : MsgSpec) :
  LoadMsgFromString fuel text fullname ctx = Some (inr spec, ctx') ->
  Text spec = text /\ FullName spec = fullname
  /\ exists packageName shortName fields constants ctx1 md5text,
       packageResourceName fullname = inr (packageName, shortName)
       /\ loadLines fullname packageName 0 (Split text LF) [] [] = inr (fields, constants)
       /\ Fields spec = fields /\ Constants spec = constants
       /\ ComputeMD5Text fuel
            (NewMsgSpec fields constants text fullname packageName shortName) ctx
          = Some (inr md5text, ctx1)
       /\ MD5Sum spec = md5hex md5text
       /\ msgRegistry ctx' = <[fullname := spec]> (msgRegistry ctx1).
Proof.
  unfold LoadMsgFromString, LoadMsgFromString_in.
  destruct (packageResourceName fullname) as [e|[packageName shortName]]; [discriminate|].
  destruct (loadLines _ _ _ _ _ _) as [e|[fields constants]] eqn:Hl; [discriminate|].
  intros H. apply bind_returns in H as (md5sum & ctx1 & Hmd5 & H).
  apply bind_returns in H as ([] & ctx2 & Hreg & H).
  apply ret_returns in H as [<- <-].
  unfold ComputeMsgMD5_in in Hmd5.
  apply bind_returns in Hmd5 as (md5text & ctx3 & Htext & Hmd5).
  apply ret_returns in Hmd5 as [<- <-].
  injection Hreg as <-. simpl.
  split; [done|]. split; [done|].
  by exists packageName, shortName, fields, constants, ctx3, md5text.
Qed.

(** C1.  An action that loads with full name F has the synthesized
    messages FActionGoal, FActionFeedback and FActionResult with exactly
    the texts of the specification (the goal text ends in a newline,
    the other two do not), loaded from those texts in the context that
    the loads before them left; and its MD5 is the hex MD5 digest of the
    MD5 texts of ActionGoal, ActionFeedback and ActionResult, computed
    one after the other, in the context that the six loads left,
    and concatenated in that order.  The context that the load returns
    is the one after the third MD5 text. *)
Theorem LoadActionFromString_synthesized (fuel : nat) (text F : string)
    (ctx ctx' : MsgContext) (spec : ActionSpec) :
  LoadActionFromString fuel text F ctx = Some (inr spec, ctx') ->
  (FullName (ActionGoal spec) = F +:+ "ActionGoal"
   /\ Text (ActionGoal spec) =
      "Header header
actionlib_msgs/GoalID goal_id
" +:+ F +:+ "Goal goal
")
  /\ (FullName (ActionFeedback spec) = F +:+ "ActionFeedback"
      /\ Text (ActionFeedback spec) =
         "Header header
actionlib_msgs/GoalStatus status
" +:+ F +:+ "Feedback feedback")
  /\ (FullName (ActionResult spec) = F +:+ "ActionResult"
      /\ Text (ActionResult spec) =
         "Header header
actionlib_msgs/GoalStatus status
" +:+ F +:+ "Result result")
  /\ (Action_FullName spec = F /\ Action_Text spec = text)
  /\ exists goalT resultT feedbackT c1 c2 c3 c4 c5 c6
            goalText d1 feedbackText d2 resultText,
       Split text "---" = [goalT; resultT; feedbackT]
       /\ LoadMsgFromString fuel goalT (F +:+ "Goal") ctx = Some (inr (Goal spec), c1)
       /\ LoadMsgFromString fuel (Text (ActionGoal spec)) (F +:+ "ActionGoal") c1
          = Some (inr (ActionGoal spec), c2)
       /\ LoadMsgFromString fuel feedbackT (F +:+ "Feedback") c2
          = Some (inr (Feedback spec), c3)
       /\ LoadMsgFromString fuel (Text (ActionFeedback spec)) (F +:+ "ActionFeedback") c3
          = Some (inr (ActionFeedback spec), c4)
       /\ LoadMsgFromString fuel resultT (F +:+ "Result") c4
          = Some (inr (Result spec), c5)
       /\ LoadMsgFromString fuel (Text (ActionResult spec)) (F +:+ "ActionResult") c5
          = Some (inr (ActionResult spec), c6)
       /\ ComputeMD5Text fuel (ActionGoal spec) c6 = Some (inr goalText, d1)
       /\ ComputeMD5Text fuel (ActionFeedback spec) d1 = Some (inr feedbackText, d2)
       /\ ComputeMD5Text fuel (ActionResult spec) d2 = Some (inr resultText, ctx')
       /\ Action_MD5Sum spec = md5hex (goalText +:+ feedbackText +:+ resultText).
Proof.
  unfold LoadActionFromString.
  destruct (packageResourceName F) as [e|[packageName shortName]]; [discriminate|].
  destruct (Split text "---") as [|goalT [|resultT [|feedbackT [|? ?]]]];
    try discriminate.
  intros H.
  apply bind_returns in H as (goalSpec & c1 & Hg0 & H).
  apply bind_returns in H as (actionGoalSpec & c2 & Hag & H).
  apply bind_returns in H as (feedbackSpec & c3 & Hf0 & H).
  apply bind_returns in H as (actionFeedbackSpec & c4 & Haf & H).
  apply bind_returns in H as (resultSpec & c5 & Hr0 & H).
  apply bind_returns in H as (actionResultSpec & c6 & Har & H).
  apply bind_returns in H as (md5sum & c7 & Hmd5 & H).
  apply ret_returns in H as [<- <-].
  pose proof (LoadMsgFromString_returns _ _ _ _ _ _ Hag) as (Hagt & Hagn & _).
  pose proof (LoadMsgFromString_returns _ _ _ _ _ _ Haf) as (Haft & Hafn & _).
  pose proof (LoadMsgFromString_returns _ _ _ _ _ _ Har) as (Hart & Harn & _).
  unfold ComputeActionMD5 in Hmd5. simpl in Hmd5.
  apply bind_returns in Hmd5 as (goalText & d1 & Hg & Hmd5).
  apply bind_returns in Hmd5 as (feedbackText & d2 & Hf & Hmd5).
  apply bind_returns in Hmd5 as (resultText & d3 & Hr & Hmd5).
  apply ret_returns in Hmd5 as [<- <-]. simpl.
  split; [by rewrite Hagn, Hagt|]. split; [by rewrite Hafn, Haft|].
  split; [by rewrite Harn, Hart|]. split; [done|].
  exists goalT, resultT, feedbackT, c1, c2, c3, c4, c5, c6,
    goalText, d1, feedbackText, d2, resultText.
  rewrite Hagt, Haft, Hart. by repeat split.
Qed.

(** *** The MD5 text of a spec with a field that cannot be loaded *)

Lemma LoadMsg_not_found (md5Text : MsgSpec -> M string) (fullname : string)
    (ctx : MsgContext) :
  msgRegistry ctx !! fullname = None ->
  msgPathMap ctx !! fullname = None ->
  LoadMsg_in md5Text fullname ctx =
  Some (inl (errorString ("Message definition of `" +:+ fullname +:+ "` is not found")),
        ctx).
Proof. intros Hr Hp. unfold LoadMsg_in. by rewrite Hr, Hp. Qed.

Lemma fieldsText_not_found (md5Text : MsgSpec -> M string) (pre post : list Field)
    (f : Field) (buf : string) (ctx : MsgContext) :
  Forall (fun g => Field_Package g = EmptyString) pre ->
  Field_Package f <> EmptyString ->
  msgRegistry ctx !! (Field_Package f +:+ "/" +:+ Field_Type f) = None ->
  msgPathMap ctx !! (Field_Package f +:+ "/" +:+ Field_Type f) = None ->
  fieldsText md5Text (pre ++ f :: post) buf ctx = Some (inr EmptyString, ctx).
Proof.
  intros Hpre Hf Hr Hp. revert buf.
  induction Hpre as [|g pre Hg _ IH]; intros buf.
  - simpl. apply String.eqb_neq in Hf. rewrite Hf.
    by rewrite LoadMsg_not_found.
  - simpl. rewrite Hg. simpl. apply IH.
Qed.

(** C2, what the code does.  For a spec with a field of a message type
    that is neither in the registry nor in the path map (the fields
    before it being primitive), [ComputeMD5Text] returns the empty text
    and [ComputeMsgMD5] the digest of the empty text, both with a nil
    error: the not-found error of [LoadMsg] does not reach the
    caller. *)
Theorem ComputeMD5Text_not_found_is_dropped (fuel : nat) (spec : MsgSpec)
    (pre post : list Field) (f : Field) (ctx : MsgContext) :
  Fields spec = pre ++ f :: post ->
  Forall (fun g => Field_Package g = EmptyString) pre ->
  Field_Package f <> EmptyString ->
  msgRegistry ctx !! (Field_Package f +:+ "/" +:+ Field_Type f) = None ->
  msgPathMap ctx !! (Field_Package f +:+ "/" +:+ Field_Type f) = None ->
  LoadMsg (S fuel) (Field_Package f +:+ "/" +:+ Field_Type f) ctx =
    Some (inl (errorString ("Message definition of `"
                            +:+ (Field_Package f +:+ "/" +:+ Field_Type f)
                            +:+ "` is not found")), ctx)
  /\ ComputeMD5Text (S fuel) spec ctx = Some (inr EmptyString, ctx)
  /\ ComputeMsgMD5 (S fuel) spec ctx = Some (inr (md5hex EmptyString), ctx).
Proof.
  intros Hfields Hpre Hf Hr Hp.
  assert (Ht : ComputeMD5Text (S fuel) spec ctx = Some (inr EmptyString, ctx)).
  { simpl. rewrite Hfields. by apply fieldsText_not_found. }
  split; [by apply LoadMsg_not_found|]. split; [done|].
  unfold ComputeMsgMD5, ComputeMsgMD5_in, bind. by rewrite Ht.
Qed.

(** *** Sections of services and actions *)

(** C3, as the code has it.  A text loads as a service only when
    cutting it at every occurrence of the three bytes [---], wherever
    they stand, gives exactly two parts, and as an action only when
    that gives exactly three; with any other number of parts, and a
    full name that is accepted, the load fails with the plain error
    "Syntax error: missing '---'" and leaves the context as it is.  A
    text with [---] anywhere in it, also inside a line, has two parts
    at least. *)
Theorem sections_are_cut_at_dashes (fuel : nat) (text fullname : string)
    (ctx : MsgContext) :
  (forall spec ctx', LoadSrvFromString fuel text fullname ctx = Some (inr spec, ctx') ->
     length (Split text "---") = 2)
  /\ (forall spec ctx', LoadActionFromString fuel text fullname ctx = Some (inr spec, ctx') ->
        length (Split text "---") = 3)
  /\ (forall names, packageResourceName fullname = inr names ->
        (length (Split text "---") <> 2 ->
         LoadSrvFromString fuel text fullname ctx =
         Some (inl (errorString "Syntax error: missing '---'"), ctx))
        /\ (length (Split text "---") <> 3 ->
            LoadActionFromString fuel text fullname ctx =
            Some (inl (errorString "Syntax error: missing '---'"), ctx)))
  /\ (forall a b, text = a +:+ "---" +:+ b -> 2 <= length (Split text "---")).
Proof.
  unfold LoadSrvFromString, LoadActionFromString.
  split; [|split; [|split]].
  - intros spec ctx'.
    destruct (packageResourceName fullname) as [e|[packageName shortName]]; [discriminate|].
    by destruct (Split text "---") as [|? [|? [|? ?]]].
  - intros spec ctx'.
    destruct (packageResourceName fullname) as [e|[packageName shortName]]; [discriminate|].
    by destruct (Split text "---") as [|? [|? [|? [|? ?]]]].
  - intros [packageName shortName] ->. split; intros Hn.
    + by destruct (Split text "---") as [|? [|? [|? ?]]].
    + by destruct (Split text "---") as [|? [|? [|? [|? ?]]]].
  - intros a b ->. by apply Split_occurrence.
Qed.

(** *** Blank lines and comment lines *)

Section Comments.
(** The comment rule of the specification, which [stripComment] is to
    follow. *)
Hypothesis stripComment_blank :
  forall line, blankOrComment line = true -> stripComment line = EmptyString.

Lemma loadLines_contentLines (fullname packageName : string) (lines : list string) :
  forall (n m : nat) (fields : list Field) (constants : list Constant),
    loaded (loadLines fullname packageName n lines fields constants) =
    loaded (loadLines fullname packageName m
              (filter (fun line => blankOrComment line = false) lines) fields constants).
Proof using stripComment_blank.
  induction lines as [|line lines IH]; intros n m fields constants; [done|].
  rewrite filter_cons. destruct (blankOrComment line) eqn:Hb.
  - rewrite decide_False by done. simpl.
    rewrite (stripComment_blank line Hb). simpl. apply IH.
  - rewrite decide_True by done. simpl.
    destruct (String.length (stripComment line) =? 0)%nat; [apply IH|].
    destruct (Contains (stripComment line) ConstChar).
    + destruct (loadConstantLine line); [done|apply IH].
    + destruct (loadFieldLine line packageName); [done|apply IH].
Qed.

(** C4.  Two message texts that differ only in blank lines and in
    lines that are comments as a whole (the lines that are neither are
    the same, in the same order) load alike: when one loads, the other
    loads too, with the same fields, the same constants and the same
    MD5 sum. *)
Theorem MD5_ignores_blank_and_comment_lines (fuel : nat) (text1 text2 fullname : string)
    (ctx ctx1 : MsgContext) (spec1 : MsgSpec) :
  contentLines text1 = contentLines text2 ->
  LoadMsgFromString fuel text1 fullname ctx = Some (inr spec1, ctx1) ->
  exists spec2 ctx2,
    LoadMsgFromString fuel text2 fullname ctx = Some (inr spec2, ctx2)
    /\ MD5Sum spec2 = MD5Sum spec1
    /\ Fields spec2 = Fields spec1 /\ Constants spec2 = Constants spec1.
Proof using stripComment_blank.
  intros Hlines H1.
  apply LoadMsgFromString_returns in H1
    as (_ & _ & pkg & short & fields & constants & c1 & md5text
        & Hname & Hload & Hf & Hc & Htext & Hmd5 & _).
  assert (Hload2 : loadLines fullname pkg 0 (Split text2 LF) [] [] = inr (fields, constants)).
  { pose proof (loadLines_contentLines fullname pkg (Split text1 LF) 0 0 [] []) as E1.
    pose proof (loadLines_contentLines fullname pkg (Split text2 LF) 0 0 [] []) as E2.
    unfold contentLines in Hlines. rewrite <- Hlines, <- E1, Hload in E2.
    destruct (loadLines fullname pkg 0 (Split text2 LF) [] []) as [e|[fs cs]];
      [discriminate|]. by injection E2 as -> ->. }
  assert (Htext2 :
    ComputeMD5Text fuel (NewMsgSpec fields constants text2 fullname pkg short) ctx
    = Some (inr md5text, c1)).
  { rewrite <- Htext. by destruct fuel. }
  unfold LoadMsgFromString, LoadMsgFromString_in, ComputeMsgMD5_in, bind.
  rewrite Hname, Hload2, Htext2.
  eexists _, _. split; [reflexivity|]. simpl. by rewrite Hmd5, Hf, Hc.
Qed.

End Comments.

End Context.

End context_facts.

(** ** The helpers written out from the specification follow its
       comment rule *)

Module helpers_facts.

Import strings gengo helpers strings_facts.

Lemma length_zero (s : string) : (String.length s =? 0)%nat = true -> s = EmptyString.
Proof. by destruct s. Qed.

(** The first component of a split is what stands before the first
    separator. *)
Lemma Split_head (line : string) :
  hd EmptyString (Split line "#") = beforeComment line.
Proof.
  unfold Split, beforeComment. destruct line as [|c line]; [reflexivity|].
  cbn [String.length genSplit]. by destruct (Cut "#" (String c line)) as [[? ?]|].
Qed.

Lemma stripComment_blankOrComment (line : string) :
  blankOrComment line = true -> gengo.stripComment (Parsing := parsing) line = EmptyString.
Proof.
  unfold blankOrComment. cbn [gengo.stripComment parsing]. unfold stripComment.
  rewrite Split_head. apply length_zero.
Qed.

End helpers_facts.

(** ** The theorems at concrete inputs *)

Module examples.

Import strings ros gengo helpers strings_facts node_facts context_facts helpers_facts.

#[local] Existing Instance exampleEnvironment.

(** The case that the computation rules out. *)
Ltac ruled_out := try (intros F; exact (False_ind _ F)).

(** Membership in a list that is written out. *)
Ltac elem_of_list :=
  repeat first [apply list_elem_of_here | apply list_elem_of_further].

(** *** Argument parsing *)

Lemma processArguments_two_components_witness :
  rest (processArguments ["__name:=n2"; "_rate:=10"; "a:=b:=c"; "topic:=/t"; "extra"])
  = ["a:=b:=c"; "extra"]
  /\ "a:=b:=c" ∈ rest (processArguments
                        ["__name:=n2"; "_rate:=10"; "a:=b:=c"; "topic:=/t"; "extra"])
  /\ "extra" ∈ rest (processArguments
                      ["__name:=n2"; "_rate:=10"; "a:=b:=c"; "topic:=/t"; "extra"]).
Proof.
  destruct (processArguments_two_components
              ["__name:=n2"; "_rate:=10"; "a:=b:=c"; "topic:=/t"; "extra"])
    as (Hrest & _ & _ & _ & Hin).
  split; [rewrite Hrest; vm_compute; reflexivity|]. split.
  - apply Hin; [elem_of_list|].
    left. exists "a", "b", "c". reflexivity.
  - apply Hin; [elem_of_list|].
    right. apply Cut_None. reflexivity.
Defined.

(** *** Node construction *)

(** C5, the sentence of the specification fails: with [__ns:=x] the
    namespace is [x], which is not [/], and the qualified name is
    [xtalker], without the separator. *)
Lemma qualifiedName_one_byte_namespace :
  match newDefaultNode "talker" ["__ns:=x"] world0 with
  | (Return (inr node), _) =>
      namespace node = "x" /\ name node = "talker"
      /\ qualifiedName node = "xtalker"
      /\ String.eqb (qualifiedName node) (namespace node +:+ "/" +:+ name node) = false
  | _ => False
  end.
Proof. vm_compute. done. Qed.

Lemma qualifiedName_by_namespace_length_witness :
  match newDefaultNode "talker" ["__ns:=/wg"] world0 with
  | (Return (inr node), _) => qualifiedName node = namespace node +:+ "/" +:+ name node
  | _ => False
  end.
Proof.
  assert (F : match newDefaultNode "talker" ["__ns:=/wg"] world0 with
              | (Return (inr node), _) => String.length (namespace node) = 3
              | _ => False
              end) by (vm_compute; done).
  revert F.
  destruct (newDefaultNode "talker" ["__ns:=/wg"] world0) as [[[e|node]| |] w'] eqn:E; ruled_out.
  intros Hlen.
  apply (qualifiedName_by_namespace_length "talker" ["__ns:=/wg"] world0 w' node E).
  rewrite Hlen. lia.
Defined.

(** C6, the sentence of the specification fails: for [_rate:=10] the
    only call to the Master is [setParam("/talker", "rate", "10")];
    the parameter name is [rate], not [~rate]. *)
Lemma private_parameter_without_tilde :
  match newDefaultNode "talker" ["_rate:=10"] world0 with
  | (Return (inr node), w') =>
      calls w' =
      [{| call_uri := "http://localhost:11311"; call_method := "setParam";
          call_args := [Str "/talker"; Str "rate"; Str "10"] |}]
  | _ => False
  end.
Proof. vm_compute. done. Qed.

Lemma private_parameter_pushed_as_key_witness :
  match newDefaultNode "talker" ["_rate:=5"; "_rate:=10"; "extra"] world0 with
  | (Return (inr node), w') =>
      {| call_uri := masterURI node; call_method := "setParam";
         call_args := [Str (qualifiedName node); Str "rate"; Str "10"] |} ∈ calls w'
  | _ => False
  end.
Proof.
  assert (F : match newDefaultNode "talker" ["_rate:=5"; "_rate:=10"; "extra"] world0 with
              | (Return (inr node), _) => True
              | _ => False
              end) by (vm_compute; done).
  revert F.
  destruct (newDefaultNode "talker" ["_rate:=5"; "_rate:=10"; "extra"] world0)
    as [[[e|node]| |] w'] eqn:E; ruled_out.
  intros _.
  apply (private_parameter_pushed_as_key "talker" ["_rate:=5"] ["extra"]
           "_rate:=10" "rate" "10" world0 w' node E).
  - reflexivity.
  - reflexivity.
  - intros arg' v Hin. apply list_elem_of_singleton in Hin as ->.
    vm_compute. discriminate.
Defined.

(** *** requestTopic, NewSubscriber, NewPublisherWithCallbacks *)

(** C7, the sentence of the specification fails: on a topic with a
    publisher, a call whose offers are not all arrays beginning with a
    name gives no response at all.  The offers [5], [[]] and
    ["UDPROS", ["TCPROS"]], in which a protocol named TCPROS is offered
    after the string, make the unchecked type assertions panic. *)
Lemma requestTopic_malformed_offer_panics :
  match newDefaultNode "talker" [] world0 with
  | (Return (inr node), w) =>
      match NewPublisherWithCallbacks node "/chatter" "std_msgs/String" None None w with
      | (Return (node1, pub), _) =>
          publishers node1 !! "/chatter" = Some pub
          /\ requestTopic node1 "/listener" "/chatter" [Int 5] = Panic
          /\ requestTopic node1 "/listener" "/chatter" [Array []] = Panic
          /\ requestTopic node1 "/listener" "/chatter"
               [Str "UDPROS"; Array [Str "TCPROS"]] = Panic
      | _ => False
      end
  | _ => False
  end.
Proof. vm_compute. done. Qed.

Lemma requestTopic_contract_witness :
  match newDefaultNode "talker" [] world0 with
  | (Return (inr node), w) =>
      match NewPublisherWithCallbacks node "/chatter" "std_msgs/String" None None w with
      | (Return (node1, pub), _) =>
          requestTopic node1 "/listener" "/chatter"
            [Array [Str "UDPROS"; Int 1500]; Array [Str "TCPROS"];
             Array [Str "TCPROS"; Int 1]]
          = Return (inr (Array [Int 1; Str "Success";
                                Array [Str "TCPROS"; Str "localhost"; Int 4001]]))
          /\ requestTopic node1 "/listener" "/chatter" [Array [Str "UDPROS"; Int 1500]]
             = Return (inr (Array [Int 1; Str "Success"; Array []]))
          /\ requestTopic node1 "/listener" "/rosout" [Array [Str "TCPROS"]]
             = Return (inr (Array [Int 0; Str "No such topic"; Int 0]))
      | _ => False
      end
  | _ => False
  end.
Proof.
  assert (F :
    match newDefaultNode "talker" [] world0 with
    | (Return (inr node), w) =>
        match NewPublisherWithCallbacks node "/chatter" "std_msgs/String" None None w with
        | (Return (node1, pub), _) =>
            publishers node1 !! "/chatter" = Some pub
            /\ publishers node1 !! "/rosout" = None
            /\ hostAndPort pub = ("localhost", "4001")
        | _ => False
        end
    | _ => False
    end) by (vm_compute; done).
  revert F.
  destruct (newDefaultNode "talker" [] world0) as [[[e|node]| |] w]; ruled_out.
  destruct (NewPublisherWithCallbacks node "/chatter" "std_msgs/String" None None w)
    as [[[node1 pub]| |] w1]; ruled_out.
  intros (Hpub & Hnone & Hhp).
  assert (Hudp : otherProtocol (Array [Str "UDPROS"; Int 1500])).
  { exists "UDPROS", [Int 1500]. by split. }
  split; [|split].
  - destruct (requestTopic_contract node1 "/listener" "/chatter"
                [Array [Str "UDPROS"; Int 1500]; Array [Str "TCPROS"];
                 Array [Str "TCPROS"; Int 1]]) as [_ H].
    destruct (H pub Hpub) as [H1 _].
    rewrite (H1 [Array [Str "UDPROS"; Int 1500]] [] [Array [Str "TCPROS"; Int 1]] 4001%Z);
      [by rewrite Hhp | reflexivity | by constructor | by rewrite Hhp].
  - destruct (requestTopic_contract node1 "/listener" "/chatter"
                [Array [Str "UDPROS"; Int 1500]]) as [_ H].
    destruct (H pub Hpub) as (_ & H2 & _). apply H2. by constructor.
  - destruct (requestTopic_contract node1 "/listener" "/rosout" [Array [Str "TCPROS"]])
      as [H _]. by apply H.
Defined.

Lemma NewSubscriber_existing_topic_witness :
  match newDefaultNode "listener" ["chatter:=/t"] world0 with
  | (Return (inr node), w) =>
      match NewSubscriber node "chatter" "std_msgs/String" 1 w with
      | (Return (node1, sub1), w1) =>
          exists node2 sub2,
            NewSubscriber node1 "/t" "std_msgs/String" 2 w1 = (Return (node2, sub2), w1)
            /\ callbacks sub2 = callbacks sub1 ++ [2]
            /\ dom (subscribers node2) = dom (subscribers node1)
      | _ => False
      end
  | _ => False
  end.
Proof.
  assert (F :
    match newDefaultNode "listener" ["chatter:=/t"] world0 with
    | (Return (inr node), w) =>
        match NewSubscriber node "chatter" "std_msgs/String" 1 w with
        | (Return (node1, sub1), w1) =>
            subscribers node1 !! resolver_remap (resolver node1) "/t" = Some sub1
        | _ => False
        end
    | _ => False
    end) by (vm_compute; done).
  revert F.
  destruct (newDefaultNode "listener" ["chatter:=/t"] world0) as [[[e|node]| |] w]; ruled_out.
  destruct (NewSubscriber node "chatter" "std_msgs/String" 1 w)
    as [[[node1 sub1]| |] w1]; ruled_out.
  intros Hsub.
  destruct (NewSubscriber_existing_topic node1 "/t" "std_msgs/String" 2 w1 sub1 Hsub)
    as (node2 & sub2 & Hcall & Hcb & _ & _ & _ & _ & _ & Hdom & _).
  by exists node2, sub2.
Defined.

(** C9, the sentence fails for a given string under which the
    publisher of another topic is stored.  With [/baz:=/foo] and
    [/foo:=/bar] the publisher of [/baz] is stored under [/foo]; the
    call for [/foo], whose resolved name [/bar] differs from it, finds
    that publisher, makes no call to the Master (the world stays as it
    is) and stores nothing. *)
Lemma NewPublisherWithCallbacks_finds_other_topic :
  match newDefaultNode "talker" ["/baz:=/foo"; "/foo:=/bar"] world0 with
  | (Return (inr node), w) =>
      match NewPublisherWithCallbacks node "/baz" "std_msgs/String" None None w with
      | (Return (node1, pub1), w1) =>
          resolver_remap (resolver node1) "/foo" = "/bar"
          /\ pub_topic pub1 = "/foo"
          /\ match NewPublisherWithCallbacks node1 "/foo" "std_msgs/String" None None w1 with
             | (Return (node2, pub2), w2) =>
                 pub2 = pub1 /\ w2 = w1
                 /\ publishers node2 !! "/bar" = None
                 /\ publishers node2 !! "/foo" = Some pub1
             | _ => False
             end
      | _ => False
      end
  | _ => False
  end.
Proof. vm_compute. done. Qed.

Lemma NewPublisherWithCallbacks_lookup_key_witness :
  match newDefaultNode "talker" ["chatter:=/t"] world0 with
  | (Return (inr node), w) =>
      (exists node1 pub1 w1 node2 pub2 w2,
         NewPublisherWithCallbacks node "chatter" "std_msgs/String" None None w
         = (Return (node1, pub1), w1)
         /\ calls w1 = calls w ++ [registerPublisherCall node "chatter" "std_msgs/String"]
         /\ publishers node1 !! "/t" = Some pub1
         /\ NewPublisherWithCallbacks node1 "chatter" "std_msgs/String" None None w1
            = (Return (node2, pub2), w2)
         /\ calls w2 = calls w1 ++ [registerPublisherCall node1 "chatter" "std_msgs/String"]
         /\ publishers node2 !! "/t" = Some pub2
         /\ pub_serial pub2 = S (pub_serial pub1))
      /\ (exists node3 pub3 w3,
            NewPublisherWithCallbacks node "/t" "std_msgs/String" None None w
            = (Return (node3, pub3), w3)
            /\ NewPublisherWithCallbacks node3 "/t" "std_msgs/String" None None w3
               = (Return (node3, pub3), w3))
  | _ => False
  end.
Proof.
  assert (F :
    match newDefaultNode "talker" ["chatter:=/t"] world0 with
    | (Return (inr node), w) =>
        publishers node !! "chatter" = None /\ publishers node !! "/t" = None
        /\ resolver_remap (resolver node) "chatter" = "/t"
        /\ resolver_remap (resolver node) "/t" = "/t"
    | _ => False
    end) by (vm_compute; done).
  revert F.
  destruct (newDefaultNode "talker" ["chatter:=/t"] world0) as [[[e|node]| |] w];
    ruled_out.
  intros (Hnone & Hnone' & Hremap & Hremap').
  assert (Hne : "/t" <> "chatter") by discriminate.
  split.
  - destruct (NewPublisherWithCallbacks_lookup_key node "chatter" "std_msgs/String"
                None None w) as [_ H].
    destruct (H Hnone) as (o & w1 & Hcall & Hcalls & Hreturn). clear H.
    assert (Hok : master (calls w) (registerPublisherCall node "chatter" "std_msgs/String")
                  = inr (Int 0)) by reflexivity.
    rewrite Hok, Hremap in Hreturn.
    destruct Hreturn as (node1 & pub1 & -> & Hpubs & Hres & _ & Hser & Hl & Hmiss & _).
    destruct (NewPublisherWithCallbacks_lookup_key node1 "chatter" "std_msgs/String"
                None None w1) as [_ H].
    destruct (H (Hmiss Hne)) as (o & w2 & Hcall2 & Hcalls2 & Hreturn2). clear H.
    assert (Hok2 : master (calls w1) (registerPublisherCall node1 "chatter" "std_msgs/String")
                   = inr (Int 0)) by reflexivity.
    rewrite Hok2, Hres, Hremap in Hreturn2.
    destruct Hreturn2 as (node2 & pub2 & -> & Hpubs2 & _ & _ & Hser2 & _).
    exists node1, pub1, w1, node2, pub2, w2.
    split; [exact Hcall|]. split; [exact Hcalls|].
    split; [rewrite Hpubs; apply lookup_insert_eq|]. split; [exact Hcall2|].
    split; [exact Hcalls2|]. split; [rewrite Hpubs2; apply lookup_insert_eq|].
    by rewrite Hser2, Hser, Hl.
  - destruct (NewPublisherWithCallbacks_lookup_key node "/t" "std_msgs/String"
                None None w) as [_ H].
    destruct (H Hnone') as (o & w3 & Hcall & _ & Hreturn). clear H.
    assert (Hok : master (calls w) (registerPublisherCall node "/t" "std_msgs/String")
                  = inr (Int 0)) by reflexivity.
    rewrite Hok, Hremap' in Hreturn.
    destruct Hreturn as (node3 & pub3 & -> & _ & _ & _ & _ & _ & _ & Hsecond).
    exists node3, pub3, w3. split; [exact Hcall|]. by apply Hsecond.
Defined.

(** *** The message context *)

Lemma LoadActionFromString_synthesized_witness :
  match LoadActionFromString (Sys := system actionFiles) 3 Fibonacci_action
          "actionlib_tutorials/Fibonacci" actionContext with
  | Some (inr spec, ctx') =>
      Text (ActionGoal spec) =
      "Header header
actionlib_msgs/GoalID goal_id
actionlib_tutorials/FibonacciGoal goal
"
      /\ MD5Sum (ActionGoal spec) = "006871c7fa1d0e3d5fe2226bf17b2a94"
      /\ MD5Sum (ActionFeedback spec) = "73b8497a9f629a31c0020900e4148f07"
      /\ MD5Sum (ActionResult spec) = "bee73a9fe29ae25e966e105f5553dd03"
      /\ Action_MD5Sum spec = "00a5fc530b1d04d07f7b99ac88531c80"
      /\ size (msgRegistry ctx') = 9
      /\ exists c5 c6 goalText d1 feedbackText d2 resultText,
           LoadMsgFromString (Sys := system actionFiles) 3 (Text (ActionResult spec))
             "actionlib_tutorials/FibonacciActionResult" c5
           = Some (inr (ActionResult spec), c6)
           /\ ComputeMD5Text (Sys := system actionFiles) 3 (ActionGoal spec) c6
              = Some (inr goalText, d1)
           /\ ComputeMD5Text (Sys := system actionFiles) 3 (ActionFeedback spec) d1
              = Some (inr feedbackText, d2)
           /\ ComputeMD5Text (Sys := system actionFiles) 3 (ActionResult spec) d2
              = Some (inr resultText, ctx')
           /\ Action_MD5Sum spec = md5.hexsum (goalText +:+ feedbackText +:+ resultText)
  | _ => False
  end.
Proof.
  assert (F :
    match LoadActionFromString (Sys := system actionFiles) 3 Fibonacci_action
            "actionlib_tutorials/Fibonacci" actionContext with
    | Some (inr spec, ctx') =>
        MD5Sum (ActionGoal spec) = "006871c7fa1d0e3d5fe2226bf17b2a94"
        /\ MD5Sum (ActionFeedback spec) = "73b8497a9f629a31c0020900e4148f07"
        /\ MD5Sum (ActionResult spec) = "bee73a9fe29ae25e966e105f5553dd03"
        /\ Action_MD5Sum spec = "00a5fc530b1d04d07f7b99ac88531c80"
        /\ size (msgRegistry ctx') = 9
    | _ => False
    end) by (vm_compute; done).
  revert F.
  destruct (LoadActionFromString (Sys := system actionFiles) 3 Fibonacci_action
              "actionlib_tutorials/Fibonacci" actionContext)
    as [[[e|spec] ctx']|] eqn:E; ruled_out.
  intros (Hg & Hf & Hr & Hsum & Hsize).
  destruct (LoadActionFromString_synthesized (Sys := system actionFiles) 3
              Fibonacci_action "actionlib_tutorials/Fibonacci" actionContext ctx' spec E)
    as ((_ & Htext) & _ & _ & _
        & goalT & resultT & feedbackT & c1 & c2 & c3 & c4 & c5 & c6
        & goalText & d1 & feedbackText & d2 & resultText
        & _ & _ & _ & _ & _ & _ & Hload & Hgt & Hft & Hrt & Hmd5).
  split; [exact Htext|]. split; [exact Hg|]. split; [exact Hf|]. split; [exact Hr|].
  split; [exact Hsum|]. split; [exact Hsize|].
  exists c5, c6, goalText, d1, feedbackText, d2, resultText.
  exact (conj Hload (conj Hgt (conj Hft (conj Hrt Hmd5)))).
Defined.

(** The field [foo/Bar x] of a message type that nobody knows. *)
Lemma ComputeMD5Text_not_found_is_dropped_witness :
  let f := {| Field_Package := "foo"; Field_Type := "Bar"; Field_Name := "x";
              Field_Array := scalar |} in
  let spec := NewMsgSpec [f] [] "foo/Bar x" "pkg/M" "pkg" "M" in
  LoadMsg (Sys := system ∅) 1 "foo/Bar" emptyContext
  = Some (inl (errorString "Message definition of `foo/Bar` is not found"), emptyContext)
  /\ ComputeMD5Text (Sys := system ∅) 1 spec emptyContext
     = Some (inr EmptyString, emptyContext)
  /\ ComputeMsgMD5 (Sys := system ∅) 1 spec emptyContext
     = Some (inr "d41d8cd98f00b204e9800998ecf8427e", emptyContext).
Proof.
  intros f spec.
  apply (ComputeMD5Text_not_found_is_dropped (Sys := system ∅) 0 spec [] [] f emptyContext).
  - reflexivity.
  - constructor.
  - discriminate.
  - reflexivity.
  - reflexivity.
Defined.

(** The same through the loader: the text [foo/Bar x] loads, and the
    message gets the MD5 sum of a message without any field. *)
Lemma LoadMsgFromString_unknown_type_loads :
  match LoadMsgFromString (Sys := system ∅) 1 "foo/Bar x" "pkg/M" emptyContext,
        LoadMsgFromString (Sys := system ∅) 1 EmptyString "pkg/Empty" emptyContext with
  | Some (inr spec, _), Some (inr empty, _) =>
      Fields spec =
      [{| Field_Package := "foo"; Field_Type := "Bar"; Field_Name := "x";
          Field_Array := scalar |}]
      /\ Fields empty = []
      /\ MD5Sum spec = "d41d8cd98f00b204e9800998ecf8427e"
      /\ MD5Sum empty = "d41d8cd98f00b204e9800998ecf8427e"
  | _, _ => False
  end.
Proof. vm_compute. done. Qed.

(** C3, the sentence of the specification fails.  The text
    [int32 a #---] / [int32 b] has two lines, and neither is a line of
    only [---]; it loads as a service, the request being what stands
    before the dashes inside the comment.  In the same way a comment
    line with six dashes loads as an action. *)
Lemma dashes_inside_a_line_separate :
  Split "int32 a #---
int32 b" LF = ["int32 a #---"; "int32 b"]
  /\ match LoadSrvFromString (Sys := system ∅) 1 "int32 a #---
int32 b" "pkg/Srv" emptyContext with
     | Some (inr spec, _) =>
         Text (Request spec) = "int32 a #"
         /\ map Field_Name (Fields (Request spec)) = ["a"]
         /\ map Field_Name (Fields (Response spec)) = ["b"]
     | _ => False
     end
  /\ Split "#------" LF = ["#------"]
  /\ match LoadActionFromString (Sys := system ∅) 1 "#------" "pkg/Act" emptyContext with
     | Some (inr spec, _) => Text (Goal spec) = "#"
     | _ => False
     end.
Proof. vm_compute. done. Qed.

Lemma sections_are_cut_at_dashes_witness :
  length (Split "int32 a #---
int32 b" "---") = 2
  /\ LoadActionFromString (Sys := system ∅) 1 "int32 a #---
int32 b" "pkg/Srv" emptyContext
     = Some (inl (errorString "Syntax error: missing '---'"), emptyContext).
Proof.
  destruct (sections_are_cut_at_dashes (Sys := system ∅) 1 "int32 a #---
int32 b" "pkg/Srv" emptyContext) as (Hsrv & _ & Herr & _).
  assert (F : match LoadSrvFromString (Sys := system ∅) 1 "int32 a #---
int32 b" "pkg/Srv" emptyContext with
              | Some (inr _, _) => True
              | _ => False
              end) by (vm_compute; done).
  revert F Hsrv.
  destruct (LoadSrvFromString (Sys := system ∅) 1 "int32 a #---
int32 b" "pkg/Srv" emptyContext) as [[[e|spec] ctx']|]; ruled_out.
  intros _ Hsrv. pose proof (Hsrv spec ctx' eq_refl) as Hlen.
  split; [exact Hlen|].
  destruct (Herr ("pkg", "Srv") eq_refl) as [_ Hact]. apply Hact.
  rewrite Hlen. discriminate.
Defined.

Lemma MD5_ignores_blank_and_comment_lines_witness :
  match LoadMsgFromString (Sys := system ∅) 1 "string data" "std_msgs/String"
          emptyContext with
  | Some (inr spec1, _) =>
      exists spec2 ctx2,
        LoadMsgFromString (Sys := system ∅) 1 "# a comment, then a blank line

string data
  	 # white space before the comment
" "std_msgs/String" emptyContext = Some (inr spec2, ctx2)
        /\ MD5Sum spec2 = MD5Sum spec1
        /\ Fields spec2 = Fields spec1 /\ Constants spec2 = Constants spec1
  | _ => False
  end.
Proof.
  assert (F : match LoadMsgFromString (Sys := system ∅) 1 "string data" "std_msgs/String"
                      emptyContext with
              | Some (inr _, _) => True
              | _ => False
              end) by (vm_compute; done).
  revert F.
  destruct (LoadMsgFromString (Sys := system ∅) 1 "string data" "std_msgs/String"
              emptyContext) as [[[e|spec1] ctx1]|] eqn:E; ruled_out.
  intros _.
  apply (MD5_ignores_blank_and_comment_lines (Sys := system ∅)
           stripComment_blankOrComment 1 "string data" _ "std_msgs/String"
           emptyContext ctx1 spec1); [|exact E].
  vm_compute. reflexivity.
Defined.

(** The two digests that the specification quotes: [std_msgs/String]
    and [std_msgs/Header]. *)
Lemma std_msgs_digests :
  match LoadMsgFromString (Sys := system ∅) 1 "string data" "std_msgs/String" emptyContext,
        LoadMsgFromString (Sys := system ∅) 1 Header_msg "std_msgs/Header" emptyContext with
  | Some (inr str, _), Some (inr header, _) =>
      MD5Sum str = "992ce8a1687cec8c8bd883ec73ca41d1"
      /\ MD5Sum header = "2176decaecbce78abc3b96ef049fabed"
  | _, _ => False
  end.
Proof. vm_compute. done. Qed.

End examples.

(** ** More about the node *)

Module node_extra.

Import strings ros strings_facts node_facts.

(** *** Argument parsing of a list in two parts *)

Lemma processArgument_over (acc : Arguments) (arg : string) :
  let one := processArgument (processArguments []) arg in
  mapping (processArgument acc arg) = mapping one ∪ mapping acc
  /\ params (processArgument acc arg) = params one ∪ params acc
  /\ specials (processArgument acc arg) = specials one ∪ specials acc
  /\ rest (processArgument acc arg) = rest acc ++ rest one.
Proof.
  unfold processArgument, processArguments. simpl.
  destruct (Split arg remap) as [|key [|value [|? ?]]]; simpl;
    try (by rewrite !(left_id_L ∅ (∪))).
  destruct (HasPrefix key "__"); [|destruct (HasPrefix key "_")]; simpl;
    rewrite ?insert_empty, ?(left_id_L ∅ (∪)), ?app_nil_r;
    by rewrite <- ?insert_union_singleton_l.
Qed.

Lemma fold_over (args : list string) (acc : Arguments) :
  let all := processArguments args in
  let r := fold_left processArgument args acc in
  mapping r = mapping all ∪ mapping acc
  /\ params r = params all ∪ params acc
  /\ specials r = specials all ∪ specials acc
  /\ rest r = rest acc ++ rest all.
Proof.
  revert acc. unfold processArguments.
  induction args as [|arg args IH]; intros acc; simpl.
  - by rewrite !(left_id_L ∅ (∪)), app_nil_r.
  - destruct (IH (processArgument acc arg)) as (Hm & Hp & Hs & Hr).
    destruct (IH (processArgument
                    {| mapping := ∅; params := ∅; specials := ∅; rest := [] |} arg))
      as (Hm0 & Hp0 & Hs0 & Hr0).
    destruct (processArgument_over acc arg) as (Im & Ip & Is & Ir).
    unfold processArguments in *. simpl in *.
    rewrite Hm, Hp, Hs, Hr, Hm0, Hp0, Hs0, Hr0, Im, Ip, Is, Ir.
    by rewrite !(assoc_L (∪)), !app_assoc.
Qed.

(** X1.  Parsing a list of arguments in two parts gives the same as
    parsing it at once: the non-ROS arguments of the parts follow each
    other, and in each of the three maps an entry of the second part
    takes the place of an entry of the first with the same key. *)
Theorem processArguments_app (first second : list string) :
  let r := processArguments (first ++ second) in
  rest r = rest (processArguments first) ++ rest (processArguments second)
  /\ mapping r = mapping (processArguments second) ∪ mapping (processArguments first)
  /\ params r = params (processArguments second) ∪ params (processArguments first)
  /\ specials r = specials (processArguments second) ∪ specials (processArguments first).
Proof.
  intros r. subst r.
  change (processArguments (first ++ second))
    with (fold_left processArgument (first ++ second) (processArguments [])).
  rewrite fold_left_app.
  change (fold_left processArgument first (processArguments []))
    with (processArguments first).
  by destruct (fold_over second (processArguments first)) as (Hm & Hp & Hs & Hr).
Qed.

Section Node.
Context {MessageType Callback nameResolver : Type}.
Context `{Env : Environment} {Pkg : Package MessageType Callback nameResolver}.

#[local] Abbreviation Node := (defaultNode MessageType Callback nameResolver).
#[local] Abbreviation Publisher := (defaultPublisher MessageType Callback).
#[local] Abbreviation Subscriber := (defaultSubscriber MessageType Callback).

(** *** What a node construction does to the world *)

Lemma setParams_effects (uri q : string) (kvs : list (string * string))
    (w w' : World) (r : option error) :
  setParams uri q kvs w = (r, w') ->
  exists pushed left,
    kvs = pushed ++ left
    /\ calls w' = calls w ++ map (setParamCall uri q) pushed
    /\ listeners w' = listeners w
    /\ (r = None -> left = [])
    /\ (forall err, r = Some err ->
        exists before kv,
          pushed = before ++ [kv]
          /\ master (calls w ++ map (setParamCall uri q) before) (setParamCall uri q kv)
             = inl err).
Proof.
  revert w. induction kvs as [|[k v] kvs IH]; intros w; simpl.
  - intros [= <- <-]. exists [], []. simpl. rewrite app_nil_r.
    repeat split; try done.
  - destruct (master (calls w) _) as [err|val] eqn:Hm.
    + intros [= <- <-]. exists [(k, v)], kvs. simpl.
      repeat split; try done. intros err' [= <-]. exists [], (k, v).
      simpl. by rewrite app_nil_r.
    + intros H. apply IH in H as (pushed & left & -> & Hc & Hl & Hnone & Hsome).
      simpl in Hc. exists ((k, v) :: pushed), left. simpl.
      rewrite Hc, <- app_assoc. repeat split; try done.
      intros err Hr. destruct (Hsome err Hr) as (before & kv & -> & Hma).
      exists ((k, v) :: before), kv. simpl. split; [done|].
      simpl in Hma. by rewrite <- app_assoc in Hma.
Qed.


(** X3.  How a constructed node chooses the host it advertises and
    the address it listens on: [__hostname] goes before [__ip], and
    that before what [determineHost] finds; the node listens on the
    loopback address exactly when [__hostname] is [localhost], when
    [__ip] is [::1] or begins with [127.], or when [determineHost]
    says so, and on all interfaces otherwise; the XML-RPC URI is made
    of the chosen host and of the port that the listener got. *)
Theorem newDefaultNode_host (name0 : string) (args : list string) (w w' : World)
    (node : Node) :
  newDefaultNode name0 args w = (Return (inr node), w') ->
  let a := processArguments args in
  (forall v, specials a !! "__hostname" = Some v ->
     hostname node = v /\ (listenIP node = "127.0.0.1" <-> v = "localhost"))
  /\ (specials a !! "__hostname" = None ->
      forall v, specials a !! "__ip" = Some v ->
        hostname node = v
        /\ (listenIP node = "127.0.0.1" <-> v = "::1" \/ HasPrefix v "127." = true))
  /\ (specials a !! "__hostname" = None -> specials a !! "__ip" = None ->
      hostname node = determineHost.1
      /\ (listenIP node = "127.0.0.1" <-> determineHost.2 = true))
  /\ (listenIP node = "127.0.0.1" \/ listenIP node = "0.0.0.0")
  /\ exists addr host port,
       net_Listen (listeners w) (listenIP node +:+ ":0") = inr addr
       /\ net_SplitHostPort addr = inr (host, port)
       /\ xmlrpcURI node = "http://" +:+ hostname node +:+ ":" +:+ port.
Proof.
  intros H a. unfold newDefaultNode in H. fold a in H.
  destruct (qualifyNodeName name0) as [err|[namespace0 nodeName]]; [discriminate|].
  destruct (match specials a !! "__hostname" with
            | Some value => (value, String.eqb value "localhost")
            | None =>
                match specials a !! "__ip" with
                | Some value =>
                    (value, (String.eqb value "::1" || HasPrefix value "127.")%bool)
                | None => determineHost
                end
            end) as [hostname' onlyLocalhost] eqn:Hhost.
  match type of H with
  | context [setParams ?u ?q ?kvs ?w] =>
      destruct (setParams u q kvs w) as [[err|] w1] eqn:Hsp
  end; [discriminate|].
  apply setParams_calls in Hsp as [_ Hl].
  destruct (net_Listen (listeners w1) _) as [err|addr] eqn:Hlisten.
  { unfold Fatal, bind in H. destruct (Fatal_exits NewDefaultLogger); discriminate. }
  destruct (net_SplitHostPort addr) as [err|[host port]] eqn:Hsplit; [discriminate|].
  injection H as <- <-. simpl. rewrite Hl in Hlisten.
  assert (Hloop : forall b : bool,
            (if b then "127.0.0.1" else "0.0.0.0") = "127.0.0.1" <-> b = true).
  { by intros []. }
  split; [|split; [|split; [|split]]].
  - intros v Hv. rewrite Hv in Hhost. injection Hhost as <- <-.
    split; [done|]. rewrite Hloop. apply String.eqb_eq.
  - intros Hn v Hv. rewrite Hn, Hv in Hhost. injection Hhost as <- <-.
    split; [done|]. rewrite Hloop, orb_true_iff, String.eqb_eq. done.
  - intros Hn Hn'. rewrite Hn, Hn' in Hhost. rewrite Hhost. simpl.
    split; [done|]. apply Hloop.
  - destruct onlyLocalhost; [by left | by right].
  - by exists addr, host, port.
Qed.

(** *** requestTopic on offers it cannot read *)

(** X4.  On a topic with a publisher, [requestTopic] panics at the
    first offered protocol that is not an array beginning with a
    string, when no protocol named TCPROS stands before it; and when
    the first TCPROS is reached and the port of the publisher's
    listener does not read as a 32-bit number, the call returns that
    error and no response. *)
Theorem requestTopic_failures (node : Node) (callerID topic : string) (pub : Publisher)
    (before after : list Value) (v : Value) :
  publishers node !! topic = Some pub ->
  Forall otherProtocol before ->
  (~ namedProtocol v ->
   requestTopic node callerID topic (before ++ v :: after) = Panic)
  /\ (forall params err,
        v = Array (Str "TCPROS" :: params) ->
        ParseInt32 (hostAndPort pub).2 = inl err ->
        requestTopic node callerID topic (before ++ v :: after) = Return (inl err)).
Proof.
  intros Hpub Hbefore. unfold requestTopic. rewrite Hpub.
  assert (Hskip : selectProtocol pub (before ++ v :: after)
                  = selectProtocol pub (v :: after)).
  { induction Hbefore as [|x before Hx _ IH]; [done|].
    rewrite <- app_comm_cons. by rewrite selectProtocol_other. }
  rewrite Hskip. split.
  - intros Hv.
    assert (Hpanic : selectProtocol pub (v :: after) = Panic).
    { destruct v as [| | | |[|[| | |name|] params]]; try reflexivity.
      destruct Hv. by exists name, params. }
    by rewrite Hpanic.
  - intros params err -> Hport. simpl in *. by rewrite Hport.
Qed.

(** *** publisherUpdate *)

Lemma pubURIs_strings (uris : list string) : pubURIs (map Str uris) = Return uris.
Proof. induction uris as [|u uris IH]; [done|]. simpl. by rewrite IH. Qed.

Lemma pubURIs_other (before : list string) (v : Value) (after : list Value) :
  (forall s, v <> Str s) -> pubURIs (map Str before ++ v :: after) = Panic.
Proof.
  intros Hv. induction before as [|u before IH]; simpl.
  - destruct v; try done. by destruct (Hv s).
  - by rewrite IH.
Qed.

(** X5.  [publisherUpdate] on a topic without subscriber answers with
    failure status and leaves the node as it is.  On a topic with a
    subscriber and a list of strings it answers with success status
    and puts the list, also an empty one, at the end of the queue of
    that subscriber, whose callbacks stay; every other subscriber and
    the publishers stay as they are.  A list with a value that is not
    a string makes the call panic. *)
Theorem publisherUpdate_contract (node : Node) (callerID topic : string)
    (publishers' : list Value) :
  (subscribers node !! topic = None ->
   publisherUpdate node callerID topic publishers' =
   Return (node, inr (Array [Int 0; Str "No such topic"; Int 0])))
  /\ (forall sub, subscribers node !! topic = Some sub ->
      (forall uris, publishers' = map Str uris ->
         exists node' sub',
           publisherUpdate node callerID topic publishers' =
           Return (node', inr (Array [Int 1; Str "Success"; Int 0]))
           /\ subscribers node' !! topic = Some sub'
           /\ pubListChan sub' = pubListChan sub ++ [uris]
           /\ callbacks sub' = callbacks sub
           /\ sub_topic sub' = sub_topic sub /\ sub_msgType sub' = sub_msgType sub
           /\ (forall other, other <> topic ->
                 subscribers node' !! other = subscribers node !! other)
           /\ publishers node' = publishers node)
      /\ (forall before v after,
            publishers' = map Str before ++ v :: after ->
            (forall s, v <> Str s) ->
            publisherUpdate node callerID topic publishers' = Panic)).
Proof.
  unfold publisherUpdate. split; [by intros ->|].
  intros sub ->. split.
  - intros uris ->. rewrite pubURIs_strings. simpl.
    eexists _, _. split; [reflexivity|]. simpl.
    split; [apply lookup_insert_eq|]. repeat (split; [done|]).
    split; [|done]. intros other Hne. by apply lookup_insert_ne.
  - intros before v after -> Hv. by rewrite pubURIs_other.
Qed.

(** *** NewSubscriber on a topic that is new *)

Lemma publisherURIs_strings (l : Logger) (uris : list string) :
  publisherURIs l (map Str uris) = Return uris.
Proof. induction uris as [|u uris IH]; [done|]. simpl. by rewrite IH. Qed.

(** X6.  On a topic without subscriber under the resolved name, and a
    Master that answers the registration with a list of strings,
    [NewSubscriber] makes the one call [registerSubscriber] with the
    resolved name and stores under that name a subscriber with the
    given type, the callback alone, and the Master's list in its
    queue.  A second call on the topic then makes no call, whatever
    type it gives, and the callbacks are the first and the second
    callback. *)
Theorem NewSubscriber_new_topic (node : Node) (topic : string) (msgType : MessageType)
    (callback : Callback) (w : World) (uris : list string) :
  let name' := resolver_remap (resolver node) topic in
  let w' := {| calls := calls w ++ [registerSubscriberCall node topic msgType];
               listeners := listeners w |} in
  subscribers node !! name' = None ->
  master (calls w) (registerSubscriberCall node topic msgType) = inr (Array (map Str uris)) ->
  exists node' sub',
    NewSubscriber node topic msgType callback w = (Return (node', sub'), w')
    /\ sub' = {| sub_topic := name'; sub_msgType := msgType;
                 callbacks := [callback]; pubListChan := [uris] |}
    /\ subscribers node' = <[name' := sub']> (subscribers node)
    /\ publishers node' = publishers node
    /\ forall msgType2 callback2,
         exists node2 sub2,
           NewSubscriber node' topic msgType2 callback2 w' = (Return (node2, sub2), w')
           /\ callbacks sub2 = [callback; callback2]
           /\ sub_msgType sub2 = msgType
           /\ subscribers node2 !! name' = Some sub2.
Proof.
  intros name' w' Hnone Hmaster. subst name' w'. unfold NewSubscriber. rewrite Hnone.
  unfold callRosAPI. fold (registerSubscriberCall node topic msgType).
  rewrite Hmaster. simpl. rewrite publisherURIs_strings. simpl.
  eexists _, _. split; [reflexivity|]. split; [reflexivity|].
  split; [reflexivity|]. split; [reflexivity|].
  intros msgType2 callback2. unfold NewSubscriber. simpl. rewrite lookup_insert_eq.
  eexists _, _. split; [reflexivity|]. simpl.
  split; [done|]. split; [done|]. apply lookup_insert_eq.
Qed.

(** X7.  When the registration of a new subscriber fails at the
    Master, the call was made and [NewSubscriber] does not return: the
    process ends in the logger's [Fatalf], and with a logger whose
    [Fatalf] returns the call panics on the nil result. *)
Theorem NewSubscriber_registration_fails (node : Node) (topic : string)
    (msgType : MessageType) (callback : Callback) (w : World) (err : error) :
  subscribers node !! resolver_remap (resolver node) topic = None ->
  master (calls w) (registerSubscriberCall node topic msgType) = inl err ->
  NewSubscriber node topic msgType callback w =
  (if Fatal_exits (logger node) then Exit else Panic,
   {| calls := calls w ++ [registerSubscriberCall node topic msgType];
      listeners := listeners w |}).
Proof.
  intros Hnone Hmaster. unfold NewSubscriber. rewrite Hnone.
  unfold callRosAPI. fold (registerSubscriberCall node topic msgType).
  rewrite Hmaster. unfold Fatal. by destruct (Fatal_exits (logger node)).
Qed.

(** *** NewPublisher *)

(** X8.  [NewPublisher] resolves the topic and hands the resolved name
    to [NewPublisherWithCallbacks], which resolves it once more: the
    publisher is looked up under the name resolved once; when none is
    stored there and the Master accepts, it is registered and stored
    under the name resolved twice. *)
Theorem NewPublisher_resolves_twice (node : Node) (topic : string)
    (msgType : MessageType) (w : World) :
  let once := resolver_remap (resolver node) topic in
  let twice := resolver_remap (resolver node) once in
  let call :=
    {| call_uri := masterURI node; call_method := "registerPublisher";
       call_args := [Str (qualifiedName node); Str twice; Str (Name msgType);
                     Str (xmlrpcURI node)] |} in
  (forall pub, publishers node !! once = Some pub ->
     NewPublisher node topic msgType w = (Return (node, pub), w))
  /\ (publishers node !! once = None ->
      (exists val, master (calls w) call = inr val) ->
      exists node' pub w',
        NewPublisher node topic msgType w = (Return (node', pub), w')
        /\ calls w' = calls w ++ [call]
        /\ publishers node' = <[twice := pub]> (publishers node)
        /\ pub_topic pub = twice /\ pub_msgType pub = msgType).
Proof.
  intros once twice call. unfold NewPublisher. fold once. split.
  - intros pub Hpub. by apply NewPublisherWithCallbacks_found.
  - intros Hnone [val Hval].
    rewrite NewPublisherWithCallbacks_missing by done. cbv zeta.
    change (registerPublisherCall node once msgType) with call.
    rewrite Hval. eexists _, _, _. split; [reflexivity|]. by simpl.
Qed.

(** *** Publishers and subscribers are stored under their topics *)

Lemma NewSubscriber_returns (node node' : Node) (topic : string) (msgType : MessageType)
    (callback : Callback) (w w' : World) (sub' : Subscriber) :
  NewSubscriber node topic msgType callback w = (Return (node', sub'), w') ->
  let name' := resolver_remap (resolver node) topic in
  subscribers node' = <[name' := sub']> (subscribers node)
  /\ publishers node' = publishers node
  /\ sub_topic sub' =
     match subscribers node !! name' with
     | Some sub => sub_topic sub
     | None => name'
     end.
Proof.
  intros H name'. unfold NewSubscriber in H. fold name' in H.
  destruct (subscribers node !! name') as [sub|].
  - by injection H as <- <- _.
  - destruct (callRosAPI _ _ _ _) as [r w1].
    destruct (match r with inl _ => Fatal (logger node) | inr _ => Return () end);
      try discriminate. simpl in H.
    destruct (resultList (logger node) (resultValue r)) as [items| |];
      try discriminate. simpl in H.
    destruct (publisherURIs (logger node) items) as [pubs| |]; try discriminate.
    simpl in H. by injection H as <- <- _.
Qed.

Lemma NewPublisherWithCallbacks_returns (node node' : Node) (topic : string)
    (msgType : MessageType) (cc dc : option Callback) (w w' : World) (pub : Publisher) :
  NewPublisherWithCallbacks node topic msgType cc dc w = (Return (node', pub), w') ->
  subscribers node' = subscribers node
  /\ (node' = node /\ publishers node !! topic = Some pub
      \/ publishers node' = <[resolver_remap (resolver node) topic := pub]> (publishers node)
         /\ pub_topic pub = resolver_remap (resolver node) topic).
Proof.
  unfold NewPublisherWithCallbacks. destruct (publishers node !! topic) as [pub0|].
  - intros [= <- <- _]. split; [done|]. by left.
  - destruct (callRosAPI _ _ _ _) as [r w1].
    destruct (match r with inl _ => Fatal (logger node) | inr _ => Return () end);
      try discriminate.
    intros [= <- <- _]. split; [done|]. by right.
Qed.

(** X9.  A constructed node stores every publisher and every
    subscriber under the topic of that publisher or subscriber, and
    [NewPublisherWithCallbacks], [NewPublisher], [NewSubscriber] and
    [publisherUpdate] keep it so. *)
Theorem keyedByTopic_kept :
  (forall name0 args w w' (node : Node),
     newDefaultNode name0 args w = (Return (inr node), w') -> keyedByTopic node)
  /\ (forall (node node' : Node) topic msgType cc dc w w' pub,
        keyedByTopic node ->
        NewPublisherWithCallbacks node topic msgType cc dc w = (Return (node', pub), w') ->
        keyedByTopic node')
  /\ (forall (node node' : Node) topic msgType w w' pub,
        keyedByTopic node ->
        NewPublisher node topic msgType w = (Return (node', pub), w') ->
        keyedByTopic node')
  /\ (forall (node node' : Node) topic msgType callback w w' sub,
        keyedByTopic node ->
        NewSubscriber node topic msgType callback w = (Return (node', sub), w') ->
        keyedByTopic node')
  /\ (forall (node node' : Node) callerID topic publishers' response,
        keyedByTopic node ->
        publisherUpdate node callerID topic publishers' = Return (node', response) ->
        keyedByTopic node').
Proof.
  assert (Hpub : forall (node node' : Node) topic msgType cc dc w w' pub,
            keyedByTopic node ->
            NewPublisherWithCallbacks node topic msgType cc dc w = (Return (node', pub), w') ->
            keyedByTopic node').
  { intros node node' topic msgType cc dc w w' pub [Hp Hs] H.
    apply NewPublisherWithCallbacks_returns in H as [Hsubs [[-> _]|[Hpubs Htopic]]];
      [done|].
    split; [|by rewrite Hsubs].
    intros key p. rewrite Hpubs.
    destruct (decide (resolver_remap (resolver node) topic = key)) as [<-|Hne].
    - rewrite lookup_insert_eq. by intros [= <-].
    - rewrite lookup_insert_ne by done. apply Hp. }
  split; [|split; [exact Hpub|split; [|split]]].
  - intros name0 args w w' node H. apply newDefaultNode_returns in H.
    destruct H as (ns & nn & _ & _ & _ & _ & _ & _ & Hs & Hp & _).
    split; intros key x; [rewrite Hp | rewrite Hs]; by rewrite lookup_empty.
  - intros node node' topic msgType w w' pub Hk H. by eapply Hpub.
  - intros node node' topic msgType callback w w' sub [Hp Hs] H.
    apply NewSubscriber_returns in H as (Hsubs & Hpubs & Htopic).
    split; [by rewrite Hpubs|].
    intros key s. rewrite Hsubs.
    destruct (decide (resolver_remap (resolver node) topic = key)) as [<-|Hne].
    + rewrite lookup_insert_eq. intros [= <-]. rewrite Htopic.
      destruct (subscribers node !! resolver_remap (resolver node) topic) eqn:E; [|done].
      by apply Hs.
    + rewrite lookup_insert_ne by done. apply Hs.
  - intros node node' callerID topic publishers' response [Hp Hs] H.
    unfold publisherUpdate in H.
    destruct (subscribers node !! topic) as [sub|] eqn:E; [|by injection H as <- _].
    destruct (pubURIs publishers') as [uris| |]; try discriminate.
    simpl in H. injection H as <- _. split; [done|]. simpl.
    intros key s. destruct (decide (topic = key)) as [<-|Hne].
    + rewrite lookup_insert_eq. intros [= <-]. simpl. by apply Hs.
    + rewrite lookup_insert_ne by done. apply Hs.
Qed.

End Node.

Section SlaveAPI.
Context {MessageType Callback nameResolver : Type}.
Context `{Env : Environment} {Pkg : Package MessageType Callback nameResolver}.
Context {Rng : Ranging}.

#[local] Abbreviation Node := (defaultNode MessageType Callback nameResolver).

(** *** getPublications and getSubscriptions *)

Lemma range_map_pairs {V : Type} (pair : string * V -> Value) (m : gmap string V) :
  let pairs := map pair (range_map V m) in
  length pairs = size m
  /\ (forall key x, m !! key = Some x -> pair (key, x) ∈ pairs)
  /\ (forall p, p ∈ pairs -> exists key x, m !! key = Some x /\ p = pair (key, x)).
Proof.
  intros pairs. subst pairs. split; [|split].
  - by rewrite length_map, (range_map_perm V m), length_map_to_list.
  - intros key x Hx. apply (list_elem_of_fmap_2 pair).
    rewrite (range_map_perm V m). by apply elem_of_map_to_list.
  - intros p Hp. apply list_elem_of_fmap in Hp as ([key x] & -> & Hin).
    rewrite (range_map_perm V m) in Hin. apply elem_of_map_to_list in Hin.
    by exists key, x.
Qed.

(** X10.  [getPublications] answers with success status and a list
    that has, in some order, exactly one pair of topic and type name
    for every stored publisher, under the key the publisher is stored
    with; [getSubscriptions] does the same for the subscribers. *)
Theorem publications_and_subscriptions_listed (node : Node) (callerID : string) :
  (exists pairs,
     getPublications node callerID = inr (Array [Int 1; Str "Success"; Array pairs])
     /\ length pairs = size (publishers node)
     /\ (forall topic pub, publishers node !! topic = Some pub ->
           Array [Str topic; Str (Name (pub_msgType pub))] ∈ pairs)
     /\ (forall p, p ∈ pairs ->
           exists topic pub, publishers node !! topic = Some pub
             /\ p = Array [Str topic; Str (Name (pub_msgType pub))]))
  /\ (exists pairs,
        getSubscriptions node callerID = inr (Array [Int 1; Str "Success"; Array pairs])
        /\ length pairs = size (subscribers node)
        /\ (forall topic sub, subscribers node !! topic = Some sub ->
              Array [Str topic; Str (Name (sub_msgType sub))] ∈ pairs)
        /\ (forall p, p ∈ pairs ->
              exists topic sub, subscribers node !! topic = Some sub
                /\ p = Array [Str topic; Str (Name (sub_msgType sub))])).
Proof.
  split; eexists; (split; [reflexivity|]).
  - destruct (range_map_pairs
                (fun tp : string * defaultPublisher MessageType Callback =>
                   Array [Str tp.1; Str (Name (pub_msgType tp.2))]) (publishers node))
      as (Hl & Hin & Hof).
    split; [exact Hl|]. split; [intros topic pub; apply Hin | exact Hof].
  - destruct (range_map_pairs
                (fun ts : string * defaultSubscriber MessageType Callback =>
                   Array [Str ts.1; Str (Name (sub_msgType ts.2))]) (subscribers node))
      as (Hl & Hin & Hof).
    split; [exact Hl|]. split; [intros topic sub; apply Hin | exact Hof].
Qed.

(** *** The parameter calls *)

(** X11.  [HasParam] and [SearchParam] make one call to the Master
    each, [HasParam] with the resolved key and [SearchParam] with the
    key as it is given.  When the call fails they return the zero value
    with the error, [HasParam] never [true]; when the Master's value
    has another type than bool or string they panic. *)
Theorem HasParam_SearchParam_results (node : Node) (key : string) (w : World) :
  let has :=
    {| call_uri := masterURI node; call_method := "hasParam";
       call_args := [Str (qualifiedName node);
                     Str (resolver_remap (resolver node) key)] |} in
  let search :=
    {| call_uri := masterURI node; call_method := "searchParam";
       call_args := [Str (qualifiedName node); Str key] |} in
  (HasParam node key w).2 = {| calls := calls w ++ [has]; listeners := listeners w |}
  /\ (SearchParam node key w).2
     = {| calls := calls w ++ [search]; listeners := listeners w |}
  /\ (forall err, master (calls w) has = inl err ->
        (HasParam node key w).1 = Return (false, Some err))
  /\ (forall err, master (calls w) search = inl err ->
        (SearchParam node key w).1 = Return (EmptyString, Some err))
  /\ (forall b, master (calls w) has = inr (Bool b) ->
        (HasParam node key w).1 = Return (b, None))
  /\ (forall found, master (calls w) search = inr (Str found) ->
        (SearchParam node key w).1 = Return (found, None))
  /\ (forall v, master (calls w) has = inr v -> (forall b, v <> Bool b) ->
        (HasParam node key w).1 = Panic)
  /\ (forall v, master (calls w) search = inr v -> (forall s, v <> Str s) ->
        (SearchParam node key w).1 = Panic).
Proof.
  intros has search. unfold HasParam, SearchParam, callRosAPI.
  fold has. fold search.
  split; [by destruct (master (calls w) has) as [?|[]]|].
  split; [by destruct (master (calls w) search) as [?|[]]|].
  split; [by intros err ->|]. split; [by intros err ->|].
  split; [by intros b ->|]. split; [by intros found ->|].
  split; intros v -> Hv; destruct v; try done.
  - by destruct (Hv b).
  - by destruct (Hv s).
Qed.

End SlaveAPI.

End node_extra.

(** ** More about the message context *)

Module context_extra.

Import strings gengo strings_facts context_facts.

Lemma append_assoc (a b c : string) : (a +:+ b) +:+ c = a +:+ (b +:+ c).
Proof.
  induction a as [|x a IH]; [by rewrite !append_empty|].
  by rewrite !append_cons, IH.
Qed.

Lemma append_empty_r (a : string) : a +:+ EmptyString = a.
Proof.
  induction a as [|x a IH]; [by rewrite append_empty|]. by rewrite append_cons, IH.
Qed.

(** Joining what [Split] gives, with the separator, gives the text
    back. *)
Lemma genSplit_Join (n : nat) (sep : string) :
  forall s, Join (genSplit n sep s) sep = s.
Proof.
  induction n as [|n IH]; intros s; [done|]. cbn [genSplit].
  destruct (Cut sep s) as [[before after]|] eqn:Hc; [|done].
  apply Cut_Some in Hc. pose proof (genSplit_length_ge n sep after) as Hge.
  specialize (IH after). destruct (genSplit n sep after) as [|part parts].
  - simpl in Hge. lia.
  - change (before +:+ sep +:+ Join (part :: parts) sep = s). by rewrite IH.
Qed.

Lemma Split_Join (text sep : string) : Join (Split text sep) sep = text.
Proof. apply genSplit_Join. Qed.

Lemma suffix_differs (F a b : string) : a <> b -> F +:+ a <> F +:+ b.
Proof. intros Hne H. by apply (inj (String.append F)) in H. Qed.

Section Context.
Context `{Par : Parsing} `{Sys : System}.

(** *** The context only grows *)

Lemma keeps_refl (ctx : MsgContext) : keeps ctx ctx.
Proof. by repeat split. Qed.

Lemma keeps_trans (a b c : MsgContext) : keeps a b -> keeps b c -> keeps a c.
Proof.
  intros (H1 & H2 & H3 & H4) (G1 & G2 & G3 & G4).
  repeat split; [by etrans | congruence..].
Qed.

Lemma keeps_lookup (ctx ctx' : MsgContext) (name : string) (spec : MsgSpec) :
  keeps ctx ctx' -> msgRegistry ctx !! name = Some spec ->
  msgRegistry ctx' !! name = Some spec.
Proof. intros (H & _) Hl. by eapply lookup_weaken. Qed.

(** Registering a name that was not known at the start keeps what was
    known at the start. *)
Lemma Register_keeps (name : string) (spec : MsgSpec) (ctx c c' : MsgContext)
    (u : Fallible unit) :
  keeps ctx c -> msgRegistry ctx !! name = None ->
  Register name spec c = Some (u, c') -> keeps ctx c'.
Proof.
  intros (H1 & H2 & H3 & H4) Hn [= _ <-]. repeat split; simpl; [|done..].
  by apply insert_subseteq_r.
Qed.

Lemma Register_lookup (name : string) (spec : MsgSpec) (c c' : MsgContext)
    (u : Fallible unit) :
  Register name spec c = Some (u, c') ->
  msgRegistry c' !! name = Some spec
  /\ forall other, other <> name -> msgRegistry c' !! other = msgRegistry c !! other.
Proof.
  intros [= _ <-]. simpl. split; [by rewrite lookup_insert_eq|].
  intros other Hne. by rewrite lookup_insert_ne.
Qed.

Section Step.
Variable md5Text : MsgSpec -> M string.
Hypothesis md5Text_result :
  forall spec ctx r ctx', md5Text spec ctx = Some (r, ctx') ->
    keeps ctx ctx' /\ exists text, r = inr text.

Lemma ComputeMsgMD5_in_result (spec : MsgSpec) (ctx ctx' : MsgContext)
    (r : Fallible string) :
  ComputeMsgMD5_in md5Text spec ctx = Some (r, ctx') ->
  keeps ctx ctx'
  /\ exists text, md5Text spec ctx = Some (inr text, ctx') /\ r = inr (md5hex text).
Proof using md5Text_result.
  unfold ComputeMsgMD5_in, bind.
  destruct (md5Text spec ctx) as [[[e|text] c]|] eqn:E; [| |discriminate].
  - by destruct (md5Text_result _ _ _ _ E) as (_ & t & Ht).
  - intros [= <- <-]. split; [by apply (md5Text_result _ _ _ _ E)|]. by exists text.
Qed.

Lemma LoadMsgFromString_in_result (text fullname : string) (ctx ctx' : MsgContext)
    (r : Fallible MsgSpec) :
  LoadMsgFromString_in md5Text text fullname ctx = Some (r, ctx') ->
  match r with
  | inl e =>
      ctx' = ctx
      /\ ((exists msg, packageResourceName fullname = inl msg /\ e = errorString msg)
          \/ exists pkg short,
               packageResourceName fullname = inr (pkg, short)
               /\ loadLines fullname pkg 0 (Split text LF) [] [] = inl e)
  | inr spec =>
      exists ctx1, keeps ctx ctx1 /\ Register fullname spec ctx1 = Some (inr tt, ctx')
  end.
Proof using md5Text_result.
  unfold LoadMsgFromString_in.
  destruct (packageResourceName fullname) as [msg|[pkg short]] eqn:Hn.
  { intros [= <- <-]. split; [done|]. left. by exists msg. }
  destruct (loadLines _ _ _ _ _ _) as [e|[fields constants]] eqn:Hl.
  { intros [= <- <-]. split; [done|]. right. by exists pkg, short. }
  unfold bind at 1.
  destruct (ComputeMsgMD5_in _ _ ctx) as [[[e|md5sum] c1]|] eqn:E; [| |discriminate].
  { by apply ComputeMsgMD5_in_result in E as (_ & t & _ & Ht). }
  apply ComputeMsgMD5_in_result in E as (Hk & _).
  unfold bind, Register, ret. intros [= <- <-]. by exists c1.
Qed.

Lemma LoadMsg_in_result (name : string) (ctx ctx' : MsgContext) (r : Fallible MsgSpec) :
  LoadMsg_in md5Text name ctx = Some (r, ctx') ->
  match r with
  | inl _ => ctx' = ctx
  | inr spec => keeps ctx ctx' /\ msgRegistry ctx' !! name = Some spec
  end.
Proof using md5Text_result.
  unfold LoadMsg_in. destruct (msgRegistry ctx !! name) as [spec|] eqn:Hr.
  { intros [= <- <-]. split; [apply keeps_refl | done]. }
  destruct (msgPathMap ctx !! name) as [path|]; [|by intros [= <- <-]].
  unfold bind at 1. unfold LoadMsgFromFile_in.
  destruct (ReadFile path) as [e|text]; [by intros [= <- <-]|].
  destruct (LoadMsgFromString_in md5Text text name ctx) as [[[e|spec] c1]|] eqn:E;
    [| |discriminate].
  - intros [= <- <-]. by apply LoadMsgFromString_in_result in E as [-> _].
  - apply LoadMsgFromString_in_result in E as (c0 & Hk & Hreg).
    unfold bind, ret.
    destruct (Register name spec c1) as [[[e|[]] c2]|] eqn:Hreg2; try discriminate.
    intros [= <- <-].
    pose proof (Register_keeps _ _ _ _ _ _ Hk Hr Hreg) as Hk1.
    split; [by apply (Register_keeps _ _ _ _ _ _ Hk1 Hr Hreg2)|].
    by apply Register_lookup in Hreg2 as [? _].
Qed.

Lemma fieldsText_result (fields : list Field) :
  forall (buf : string) (ctx : MsgContext) (r : Fallible string) (ctx' : MsgContext),
    fieldsText md5Text fields buf ctx = Some (r, ctx') ->
    keeps ctx ctx' /\ exists text, r = inr text.
Proof using md5Text_result.
  induction fields as [|f fields IH]; intros buf ctx r ctx'; simpl.
  { intros [= <- <-]. split; [apply keeps_refl | eauto]. }
  destruct (String.eqb (Field_Package f) EmptyString); [apply IH|].
  destruct (LoadMsg_in md5Text _ ctx) as [[[e|subspec] c1]|] eqn:E; [| |discriminate].
  { intros [= <- <-]. apply LoadMsg_in_result in E as ->.
    split; [apply keeps_refl | eauto]. }
  apply LoadMsg_in_result in E as [Hk _].
  destruct (ComputeMsgMD5_in md5Text subspec c1) as [[[e|submd5] c2]|] eqn:E2;
    [| |discriminate].
  { by apply ComputeMsgMD5_in_result in E2 as (_ & t & _ & Ht). }
  apply ComputeMsgMD5_in_result in E2 as [Hk2 _].
  intros H. apply IH in H as [Hk3 Ht]. split; [|done].
  eapply keeps_trans; [|exact Hk3]. by eapply keeps_trans.
Qed.

End Step.

Lemma ComputeMD5Text_result (fuel : nat) :
  forall (spec : MsgSpec) (ctx : MsgContext) (r : Fallible string) (ctx' : MsgContext),
    ComputeMD5Text fuel spec ctx = Some (r, ctx') ->
    keeps ctx ctx' /\ exists text, r = inr text.
Proof.
  induction fuel as [|fuel IH]; intros spec ctx r ctx'; [discriminate|].
  cbn [ComputeMD5Text]. by apply fieldsText_result.
Qed.

Lemma LoadMsgFromString_result (fuel : nat) (text fullname : string)
    (ctx ctx' : MsgContext) (r : Fallible MsgSpec) :
  LoadMsgFromString fuel text fullname ctx = Some (r, ctx') ->
  match r with
  | inl e =>
      ctx' = ctx
      /\ ((exists msg, packageResourceName fullname = inl msg /\ e = errorString msg)
          \/ exists pkg short,
               packageResourceName fullname = inr (pkg, short)
               /\ loadLines fullname pkg 0 (Split text LF) [] [] = inl e)
  | inr spec =>
      exists ctx1, keeps ctx ctx1 /\ Register fullname spec ctx1 = Some (inr tt, ctx')
  end.
Proof. apply LoadMsgFromString_in_result, ComputeMD5Text_result. Qed.

(** A message loaded from a text is registered under its name, and
    every other name keeps its spec. *)
Lemma LoadMsgFromString_registry (fuel : nat) (text fullname : string)
    (ctx ctx' : MsgContext) (spec : MsgSpec) :
  LoadMsgFromString fuel text fullname ctx = Some (inr spec, ctx') ->
  msgRegistry ctx' !! fullname = Some spec
  /\ forall other s, other <> fullname -> msgRegistry ctx !! other = Some s ->
       msgRegistry ctx' !! other = Some s.
Proof.
  intros H. apply LoadMsgFromString_result in H as (c1 & Hk & Hreg).
  apply Register_lookup in Hreg as [Hl Ho]. split; [done|].
  intros other s Hne Hs. rewrite (Ho other Hne). by apply (keeps_lookup ctx).
Qed.

Lemma ComputeSrvMD5_result (fuel : nat) (spec : SrvSpec) (ctx ctx' : MsgContext)
    (r : Fallible string) :
  ComputeSrvMD5 fuel spec ctx = Some (r, ctx') ->
  keeps ctx ctx' /\ exists md5sum, r = inr md5sum.
Proof.
  unfold ComputeSrvMD5, bind.
  destruct (ComputeMD5Text fuel (Request spec) ctx) as [[[e|t1] c1]|] eqn:E1;
    [| |discriminate].
  { by apply ComputeMD5Text_result in E1 as (_ & t & Ht). }
  destruct (ComputeMD5Text fuel (Response spec) c1) as [[[e|t2] c2]|] eqn:E2;
    [| |discriminate].
  { by apply ComputeMD5Text_result in E2 as (_ & t & Ht). }
  intros [= <- <-]. split; [|eauto].
  eapply keeps_trans; eapply ComputeMD5Text_result; eassumption.
Qed.

Lemma ComputeActionMD5_result (fuel : nat) (spec : ActionSpec) (ctx ctx' : MsgContext)
    (r : Fallible string) :
  ComputeActionMD5 fuel spec ctx = Some (r, ctx') ->
  keeps ctx ctx' /\ exists md5sum, r = inr md5sum.
Proof.
  unfold ComputeActionMD5, bind.
  destruct (ComputeMD5Text fuel (ActionGoal spec) ctx) as [[[e|t1] c1]|] eqn:E1;
    [| |discriminate].
  { by apply ComputeMD5Text_result in E1 as (_ & t & Ht). }
  destruct (ComputeMD5Text fuel (ActionFeedback spec) c1) as [[[e|t2] c2]|] eqn:E2;
    [| |discriminate].
  { by apply ComputeMD5Text_result in E2 as (_ & t & Ht). }
  destruct (ComputeMD5Text fuel (ActionResult spec) c2) as [[[e|t3] c3]|] eqn:E3;
    [| |discriminate].
  { by apply ComputeMD5Text_result in E3 as (_ & t & Ht). }
  intros [= <- <-]. split; [|eauto].
  eapply keeps_trans; [|eapply ComputeMD5Text_result; eassumption].
  eapply keeps_trans; eapply ComputeMD5Text_result; eassumption.
Qed.

(** X12.  None of [ComputeMD5Text], [ComputeMsgMD5], [ComputeSrvMD5]
    and [ComputeActionMD5] returns an error, whatever the spec and the
    context: when they return, it is with a text or a digest.  A
    message that cannot be loaded for a field never shows. *)
Theorem ComputeMD5_never_fails (fuel : nat) (ctx ctx' : MsgContext) :
  (forall spec r, ComputeMD5Text fuel spec ctx = Some (r, ctx') ->
     exists text, r = inr text)
  /\ (forall spec r, ComputeMsgMD5 fuel spec ctx = Some (r, ctx') ->
        exists text ctx1, ComputeMD5Text fuel spec ctx = Some (inr text, ctx1)
                          /\ r = inr (md5hex text))
  /\ (forall spec r, ComputeSrvMD5 fuel spec ctx = Some (r, ctx') ->
        exists md5sum, r = inr md5sum)
  /\ (forall spec r, ComputeActionMD5 fuel spec ctx = Some (r, ctx') ->
        exists md5sum, r = inr md5sum).
Proof.
  split; [|split; [|split]]; intros spec r.
  - intros H. by apply ComputeMD5Text_result in H as [_ H].
  - intros H. apply ComputeMsgMD5_in_result in H as (_ & text & H & ->);
      [|apply ComputeMD5Text_result]. by exists text, ctx'.
  - intros H. by apply ComputeSrvMD5_result in H as [_ H].
  - intros H. by apply ComputeActionMD5_result in H as [_ H].
Qed.

(** X13.  [LoadMsg] and [ComputeMD5Text], with all the loads they
    start for the fields, never take a message out of the registry and
    never replace the spec of a registered name, and they leave the
    three path maps as they are.  When [LoadMsg] fails, the context is
    the one it started with. *)
Theorem LoadMsg_keeps_the_registry (fuel : nat) (ctx ctx' : MsgContext) :
  (forall spec r, ComputeMD5Text fuel spec ctx = Some (r, ctx') -> keeps ctx ctx')
  /\ (forall spec r, ComputeMsgMD5 fuel spec ctx = Some (r, ctx') -> keeps ctx ctx')
  /\ (forall name r, LoadMsg fuel name ctx = Some (r, ctx') ->
        keeps ctx ctx' /\ (loaded r = None -> ctx' = ctx)).
Proof.
  split; [|split].
  - intros spec r H. by apply ComputeMD5Text_result in H as [H _].
  - intros spec r H. apply ComputeMsgMD5_in_result in H as [H _]; [done|].
    apply ComputeMD5Text_result.
  - intros name r H. apply LoadMsg_in_result in H; [|apply ComputeMD5Text_result].
    destruct r as [e|spec].
    + subst ctx'. split; [apply keeps_refl | done].
    + destruct H as [H _]. split; [done|discriminate].
Qed.

(** *** Errors of the message loader *)

Lemma loadLines_error (fullname pkg : string) (lines : list string) :
  forall (n : nat) (fields : list Field) (constants : list Constant) (e : error),
    loadLines fullname pkg n lines fields constants = inl e ->
    exists i line msg,
      lines !! i = Some line /\ e = SyntaxError fullname (n + i) msg
      /\ (kindOf line = constantLine /\ loadConstantLine line = inl msg
          \/ kindOf line = fieldLine /\ loadFieldLine line pkg = inl msg)
      /\ forall j earlier, j < i -> lines !! j = Some earlier ->
           kindOf earlier = skippedLine
           \/ (kindOf earlier = constantLine /\ exists c, loadConstantLine earlier = inr c)
           \/ (kindOf earlier = fieldLine /\ exists f, loadFieldLine earlier pkg = inr f).
Proof.
  induction lines as [|line lines IH]; intros n fields constants e; [discriminate|].
  cbn [loadLines].
  assert (Hnext : forall fs cs,
    kindOf line = skippedLine
    \/ (kindOf line = constantLine /\ exists c, loadConstantLine line = inr c)
    \/ (kindOf line = fieldLine /\ exists f, loadFieldLine line pkg = inr f) ->
    loadLines fullname pkg (S n) lines fs cs = inl e ->
    exists i l msg,
      (line :: lines) !! i = Some l /\ e = SyntaxError fullname (n + i) msg
      /\ (kindOf l = constantLine /\ loadConstantLine l = inl msg
          \/ kindOf l = fieldLine /\ loadFieldLine l pkg = inl msg)
      /\ forall j earlier, j < i -> (line :: lines) !! j = Some earlier ->
           kindOf earlier = skippedLine
           \/ (kindOf earlier = constantLine /\ exists c, loadConstantLine earlier = inr c)
           \/ (kindOf earlier = fieldLine /\ exists f, loadFieldLine earlier pkg = inr f)).
  { intros fs cs Hline H. apply IH in H as (i & l & msg & Hl & -> & Hk & Hearlier).
    exists (S i), l, msg. split; [done|]. split; [f_equal; lia|]. split; [done|].
    intros [|j] earlier Hj; simpl.
    - by intros [= <-].
    - apply Hearlier. lia. }
  assert (Hhere : forall msg,
    kindOf line = constantLine /\ loadConstantLine line = inl msg
    \/ kindOf line = fieldLine /\ loadFieldLine line pkg = inl msg ->
    exists i l msg',
      (line :: lines) !! i = Some l
      /\ SyntaxError fullname n msg = SyntaxError fullname (n + i) msg'
      /\ (kindOf l = constantLine /\ loadConstantLine l = inl msg'
          \/ kindOf l = fieldLine /\ loadFieldLine l pkg = inl msg')
      /\ forall j earlier, j < i -> (line :: lines) !! j = Some earlier ->
           kindOf earlier = skippedLine
           \/ (kindOf earlier = constantLine /\ exists c, loadConstantLine earlier = inr c)
           \/ (kindOf earlier = fieldLine /\ exists f, loadFieldLine earlier pkg = inr f)).
  { intros msg Hk. exists 0, line, msg. split; [done|]. split; [f_equal; lia|].
    split; [done|]. intros j earlier Hj. lia. }
  unfold kindOf in Hnext, Hhere.
  destruct (String.length (stripComment line) =? 0)%nat.
  { apply Hnext. by left. }
  destruct (Contains (stripComment line) ConstChar).
  - destruct (loadConstantLine line) as [msg|c] eqn:Hc.
    + intros [= <-]. apply Hhere. by left.
    + apply Hnext. right. left. eauto.
  - destruct (loadFieldLine line pkg) as [msg|f] eqn:Hf.
    + intros [= <-]. apply Hhere. by right.
    + apply Hnext. right. right. eauto.
Qed.

(** X15.  [LoadMsgFromString] fails in two ways only: with the error
    of [packageResourceName] for the full name, or with a syntax error
    for the first line that does not parse, which names the full name
    and the index of that line counted from zero, blank and comment
    lines included.  In both cases the context is as before: nothing
    is registered. *)
Theorem LoadMsgFromString_errors (fuel : nat) (text fullname : string)
    (ctx ctx' : MsgContext) (e : error) :
  LoadMsgFromString fuel text fullname ctx = Some (inl e, ctx') ->
  ctx' = ctx
  /\ ((exists msg, packageResourceName fullname = inl msg /\ e = errorString msg)
      \/ exists pkg short lineno line msg,
           packageResourceName fullname = inr (pkg, short)
           /\ Split text LF !! lineno = Some line
           /\ e = SyntaxError fullname lineno msg
           /\ (kindOf line = constantLine /\ loadConstantLine line = inl msg
               \/ kindOf line = fieldLine /\ loadFieldLine line pkg = inl msg)
           /\ forall j earlier, j < lineno -> Split text LF !! j = Some earlier ->
                kindOf earlier = skippedLine
                \/ (kindOf earlier = constantLine
                    /\ exists c, loadConstantLine earlier = inr c)
                \/ (kindOf earlier = fieldLine
                    /\ exists f, loadFieldLine earlier pkg = inr f)).
Proof.
  intros H. apply LoadMsgFromString_result in H as [-> [H|(pkg & short & Hn & Hl)]].
  - split; [done|]. by left.
  - split; [done|]. right.
    apply loadLines_error in Hl as (i & line & msg & Hline & -> & Hk & Hearlier).
    by exists pkg, short, i, line, msg.
Qed.

(** *** Fields and constants by the kind of the line *)

Lemma kindOf_cases (line : string) :
  ((String.length (stripComment line) =? 0)%nat = true
   /\ isFieldLine line = false /\ isConstantLine line = false)
  \/ ((String.length (stripComment line) =? 0)%nat = false
      /\ Contains (stripComment line) ConstChar = true
      /\ isFieldLine line = false /\ isConstantLine line = true)
  \/ ((String.length (stripComment line) =? 0)%nat = false
      /\ Contains (stripComment line) ConstChar = false
      /\ isFieldLine line = true /\ isConstantLine line = false).
Proof.
  unfold isFieldLine, isConstantLine, kindOf.
  destruct (String.length (stripComment line) =? 0)%nat; [by left|].
  destruct (Contains (stripComment line) ConstChar); [right; by left | right; by right].
Qed.

Lemma loadLines_by_kind (fullname pkg : string) (lines : list string) :
  forall (n : nat) (fields : list Field) (constants : list Constant)
         (fields' : list Field) (constants' : list Constant),
    loadLines fullname pkg n lines fields constants = inr (fields', constants') <->
    exists fl cl,
      fields' = fields ++ fl /\ constants' = constants ++ cl
      /\ Forall2 (fun line f => loadFieldLine line pkg = inr f)
           (filter (fun line => isFieldLine line = true) lines) fl
      /\ Forall2 (fun line c => loadConstantLine line = inr c)
           (filter (fun line => isConstantLine line = true) lines) cl.
Proof.
  induction lines as [|line lines IH]; intros n fields constants fields' constants'.
  { simpl. split.
    - intros [= <- <-]. exists [], []. by rewrite !app_nil_r.
    - intros (fl & cl & -> & -> & Hf & Hc).
      apply Forall2_nil_inv_l in Hf as ->. apply Forall2_nil_inv_l in Hc as ->.
      by rewrite !app_nil_r. }
  cbn [loadLines]. rewrite !filter_cons.
  destruct (kindOf_cases line) as [(Hl & Hf & Hc)|[(Hl & Hk & Hf & Hc)|(Hl & Hk & Hf & Hc)]];
    rewrite Hl, Hf, Hc; rewrite ?Hk;
    rewrite ?decide_False by done; rewrite ?decide_True by done.
  - apply IH.
  - destruct (loadConstantLine line) as [msg|c] eqn:Hload.
    + split; [discriminate|]. intros (fl & cl & _ & _ & _ & H).
      apply Forall2_cons_inv_l in H as (c & cl' & H & _ & _). congruence.
    + rewrite IH. split.
      * intros (fl & cl & -> & -> & Hfl & Hcl). exists fl, (c :: cl).
        rewrite <- app_assoc. repeat split; [done|]. by constructor.
      * intros (fl & cl & -> & -> & Hfl & Hcl).
        apply Forall2_cons_inv_l in Hcl as (c' & cl' & Hc' & Hcl' & ->).
        assert (c' = c) as -> by congruence.
        exists fl, cl'. by rewrite <- app_assoc.
  - destruct (loadFieldLine line pkg) as [msg|f] eqn:Hload.
    + split; [discriminate|]. intros (fl & cl & _ & _ & H & _).
      apply Forall2_cons_inv_l in H as (f & fl' & H & _ & _). congruence.
    + rewrite IH. split.
      * intros (fl & cl & -> & -> & Hfl & Hcl). exists (f :: fl), cl.
        rewrite <- app_assoc. repeat split; [|done]. by constructor.
      * intros (fl & cl & -> & -> & Hfl & Hcl).
        apply Forall2_cons_inv_l in Hfl as (f' & fl' & Hf' & Hfl' & ->).
        assert (f' = f) as -> by congruence.
        exists fl', cl. by rewrite <- app_assoc.
Qed.

(** The parts of a message that loads. *)
Lemma LoadMsgFromString_parts (fuel : nat) (text fullname : string)
    (ctx ctx' : MsgContext) (spec : MsgSpec) :
  LoadMsgFromString fuel text fullname ctx = Some (inr spec, ctx') ->
  exists md5text ctx1,
    packageResourceName fullname = inr (Package spec, ShortName spec)
    /\ loadLines fullname (Package spec) 0 (Split text LF) [] []
       = inr (Fields spec, Constants spec)
    /\ ComputeMD5Text fuel
         (NewMsgSpec (Fields spec) (Constants spec) text fullname (Package spec)
            (ShortName spec)) ctx = Some (inr md5text, ctx1)
    /\ spec = set_MD5Sum
                (NewMsgSpec (Fields spec) (Constants spec) text fullname (Package spec)
                   (ShortName spec)) (md5hex md5text).
Proof.
  unfold LoadMsgFromString, LoadMsgFromString_in.
  destruct (packageResourceName fullname) as [e|[packageName shortName]]; [discriminate|].
  destruct (loadLines _ _ _ _ _ _) as [e|[fields constants]] eqn:Hl; [discriminate|].
  intros H. apply bind_returns in H as (md5sum & ctx1 & Hmd5 & H).
  apply bind_returns in H as ([] & ctx2 & Hreg & H).
  apply ret_returns in H as [<- <-].
  unfold ComputeMsgMD5_in in Hmd5.
  apply bind_returns in Hmd5 as (md5text & ctx3 & Htext & Hmd5).
  apply ret_returns in Hmd5 as [<- <-]. simpl.
  by exists md5text, ctx3.
Qed.

(** X16.  The fields of a message that loads are its field lines,
    parsed, in their order, and its constants are its constant lines,
    parsed, in their order; how the two kinds of lines are mixed, and
    which lines are skipped between them, does not show.  So a second
    text with the same field lines and the same constant lines loads
    with the same fields, constants and MD5 sum. *)
Theorem fields_and_constants_by_kind (fuel : nat) (text fullname : string)
    (ctx ctx' : MsgContext) (spec : MsgSpec) :
  LoadMsgFromString fuel text fullname ctx = Some (inr spec, ctx') ->
  Forall2 (fun line f => loadFieldLine line (Package spec) = inr f)
    (filter (fun line => isFieldLine line = true) (Split text LF)) (Fields spec)
  /\ Forall2 (fun line c => loadConstantLine line = inr c)
       (filter (fun line => isConstantLine line = true) (Split text LF)) (Constants spec)
  /\ forall text2,
       filter (fun line => isFieldLine line = true) (Split text2 LF)
       = filter (fun line => isFieldLine line = true) (Split text LF) ->
       filter (fun line => isConstantLine line = true) (Split text2 LF)
       = filter (fun line => isConstantLine line = true) (Split text LF) ->
       exists spec2 ctx2,
         LoadMsgFromString fuel text2 fullname ctx = Some (inr spec2, ctx2)
         /\ Fields spec2 = Fields spec /\ Constants spec2 = Constants spec
         /\ MD5Sum spec2 = MD5Sum spec.
Proof.
  intros H. apply LoadMsgFromString_parts in H as (md5text & c1 & Hn & Hl & Ht & Hspec).
  pose proof Hl as Hl'.
  apply loadLines_by_kind in Hl' as (fl & cl & Hfl & Hcl & Hf & Hc).
  simpl in Hfl, Hcl. subst fl cl.
  split; [done|]. split; [done|]. intros text2 Hf2 Hc2.
  assert (Hl2 : loadLines fullname (Package spec) 0 (Split text2 LF) [] []
                = inr (Fields spec, Constants spec)).
  { apply loadLines_by_kind. exists (Fields spec), (Constants spec).
    rewrite Hf2, Hc2. by repeat split. }
  assert (Ht2 :
    ComputeMD5Text fuel
      (NewMsgSpec (Fields spec) (Constants spec) text2 fullname (Package spec)
         (ShortName spec)) ctx = Some (inr md5text, c1)).
  { rewrite <- Ht. by destruct fuel. }
  unfold LoadMsgFromString, LoadMsgFromString_in, ComputeMsgMD5_in, bind.
  rewrite Hn, Hl2, Ht2. eexists _, _. split; [reflexivity|]. simpl.
  by rewrite Hspec.
Qed.

(** *** The MD5 text of a message of built-in fields *)

Lemma constantsText_concat (constants : list Constant) :
  forall buf,
    constantsText constants buf = buf +:+ concatText (map constantLineText constants).
Proof.
  induction constants as [|c constants IH]; intros buf; simpl.
  - by rewrite append_empty_r.
  - rewrite IH. unfold constantLineText. by rewrite !append_assoc.
Qed.

Lemma fieldsText_builtin (md5Text : MsgSpec -> M string) (fields : list Field) :
  Forall builtin fields ->
  forall buf ctx,
    fieldsText md5Text fields buf ctx
    = Some (inr (Trim1 (buf +:+ concatText (map fieldLineText fields)) "010"%char), ctx).
Proof.
  induction 1 as [|f fields Hf _ IH]; intros buf ctx; simpl.
  - by rewrite append_empty_r.
  - rewrite Hf. simpl. rewrite IH. unfold fieldLineText. by rewrite !append_assoc.
Qed.

(** X17.  For a message whose fields are all of built-in types the MD5
    text is the constants, one per line as [TYPE NAME=VALUE], followed
    by the fields, one per line, with the newlines at both ends of the
    whole taken off; the computation needs no other message, leaves
    the context alone, and the MD5 sum is the digest of that text. *)
Theorem ComputeMD5Text_builtin (fuel : nat) (spec : MsgSpec) (ctx : MsgContext) :
  Forall builtin (Fields spec) ->
  let text :=
    Trim1 (concatText (map constantLineText (Constants spec))
           +:+ concatText (map fieldLineText (Fields spec))) "010"%char in
  ComputeMD5Text (S fuel) spec ctx = Some (inr text, ctx)
  /\ ComputeMsgMD5 (S fuel) spec ctx = Some (inr (md5hex text), ctx).
Proof.
  intros Hb text.
  assert (Ht : ComputeMD5Text (S fuel) spec ctx = Some (inr text, ctx)).
  { cbn [ComputeMD5Text]. rewrite (fieldsText_builtin _ _ Hb).
    by rewrite constantsText_concat, append_empty. }
  split; [done|]. unfold ComputeMsgMD5, ComputeMsgMD5_in, bind. by rewrite Ht.
Qed.

Lemma fieldsText_included (fuel : nat) (ctx : MsgContext) (fields : list Field) :
  Forall (flatField ctx) fields ->
  forall buf,
    fieldsText (ComputeMD5Text (S fuel)) fields buf ctx
    = Some (inr (Trim1 (buf +:+ concatText (map (includedLine ctx) fields)) "010"%char),
            ctx).
Proof.
  induction 1 as [|f fields Hf _ IH]; intros buf; cbn [fieldsText map concatText].
  { by rewrite append_empty_r. }
  unfold includedLine at 1.
  destruct (String.eqb (Field_Package f) EmptyString) eqn:Hb.
  { rewrite IH. unfold fieldLineText. by rewrite !append_assoc. }
  destruct Hf as [Hf|(sub & Hsub & Hflat)].
  { apply String.eqb_neq in Hb. by destruct Hb. }
  assert (Hsubtext : ComputeMD5Text (S fuel) sub ctx = Some (inr (flatText sub), ctx)).
  { cbn [ComputeMD5Text]. rewrite (fieldsText_builtin _ _ Hflat).
    by rewrite constantsText_concat, append_empty. }
  unfold LoadMsg_in. rewrite Hsub. unfold ComputeMsgMD5_in, bind, ret.
  rewrite Hsubtext, IH. by rewrite !append_assoc.
Qed.

(** X26.  For a message whose fields are of built-in types or of
    registered messages of built-in fields (as [Header] is), the MD5
    text is the constants, then one line per field: the field as it is
    for a built-in type, and for a message type the digest of that
    message's own MD5 text, a space and the field name.  The digest is
    computed anew from the fields and constants of the registered
    spec; the MD5 sum stored in it is not read.  No file is read and
    the context stays as it is. *)
Theorem ComputeMD5Text_registered_fields (fuel : nat) (spec : MsgSpec) (ctx : MsgContext) :
  Forall (flatField ctx) (Fields spec) ->
  let text :=
    Trim1 (concatText (map constantLineText (Constants spec))
           +:+ concatText (map (includedLine ctx) (Fields spec))) "010"%char in
  ComputeMD5Text (S (S fuel)) spec ctx = Some (inr text, ctx)
  /\ ComputeMsgMD5 (S (S fuel)) spec ctx = Some (inr (md5hex text), ctx).
Proof.
  intros Hflat text.
  assert (Ht : ComputeMD5Text (S (S fuel)) spec ctx = Some (inr text, ctx)).
  { cbn [ComputeMD5Text]. rewrite (fieldsText_included fuel ctx _ Hflat).
    by rewrite constantsText_concat, append_empty. }
  split; [done|]. unfold ComputeMsgMD5, ComputeMsgMD5_in, bind. by rewrite Ht.
Qed.

(** *** A message that includes itself *)

Lemma fieldsText_stuck (md5Text : MsgSpec -> M string) (pre post : list Field)
    (f : Field) (ctx : MsgContext) :
  Forall builtin pre ->
  Field_Package f <> EmptyString ->
  LoadMsg_in md5Text (Field_Package f +:+ "/" +:+ Field_Type f) ctx = None ->
  forall buf, fieldsText md5Text (pre ++ f :: post) buf ctx = None.
Proof.
  intros Hpre Hf Hload. induction Hpre as [|g pre Hg _ IH]; intros buf; simpl.
  - apply String.eqb_neq in Hf. by rewrite Hf, Hload.
  - rewrite Hg. simpl. apply IH.
Qed.

(** X18.  A message definition in the path map that has a field of its
    own type (the fields before it being of built-in types) cannot be
    loaded: [LoadMsg] loads the file again for that field before the
    message is registered, and so without end.  No depth of the
    recursion gives a result, neither a spec nor an error. *)
Theorem LoadMsg_self_including (name path text pkg short : string)
    (pre post : list Field) (f : Field) (constants : list Constant) (ctx : MsgContext) :
  msgRegistry ctx !! name = None ->
  msgPathMap ctx !! name = Some path ->
  ReadFile path = inr text ->
  packageResourceName name = inr (pkg, short) ->
  loadLines name pkg 0 (Split text LF) [] [] = inr (pre ++ f :: post, constants) ->
  Forall builtin pre ->
  Field_Package f <> EmptyString ->
  Field_Package f +:+ "/" +:+ Field_Type f = name ->
  forall fuel,
    LoadMsg fuel name ctx = None
    /\ LoadMsgFromFile fuel path name ctx = None
    /\ LoadMsgFromString fuel text name ctx = None.
Proof.
  intros Hr Hp Hfile Hname Hlines Hpre Hf Hself fuel.
  assert (Hstring : forall md5Text,
    (forall spec, Fields spec = pre ++ f :: post -> md5Text spec ctx = None) ->
    LoadMsgFromString_in md5Text text name ctx = None).
  { intros md5Text Hmd5. unfold LoadMsgFromString_in. rewrite Hname, Hlines.
    unfold bind, ComputeMsgMD5_in, bind. by rewrite Hmd5. }
  assert (Hload : forall md5Text,
    (forall spec, Fields spec = pre ++ f :: post -> md5Text spec ctx = None) ->
    LoadMsg_in md5Text name ctx = None).
  { intros md5Text Hmd5. unfold LoadMsg_in. rewrite Hr, Hp.
    unfold bind, LoadMsgFromFile_in. by rewrite Hfile, (Hstring md5Text Hmd5). }
  assert (Htext : forall n spec,
    Fields spec = pre ++ f :: post -> ComputeMD5Text n spec ctx = None).
  { induction n as [|n IH]; intros spec Hfields; [done|].
    cbn [ComputeMD5Text]. rewrite Hfields. apply fieldsText_stuck; [done..|].
    rewrite Hself. by apply Hload. }
  split; [by apply Hload, Htext|]. split.
  - unfold LoadMsgFromFile, LoadMsgFromFile_in. rewrite Hfile. by apply Hstring, Htext.
  - by apply Hstring, Htext.
Qed.

(** *** Services and actions *)

Lemma LoadSrvFromString_registry (fuel : nat) (text F : string)
    (ctx ctx' : MsgContext) (spec : SrvSpec) :
  LoadSrvFromString fuel text F ctx = Some (inr spec, ctx') ->
  Srv_Text spec = text
  /\ msgRegistry ctx' !! (F +:+ "Request") = Some (Request spec)
  /\ msgRegistry ctx' !! (F +:+ "Response") = Some (Response spec).
Proof.
  unfold LoadSrvFromString.
  destruct (packageResourceName F) as [e|[packageName shortName]]; [discriminate|].
  destruct (Split text "---") as [|req [|res [|? ?]]] eqn:Hs; try discriminate.
  intros H.
  apply bind_returns in H as (reqSpec & c1 & Hreq & H).
  apply bind_returns in H as (resSpec & c2 & Hres & H).
  apply bind_returns in H as (md5sum & c3 & Hmd5 & H).
  apply ret_returns in H as [<- <-]. simpl.
  apply LoadMsgFromString_registry in Hreq as [Hreq1 _].
  apply LoadMsgFromString_registry in Hres as [Hres1 Hres2].
  apply ComputeSrvMD5_result in Hmd5 as [Hk _].
  split; [done|]. split; apply (keeps_lookup c2); try done.
  apply Hres2; [|done]. by apply suffix_differs.
Qed.

Lemma LoadActionFromString_registry (fuel : nat) (text F : string)
    (ctx ctx' : MsgContext) (spec : ActionSpec) :
  LoadActionFromString fuel text F ctx = Some (inr spec, ctx') ->
  Action_Text spec = text
  /\ msgRegistry ctx' !! (F +:+ "Goal") = Some (Goal spec)
  /\ msgRegistry ctx' !! (F +:+ "ActionGoal") = Some (ActionGoal spec)
  /\ msgRegistry ctx' !! (F +:+ "Feedback") = Some (Feedback spec)
  /\ msgRegistry ctx' !! (F +:+ "ActionFeedback") = Some (ActionFeedback spec)
  /\ msgRegistry ctx' !! (F +:+ "Result") = Some (Result spec)
  /\ msgRegistry ctx' !! (F +:+ "ActionResult") = Some (ActionResult spec).
Proof.
  unfold LoadActionFromString.
  destruct (packageResourceName F) as [e|[packageName shortName]]; [discriminate|].
  destruct (Split text "---") as [|goalT [|resultT [|feedbackT [|? ?]]]] eqn:Hs;
    try discriminate.
  intros H.
  apply bind_returns in H as (goalSpec & c1 & H1 & H).
  apply bind_returns in H as (actionGoalSpec & c2 & H2 & H).
  apply bind_returns in H as (feedbackSpec & c3 & H3 & H).
  apply bind_returns in H as (actionFeedbackSpec & c4 & H4 & H).
  apply bind_returns in H as (resultSpec & c5 & H5 & H).
  apply bind_returns in H as (actionResultSpec & c6 & H6 & H).
  apply bind_returns in H as (md5sum & c7 & Hmd5 & H).
  apply ret_returns in H as [<- <-]. simpl.
  apply ComputeActionMD5_result in Hmd5 as [Hk _].
  apply LoadMsgFromString_registry in H1 as [R1 _].
  apply LoadMsgFromString_registry in H2 as [R2 O2].
  apply LoadMsgFromString_registry in H3 as [R3 O3].
  apply LoadMsgFromString_registry in H4 as [R4 O4].
  apply LoadMsgFromString_registry in H5 as [R5 O5].
  apply LoadMsgFromString_registry in H6 as [R6 O6].
  split; [done|].
  repeat split; apply (keeps_lookup c6); try done;
    repeat first
      [ eassumption
      | apply O6; [by apply suffix_differs|]
      | apply O5; [by apply suffix_differs|]
      | apply O4; [by apply suffix_differs|]
      | apply O3; [by apply suffix_differs|]
      | apply O2; [by apply suffix_differs|] ].
Qed.


(** X20.  A service load is not undone when it fails.  With a text of
    two parts, the load fails with the context unchanged when the full
    name is refused or the request does not load; when the request
    loads and the response does not, the error is that of the response
    and the request message stays registered. *)
Theorem LoadSrvFromString_failure (fuel : nat) (text F req res : string)
    (ctx ctx' : MsgContext) (e : error) :
  Split text "---" = [req; res] ->
  LoadSrvFromString fuel text F ctx = Some (inl e, ctx') ->
  (ctx' = ctx
   /\ ((exists msg, packageResourceName F = inl msg /\ e = errorString msg)
       \/ LoadMsgFromString fuel req (F +:+ "Request") ctx = Some (inl e, ctx)))
  \/ exists reqSpec,
       LoadMsgFromString fuel req (F +:+ "Request") ctx = Some (inr reqSpec, ctx')
       /\ LoadMsgFromString fuel res (F +:+ "Response") ctx' = Some (inl e, ctx')
       /\ msgRegistry ctx' !! (F +:+ "Request") = Some reqSpec.
Proof.
  intros Hs. unfold LoadSrvFromString. rewrite Hs.
  destruct (packageResourceName F) as [msg|[packageName shortName]].
  { intros [= <- <-]. left. split; [done|]. left. by exists msg. }
  unfold bind at 1.
  destruct (LoadMsgFromString fuel req (F +:+ "Request") ctx)
    as [[[e1|reqSpec] c1]|] eqn:Hreq; [| |discriminate].
  { intros [= <- <-]. left.
    pose proof (LoadMsgFromString_result _ _ _ _ _ _ Hreq) as [-> _].
    split; [done|]. by right. }
  unfold bind at 1.
  destruct (LoadMsgFromString fuel res (F +:+ "Response") c1)
    as [[[e2|resSpec] c2]|] eqn:Hres; [| |discriminate].
  { intros [= <- <-]. right.
    pose proof (LoadMsgFromString_result _ _ _ _ _ _ Hres) as [-> _].
    exists reqSpec. split; [done|]. split; [done|].
    by apply LoadMsgFromString_registry in Hreq as [? _]. }
  unfold bind at 1.
  destruct (ComputeSrvMD5 fuel _ c2) as [[[e3|md5sum] c3]|] eqn:Hmd5; [| |discriminate].
  { by apply ComputeSrvMD5_result in Hmd5 as (_ & ? & ?). }
  discriminate.
Qed.

(** X21.  An action that loads with full name F and text T: T is the
    texts of the goal, of the result and of the feedback, in this
    order, with [---] between them, and the six messages F+Goal,
    F+ActionGoal, F+Feedback, F+ActionFeedback, F+Result and
    F+ActionResult are in the registry afterwards, each with the spec
    that the action holds. *)
Theorem LoadActionFromString_registers (fuel : nat) (text F : string)
    (ctx ctx' : MsgContext) (spec : ActionSpec) :
  LoadActionFromString fuel text F ctx = Some (inr spec, ctx') ->
  text = Text (Goal spec) +:+ "---" +:+ Text (Result spec) +:+ "---"
         +:+ Text (Feedback spec)
  /\ msgRegistry ctx' !! (F +:+ "Goal") = Some (Goal spec)
  /\ msgRegistry ctx' !! (F +:+ "ActionGoal") = Some (ActionGoal spec)
  /\ msgRegistry ctx' !! (F +:+ "Feedback") = Some (Feedback spec)
  /\ msgRegistry ctx' !! (F +:+ "ActionFeedback") = Some (ActionFeedback spec)
  /\ msgRegistry ctx' !! (F +:+ "Result") = Some (Result spec)
  /\ msgRegistry ctx' !! (F +:+ "ActionResult") = Some (ActionResult spec).
Proof.
  intros H. pose proof (LoadActionFromString_registry _ _ _ _ _ _ H) as (_ & Hreg).
  split; [|exact Hreg]. revert H. unfold LoadActionFromString.
  destruct (packageResourceName F) as [e|[packageName shortName]]; [discriminate|].
  destruct (Split text "---") as [|goalT [|resultT [|feedbackT [|? ?]]]] eqn:Hs;
    try discriminate.
  intros H.
  apply bind_returns in H as (goalSpec & c1 & H1 & H).
  apply bind_returns in H as (actionGoalSpec & c2 & H2 & H).
  apply bind_returns in H as (feedbackSpec & c3 & H3 & H).
  apply bind_returns in H as (actionFeedbackSpec & c4 & H4 & H).
  apply bind_returns in H as (resultSpec & c5 & H5 & H).
  apply bind_returns in H as (actionResultSpec & c6 & H6 & H).
  apply bind_returns in H as (md5sum & c7 & Hmd5 & H).
  apply ret_returns in H as [<- <-]. simpl.
  apply LoadMsgFromString_returns in H1 as (Hgt & _).
  apply LoadMsgFromString_returns in H3 as (Hft & _).
  apply LoadMsgFromString_returns in H5 as (Hrt & _).
  by rewrite Hgt, Hft, Hrt, <- (Split_Join text "---"), Hs.
Qed.

(** X22.  [LoadSrv] and [LoadAction] look the name up in their own
    path map only, and read the file every time.  A name that is not
    there is "not found", with the context unchanged, also when a
    message of that name is registered; a file that cannot be read
    gives its error with the context unchanged; and what loads has the
    text of the file, with its messages ready for [LoadMsg]. *)
Theorem LoadSrv_LoadAction_by_name (fuel : nat) (name : string) (ctx : MsgContext) :
  (srvPathMap ctx !! name = None ->
   LoadSrv fuel name ctx
   = Some (inl (errorString ("Service definition of `" +:+ name +:+ "` is not found")),
           ctx))
  /\ (actionPathMap ctx !! name = None ->
      LoadAction fuel name ctx
      = Some (inl (errorString ("Action definition of `" +:+ name +:+ "` is not found")),
              ctx))
  /\ (forall path e, ReadFile path = inl e ->
        (srvPathMap ctx !! name = Some path ->
         LoadSrv fuel name ctx = Some (inl (errorString e), ctx))
        /\ (actionPathMap ctx !! name = Some path ->
            LoadAction fuel name ctx = Some (inl (errorString e), ctx)))
  /\ (forall spec ctx', LoadSrv fuel name ctx = Some (inr spec, ctx') ->
        (exists path, srvPathMap ctx !! name = Some path
                      /\ ReadFile path = inr (Srv_Text spec))
        /\ forall (Sys' : System) (fuel' : nat),
             LoadMsg (Sys := Sys') fuel' (name +:+ "Request") ctx'
             = Some (inr (Request spec), ctx')
             /\ LoadMsg (Sys := Sys') fuel' (name +:+ "Response") ctx'
                = Some (inr (Response spec), ctx'))
  /\ (forall spec ctx', LoadAction fuel name ctx = Some (inr spec, ctx') ->
        (exists path, actionPathMap ctx !! name = Some path
                      /\ ReadFile path = inr (Action_Text spec))
        /\ forall (Sys' : System) (fuel' : nat),
             LoadMsg (Sys := Sys') fuel' (name +:+ "ActionGoal") ctx'
             = Some (inr (ActionGoal spec), ctx')
             /\ LoadMsg (Sys := Sys') fuel' (name +:+ "ActionFeedback") ctx'
                = Some (inr (ActionFeedback spec), ctx')
             /\ LoadMsg (Sys := Sys') fuel' (name +:+ "ActionResult") ctx'
                = Some (inr (ActionResult spec), ctx')).
Proof.
  unfold LoadSrv, LoadAction, LoadSrvFromFile, LoadActionFromFile.
  split; [by intros ->|]. split; [by intros ->|]. split; [|split].
  - intros path e He. split; intros ->; by rewrite He.
  - intros spec ctx'. destruct (srvPathMap ctx !! name) as [path|]; [|discriminate].
    destruct (ReadFile path) as [e|text] eqn:Hfile; [discriminate|].
    intros H. apply LoadSrvFromString_registry in H as (Ht & Hq & Hp).
    split; [exists path; by rewrite Ht|].
    intros Sys' fuel'. unfold LoadMsg, LoadMsg_in. by rewrite Hq, Hp.
  - intros spec ctx'. destruct (actionPathMap ctx !! name) as [path|]; [|discriminate].
    destruct (ReadFile path) as [e|text] eqn:Hfile; [discriminate|].
    intros H. apply LoadActionFromString_registry in H as (Ht & _ & Hg & _ & Hf & _ & Hr).
    split; [exists path; by rewrite Ht|].
    intros Sys' fuel'. unfold LoadMsg, LoadMsg_in. by rewrite Hg, Hf, Hr.
Qed.

End Context.

(** X14.  A message that [LoadMsg] or [LoadMsgFromString] has returned
    is registered under its name, whatever was registered there
    before; from then on [LoadMsg] returns that spec for the name
    without changing the context and without reading a file, on any
    file system. *)
Theorem LoadMsg_cached `{Par : Parsing} `{Sys : System} (fuel : nat)
    (text name : string) (ctx ctx' : MsgContext) (spec : MsgSpec) :
  LoadMsg fuel name ctx = Some (inr spec, ctx')
  \/ LoadMsgFromString fuel text name ctx = Some (inr spec, ctx') ->
  msgRegistry ctx' !! name = Some spec
  /\ forall (Sys' : System) (fuel' : nat),
       LoadMsg (Sys := Sys') fuel' name ctx' = Some (inr spec, ctx').
Proof.
  intros H.
  assert (Hl : msgRegistry ctx' !! name = Some spec).
  { destruct H as [H|H].
    - apply LoadMsg_in_result in H as [_ H]; [done|apply ComputeMD5Text_result].
    - by apply LoadMsgFromString_registry in H as [H _]. }
  split; [done|]. intros Sys' fuel'. unfold LoadMsg, LoadMsg_in. by rewrite Hl.
Qed.

(** *** Finding the definitions *)

Section Packages.
Context `{Dirs : Directories}.

Lemma addDefinitions_over (pkgType pkgName : string) (msgPaths : list string) :
  forall acc,
    addDefinitions pkgType pkgName msgPaths acc
    = (fun d => d ∪ acc) <$> addDefinitions pkgType pkgName msgPaths ∅.
Proof.
  induction msgPaths as [|m msgPaths IH]; intros acc; simpl.
  { by rewrite (left_id_L ∅ (∪)). }
  destruct (String.length (filepath_Base m) <? String.length pkgType + 1)%nat; [done|].
  rewrite IH, (IH (<[_ := m]> ∅)).
  destruct (addDefinitions pkgType pkgName msgPaths ∅) as [d|]; simpl; [|done].
  by rewrite insert_empty, (insert_union_singleton_l acc), (assoc_L (∪)).
Qed.

Lemma addPackages_over (pkgType p : string) (files : list FileInfo) :
  forall acc,
    addPackages pkgType p files acc
    = (fun d => d ∪ acc) <$> addPackages pkgType p files ∅.
Proof.
  induction files as [|f files IH]; intros acc; simpl.
  { by rewrite (left_id_L ∅ (∪)). }
  destruct (negb (IsDir f)); [apply IH|].
  destruct (isRosPackage _); [|apply IH].
  destruct (Glob _) as [e|msgPaths]; [apply IH|].
  rewrite addDefinitions_over.
  destruct (addDefinitions pkgType _ msgPaths ∅) as [d|]; simpl; [|done].
  rewrite IH, (IH d).
  destruct (addPackages pkgType p files ∅) as [d'|]; simpl; [|done].
  by rewrite (assoc_L (∪)).
Qed.

Lemma addPaths_over (pkgType : string) (rosPkgPaths : list string) :
  forall acc,
    addPaths pkgType rosPkgPaths acc
    = (fun d => d ∪ acc) <$> addPaths pkgType rosPkgPaths ∅.
Proof.
  induction rosPkgPaths as [|p rosPkgPaths IH]; intros acc; simpl.
  { by rewrite (left_id_L ∅ (∪)). }
  destruct (ReadDir p) as [e|files]; [apply IH|].
  rewrite addPackages_over.
  destruct (addPackages pkgType p files ∅) as [d|]; simpl; [|done].
  rewrite IH, (IH d).
  destruct (addPaths pkgType rosPkgPaths ∅) as [d'|]; simpl; [|done].
  by rewrite (assoc_L (∪)).
Qed.

Lemma addPaths_app (pkgType : string) (first second : list string) :
  forall acc,
    addPaths pkgType (first ++ second) acc
    = match addPaths pkgType first acc with
      | None => None
      | Some pkgs => addPaths pkgType second pkgs
      end.
Proof.
  induction first as [|p first IH]; intros acc; simpl; [done|].
  destruct (ReadDir p) as [e|files]; [apply IH|].
  destruct (addPackages pkgType p files acc); [apply IH|done].
Qed.

(** X23.  Searching two lists of package paths one after the other:
    the definitions of both are found, and a name that is found under
    both gets the file of the second list, so that a later path hides
    an earlier one.  [findPackages] returns no error. *)
Theorem findPackages_app (pkgType : string) (first second : list string) :
  findPackages pkgType (first ++ second)
  = match findPackages pkgType first, findPackages pkgType second with
    | Some (inr a), Some (inr b) => Some (inr (b ∪ a))
    | _, _ => None
    end.
Proof.
  unfold findPackages. rewrite addPaths_app.
  destruct (addPaths pkgType first ∅) as [a|]; [|done].
  rewrite addPaths_over. by destruct (addPaths pkgType second ∅).
Qed.

Lemma addDefinitions_entries (pkgType pkgName : string) (msgPaths : list string) :
  forall acc d,
    addDefinitions pkgType pkgName msgPaths acc = Some d ->
    (forall k v, d !! k = Some v ->
       acc !! k = Some v \/ (v ∈ msgPaths /\ k = definitionName pkgType pkgName v))
    /\ (forall k, is_Some (acc !! k)
                  \/ (exists m, m ∈ msgPaths /\ k = definitionName pkgType pkgName m) ->
          is_Some (d !! k)).
Proof.
  induction msgPaths as [|m msgPaths IH]; intros acc d; simpl.
  { intros [= <-]. split; [by left|].
    intros k [H|(m & Hm & _)]; [done|]. by apply elem_of_nil in Hm. }
  destruct (String.length (filepath_Base m) <? String.length pkgType + 1)%nat;
    [discriminate|].
  intros H. apply IH in H as [HS HC]. split.
  - intros k v Hd. apply HS in Hd as [Hacc|(Hin & Hk)].
    + destruct (decide (k = definitionName pkgType pkgName m)) as [->|Hne].
      * rewrite lookup_insert_eq in Hacc. injection Hacc as <-.
        right. split; [apply list_elem_of_here | done].
      * rewrite lookup_insert_ne in Hacc by done. by left.
    + right. split; [by apply list_elem_of_further | done].
  - intros k Hk. apply HC.
    destruct (decide (k = definitionName pkgType pkgName m)) as [->|Hne].
    { left. rewrite lookup_insert_eq. eauto. }
    destruct Hk as [Hacc|(m' & Hm' & Hk)].
    + left. by rewrite lookup_insert_ne.
    + apply elem_of_cons in Hm' as [->|Hm']; [done|]. right. eauto.
Qed.

Lemma foundIn_cons (pkgType p : string) (f : FileInfo) (files : list FileInfo)
    (k v : string) :
  foundIn pkgType p (f :: files) k v <->
  (IsDir f = true /\ isRosPackage (filepath_Join p (File_Name f)) = true
   /\ exists msgPaths,
        Glob (filepath_Join (filepath_Join p (File_Name f)) pkgType
              +:+ "/*." +:+ pkgType) = inr msgPaths
        /\ v ∈ msgPaths
        /\ k = definitionName pkgType (filepath_Base (filepath_Join p (File_Name f))) v)
  \/ foundIn pkgType p files k v.
Proof.
  unfold foundIn. split.
  - intros (g & msgPaths & Hg & Hd & Hr & Hglob & Hv & Hk).
    apply elem_of_cons in Hg as [->|Hg].
    + left. split; [done|]. split; [done|]. by exists msgPaths.
    + right. by exists g, msgPaths.
  - intros [(Hd & Hr & msgPaths & Hglob & Hv & Hk)|(g & msgPaths & Hg & H)].
    + exists f, msgPaths. split; [apply list_elem_of_here | done].
    + exists g, msgPaths. split; [by apply list_elem_of_further | done].
Qed.

Lemma addPackages_entries (pkgType p : string) (files : list FileInfo) :
  forall acc d,
    addPackages pkgType p files acc = Some d ->
    (forall k v, d !! k = Some v -> acc !! k = Some v \/ foundIn pkgType p files k v)
    /\ (forall k, is_Some (acc !! k) \/ (exists v, foundIn pkgType p files k v) ->
          is_Some (d !! k)).
Proof.
  induction files as [|f files IH]; intros acc d; simpl.
  { intros [= <-]. split; [by left|].
    intros k [H|(v & g & msgPaths & Hg & _)]; [done|]. by apply elem_of_nil in Hg. }
  assert (Hskip :
    (IsDir f = false \/ isRosPackage (filepath_Join p (File_Name f)) = false
     \/ exists e, Glob (filepath_Join (filepath_Join p (File_Name f)) pkgType
                        +:+ "/*." +:+ pkgType) = inl e) ->
    addPackages pkgType p files acc = Some d ->
    (forall k v, d !! k = Some v ->
       acc !! k = Some v \/ foundIn pkgType p (f :: files) k v)
    /\ (forall k, is_Some (acc !! k) \/ (exists v, foundIn pkgType p (f :: files) k v) ->
          is_Some (d !! k))).
  { intros Hno H. apply IH in H as [HS HC]. split.
    - intros k v Hd. apply HS in Hd as [?|?]; [by left|].
      right. apply foundIn_cons. by right.
    - intros k [Hacc|(v & Hv)]; apply HC; [by left|].
      apply foundIn_cons in Hv as [(Hd & Hr & msgPaths & Hglob & _)|Hv]; [|eauto].
      destruct Hno as [Hno|[Hno|(e & Hno)]]; congruence. }
  destruct (IsDir f) eqn:Hd; simpl; [|apply Hskip; by left].
  destruct (isRosPackage _) eqn:Hr; [|apply Hskip; right; by left].
  destruct (Glob _) as [e|msgPaths] eqn:Hglob; [apply Hskip; right; right; eauto|].
  destruct (addDefinitions pkgType _ msgPaths acc) as [d1|] eqn:Hadd; [|discriminate].
  apply addDefinitions_entries in Hadd as [HS1 HC1].
  intros H. apply IH in H as [HS HC]. split.
  - intros k v Hk. apply HS in Hk as [Hk|Hk].
    + apply HS1 in Hk as [Hk|(Hv & Hk)]; [by left|].
      right. apply foundIn_cons. left. split; [done|]. split; [done|].
      by exists msgPaths.
    + right. apply foundIn_cons. by right.
  - intros k [Hacc|(v & Hv)]; apply HC.
    + left. apply HC1. by left.
    + apply foundIn_cons in Hv as [(_ & _ & msgPaths' & Hglob' & Hv & Hk)|Hv]; [|eauto].
      left. apply HC1. right. exists v. split; [|done]. congruence.
Qed.

Lemma addPaths_entries (pkgType : string) (rosPkgPaths : list string) :
  forall acc d,
    addPaths pkgType rosPkgPaths acc = Some d ->
    (forall k v, d !! k = Some v -> acc !! k = Some v \/ found pkgType rosPkgPaths k v)
    /\ (forall k, is_Some (acc !! k) \/ (exists v, found pkgType rosPkgPaths k v) ->
          is_Some (d !! k)).
Proof.
  induction rosPkgPaths as [|p rosPkgPaths IH]; intros acc d; simpl.
  { intros [= <-]. split; [by left|].
    intros k [H|(v & q & files & Hq & _)]; [done|]. by apply elem_of_nil in Hq. }
  assert (Hfound : forall k v,
    found pkgType (p :: rosPkgPaths) k v <->
    (exists files, ReadDir p = inr files /\ foundIn pkgType p files k v)
    \/ found pkgType rosPkgPaths k v).
  { intros k v. unfold found. split.
    - intros (q & files & Hq & Hread & Hin).
      apply elem_of_cons in Hq as [->|Hq]; [left; eauto|right; eauto].
    - intros [(files & Hread & Hin)|(q & files & Hq & H)].
      + exists p, files. split; [apply list_elem_of_here | done].
      + exists q, files. split; [by apply list_elem_of_further | done]. }
  destruct (ReadDir p) as [e|files] eqn:Hread.
  { intros H. apply IH in H as [HS HC]. split.
    - intros k v Hd. apply HS in Hd as [?|?]; [by left|]. right. apply Hfound. by right.
    - intros k [Hacc|(v & Hv)]; apply HC; [by left|].
      apply Hfound in Hv as [(files & Hread' & _)|Hv]; [discriminate|eauto]. }
  destruct (addPackages pkgType p files acc) as [d1|] eqn:Hadd; [|discriminate].
  apply addPackages_entries in Hadd as [HS1 HC1].
  intros H. apply IH in H as [HS HC]. split.
  - intros k v Hk. apply HS in Hk as [Hk|Hk].
    + apply HS1 in Hk as [Hk|Hk]; [by left|]. right. apply Hfound. left. eauto.
    + right. apply Hfound. by right.
  - intros k [Hacc|(v & Hv)]; apply HC.
    + left. apply HC1. by left.
    + apply Hfound in Hv as [(files' & Hread' & Hv)|Hv]; [|eauto].
      left. apply HC1. right. exists v. congruence.
Qed.

Lemma findPackages_absent (pkgType : string) (rosPkgPaths : list string)
    (pkgs : gmap string string) :
  findPackages pkgType rosPkgPaths = Some (inr pkgs) ->
  forall fullname, pkgs !! fullname = None ->
    forall m, ~ found pkgType rosPkgPaths fullname m.
Proof.
  unfold findPackages.
  destruct (addPaths pkgType rosPkgPaths ∅) as [d|] eqn:H; [|discriminate].
  intros [= <-] fullname Hnone m Hm. apply addPaths_entries in H as [_ HC].
  destruct (HC fullname) as [x Hx]; [right; eauto|]. congruence.
Qed.

(** X24.  What [findPackages] returns has an entry for a name exactly
    when a file of the kind asked for, as the glob gives it, lies in
    the directory of that kind of a ROS package (a directory with a
    [package.xml]) directly under one of the paths that can be read;
    the name is the base name of the package directory, a slash, and
    the base name of the file without the dot and the extension; and
    the entry is such a file. *)
Theorem findPackages_entries (pkgType : string) (rosPkgPaths : list string)
    (pkgs : gmap string string) :
  findPackages pkgType rosPkgPaths = Some (inr pkgs) ->
  (forall fullname m, pkgs !! fullname = Some m -> found pkgType rosPkgPaths fullname m)
  /\ (forall fullname,
        is_Some (pkgs !! fullname) <-> exists m, found pkgType rosPkgPaths fullname m).
Proof.
  unfold findPackages.
  destruct (addPaths pkgType rosPkgPaths ∅) as [d|] eqn:H; [|discriminate].
  intros [= <-]. apply addPaths_entries in H as [HS HC].
  assert (Hsound : forall fullname m,
    d !! fullname = Some m -> found pkgType rosPkgPaths fullname m).
  { intros fullname m Hm. by apply HS in Hm as [Hm|Hm]. }
  split; [done|]. intros fullname. split.
  - intros [m Hm]. exists m. by apply Hsound.
  - intros Hm. apply HC. by right.
Qed.

(** X25.  [NewMsgContext] returns no error: when it returns, it is
    with a context whose registry is empty and whose three path maps
    are what [findPackages] finds for [msg], [srv] and [action] under
    the same paths.  In that context [LoadMsg] reports a name as not
    found when no message file was found for it, and a spec that it
    returns has the text of a file that was found for the name. *)
Theorem NewMsgContext_result `{Par : Parsing} `{Sys : System}
    (rosPkgPaths : list string) (r : Fallible MsgContext) :
  NewMsgContext rosPkgPaths = Some r ->
  exists ctx,
    r = inr ctx /\ msgRegistry ctx = ∅
    /\ findPackages "msg" rosPkgPaths = Some (inr (msgPathMap ctx))
    /\ findPackages "srv" rosPkgPaths = Some (inr (srvPathMap ctx))
    /\ findPackages "action" rosPkgPaths = Some (inr (actionPathMap ctx))
    /\ forall fuel name,
         ((forall m, ~ found "msg" rosPkgPaths name m) ->
          LoadMsg fuel name ctx
          = Some (inl (errorString
                         ("Message definition of `" +:+ name +:+ "` is not found")), ctx))
         /\ (forall spec ctx', LoadMsg fuel name ctx = Some (inr spec, ctx') ->
               exists m, found "msg" rosPkgPaths name m /\ ReadFile m = inr (Text spec)).
Proof.
  unfold NewMsgContext, findAllMessages, findAllServices, findAllActions, findPackages.
  destruct (addPaths "msg" rosPkgPaths ∅) as [msgs|] eqn:Hmsgs; [|discriminate].
  destruct (addPaths "srv" rosPkgPaths ∅) as [srvs|]; [|discriminate].
  destruct (addPaths "action" rosPkgPaths ∅) as [acts|]; [|discriminate].
  intros [= <-]. eexists. split; [reflexivity|]. simpl.
  repeat (split; [done|]).
  apply addPaths_entries in Hmsgs as [HS HC].
  intros fuel name. split.
  - intros Hnone. apply LoadMsg_not_found; simpl; [done|].
    destruct (msgs !! name) as [m|] eqn:Hm; [|done].
    apply HS in Hm as [Hm|Hm]; [done|]. by destruct (Hnone m).
  - intros spec ctx'. unfold LoadMsg, LoadMsg_in. simpl. rewrite lookup_empty.
    destruct (msgs !! name) as [m|] eqn:Hm; [|discriminate].
    apply HS in Hm as [Hm|Hm]; [done|].
    intros H. apply bind_returns in H as (spec1 & c1 & Hfile & H).
    apply bind_returns in H as ([] & c2 & _ & H). apply ret_returns in H as [-> _].
    unfold LoadMsgFromFile_in in Hfile.
    destruct (ReadFile m) as [e|text] eqn:Hread; [discriminate|].
    apply (LoadMsgFromString_returns fuel) in Hfile as (-> & _).
    by exists m.
Qed.

End Packages.

End context_extra.

(** ** The further theorems at concrete inputs *)

Module extra_examples.

Import strings ros gengo helpers strings_facts node_facts context_facts helpers_facts.
Import node_extra context_extra.

#[local] Existing Instance exampleEnvironment.

(** The case that the computation rules out. *)
Ltac ruled_out := try (intros F; exact (False_ind _ F)).

(** Membership in a list that is written out. *)
Ltac elem_of_list :=
  repeat first [apply list_elem_of_here | apply list_elem_of_further].

(** *** The node *)


Lemma newDefaultNode_host_witness :
  match newDefaultNode "talker" ["__ip:=127.0.0.5"] world0 with
  | (Return (inr node), _) =>
      hostname node = "127.0.0.5" /\ listenIP node = "127.0.0.1"
  | _ => False
  end.
Proof.
  assert (F : match newDefaultNode "talker" ["__ip:=127.0.0.5"] world0 with
              | (Return (inr node), _) => True
              | _ => False
              end) by (vm_compute; done).
  revert F.
  destruct (newDefaultNode "talker" ["__ip:=127.0.0.5"] world0)
    as [[[e|node]| |] w'] eqn:E; ruled_out.
  intros _.
  destruct (newDefaultNode_host "talker" ["__ip:=127.0.0.5"] world0 w' node E)
    as (_ & Hip & _).
  destruct (Hip eq_refl "127.0.0.5" eq_refl) as [Hhost Hloop].
  split; [exact Hhost|]. apply Hloop. right. reflexivity.
Defined.

Lemma requestTopic_failures_witness :
  match newDefaultNode "talker" [] world0 with
  | (Return (inr node), w) =>
      match NewPublisherWithCallbacks node "/chatter" "std_msgs/String" None None w with
      | (Return (node1, pub), _) =>
          requestTopic node1 "/listener" "/chatter"
            [Array [Str "UDPROS"; Int 1500]; Str "TCPROS"; Array [Str "TCPROS"]]
          = Panic
      | _ => False
      end
  | _ => False
  end.
Proof.
  assert (F :
    match newDefaultNode "talker" [] world0 with
    | (Return (inr node), w) =>
        match NewPublisherWithCallbacks node "/chatter" "std_msgs/String" None None w with
        | (Return (node1, pub), _) => publishers node1 !! "/chatter" = Some pub
        | _ => False
        end
    | _ => False
    end) by (vm_compute; done).
  revert F.
  destruct (newDefaultNode "talker" [] world0) as [[[e|node]| |] w]; ruled_out.
  destruct (NewPublisherWithCallbacks node "/chatter" "std_msgs/String" None None w)
    as [[[node1 pub]| |] w1]; ruled_out.
  intros Hpub.
  assert (Hudp : otherProtocol (Array [Str "UDPROS"; Int 1500])).
  { exists "UDPROS", [Int 1500]. by split. }
  destruct (requestTopic_failures node1 "/listener" "/chatter" pub
              [Array [Str "UDPROS"; Int 1500]] [Array [Str "TCPROS"]] (Str "TCPROS") Hpub)
    as [Hpanic _]; [by constructor|].
  apply Hpanic. intros (name' & params' & Hv). discriminate.
Defined.

Lemma publisherUpdate_contract_witness :
  match newDefaultNode "listener" [] world0 with
  | (Return (inr node), w) =>
      match NewSubscriber node "/chatter" "std_msgs/String" 1 w with
      | (Return (node1, sub1), _) =>
          (exists node2 sub2,
             publisherUpdate node1 "/master" "/chatter" [Str "http://talker:40001"]
             = Return (node2, inr (Array [Int 1; Str "Success"; Int 0]))
             /\ subscribers node2 !! "/chatter" = Some sub2
             /\ pubListChan sub2 = pubListChan sub1 ++ [["http://talker:40001"]])
          /\ publisherUpdate node1 "/master" "/rosout" [Str "http://talker:40001"]
             = Return (node1, inr (Array [Int 0; Str "No such topic"; Int 0]))
          /\ publisherUpdate node1 "/master" "/chatter" [Str "http://talker:40001"; Int 7]
             = Panic
      | _ => False
      end
  | _ => False
  end.
Proof.
  assert (F :
    match newDefaultNode "listener" [] world0 with
    | (Return (inr node), w) =>
        match NewSubscriber node "/chatter" "std_msgs/String" 1 w with
        | (Return (node1, sub1), _) =>
            subscribers node1 !! "/chatter" = Some sub1
            /\ subscribers node1 !! "/rosout" = None
        | _ => False
        end
    | _ => False
    end) by (vm_compute; done).
  revert F.
  destruct (newDefaultNode "listener" [] world0) as [[[e|node]| |] w]; ruled_out.
  destruct (NewSubscriber node "/chatter" "std_msgs/String" 1 w)
    as [[[node1 sub1]| |] w1]; ruled_out.
  intros (Hsub & Hnone).
  split; [|split].
  - destruct (publisherUpdate_contract node1 "/master" "/chatter"
                [Str "http://talker:40001"]) as [_ H].
    destruct (H sub1 Hsub) as [Hok _].
    destruct (Hok ["http://talker:40001"] eq_refl)
      as (node2 & sub2 & Hcall & Hsub2 & Hchan & _).
    by exists node2, sub2.
  - destruct (publisherUpdate_contract node1 "/master" "/rosout"
                [Str "http://talker:40001"]) as [H _]. by apply H.
  - destruct (publisherUpdate_contract node1 "/master" "/chatter"
                [Str "http://talker:40001"; Int 7]) as [_ H].
    destruct (H sub1 Hsub) as [_ Hpanic].
    apply (Hpanic ["http://talker:40001"] (Int 7) []); [reflexivity|]. discriminate.
Defined.

Lemma NewSubscriber_new_topic_witness :
  match newDefaultNode "listener" ["chatter:=/t"] world0 with
  | (Return (inr node), w) =>
      exists node1 sub1 w1,
        NewSubscriber node "chatter" "std_msgs/String" 1 w = (Return (node1, sub1), w1)
        /\ sub1 = {| sub_topic := "/t"; sub_msgType := "std_msgs/String";
                     callbacks := [1]; pubListChan := [[]] |}
        /\ exists node2 sub2,
             NewSubscriber node1 "chatter" "std_msgs/Int32" 2 w1
             = (Return (node2, sub2), w1)
             /\ callbacks sub2 = [1; 2]
             /\ sub_msgType sub2 = "std_msgs/String"
  | _ => False
  end.
Proof.
  assert (F :
    match newDefaultNode "listener" ["chatter:=/t"] world0 with
    | (Return (inr node), w) =>
        subscribers node !! resolver_remap (resolver node) "chatter" = None
        /\ resolver_remap (resolver node) "chatter" = "/t"
    | _ => False
    end) by (vm_compute; done).
  revert F.
  destruct (newDefaultNode "listener" ["chatter:=/t"] world0) as [[[e|node]| |] w];
    ruled_out.
  intros (Hnone & Hremap).
  assert (Hok : master (calls w) (registerSubscriberCall node "chatter" "std_msgs/String")
                = inr (Array (map Str []))) by reflexivity.
  destruct (NewSubscriber_new_topic node "chatter" "std_msgs/String" 1 w [] Hnone Hok)
    as (node1 & sub1 & Hcall & Hsub & _ & _ & Hsecond).
  destruct (Hsecond "std_msgs/Int32" 2) as (node2 & sub2 & Hcall2 & Hcb & Hty & _).
  rewrite Hremap in Hsub.
  eexists node1, sub1, _. split; [exact Hcall|]. split; [exact Hsub|].
  by exists node2, sub2.
Defined.

Lemma NewSubscriber_registration_fails_witness :
  match newDefaultNode (Env := refusingEnvironment) "listener" [] world0 with
  | (Return (inr node), w) =>
      (NewSubscriber (Env := refusingEnvironment) node "/chatter" "std_msgs/String" 1 w).1
      = Exit
  | _ => False
  end.
Proof.
  assert (F :
    match newDefaultNode (Env := refusingEnvironment) "listener" [] world0 with
    | (Return (inr node), w) =>
        subscribers node !! resolver_remap (resolver node) "/chatter" = None
        /\ Fatal_exits (logger node) = true
    | _ => False
    end) by (vm_compute; done).
  revert F.
  destruct (newDefaultNode (Env := refusingEnvironment) "listener" [] world0)
    as [[[e|node]| |] w]; ruled_out.
  intros (Hnone & Hfatal).
  assert (Hrefused :
    master (Environment := refusingEnvironment) (calls w)
      (registerSubscriberCall node "/chatter" "std_msgs/String")
    = inl "dial tcp 127.0.0.1:11311: connect: connection refused") by reflexivity.
  rewrite (NewSubscriber_registration_fails (Env := refusingEnvironment) node "/chatter"
             "std_msgs/String" 1 w _ Hnone Hrefused).
  simpl. by rewrite Hfatal.
Defined.

Lemma NewPublisher_resolves_twice_witness :
  match newDefaultNode "talker" ["chatter:=/t"; "/t:=/u"] world0 with
  | (Return (inr node), w) =>
      exists node1 pub w1,
        NewPublisher node "chatter" "std_msgs/String" w = (Return (node1, pub), w1)
        /\ pub_topic pub = "/u"
        /\ publishers node1 = <["/u" := pub]> (publishers node)
  | _ => False
  end.
Proof.
  assert (F :
    match newDefaultNode "talker" ["chatter:=/t"; "/t:=/u"] world0 with
    | (Return (inr node), w) =>
        publishers node !! resolver_remap (resolver node) "chatter" = None
        /\ resolver_remap (resolver node) (resolver_remap (resolver node) "chatter") = "/u"
    | _ => False
    end) by (vm_compute; done).
  revert F.
  destruct (newDefaultNode "talker" ["chatter:=/t"; "/t:=/u"] world0)
    as [[[e|node]| |] w]; ruled_out.
  intros (Hnone & Htwice).
  destruct (NewPublisher_resolves_twice node "chatter" "std_msgs/String" w) as [_ H].
  destruct (H Hnone) as (node1 & pub & w1 & Hcall & _ & Hpubs & Htopic & _).
  { exists (Int 0). reflexivity. }
  rewrite Htwice in Hpubs, Htopic.
  by exists node1, pub, w1.
Defined.

Lemma keyedByTopic_kept_witness :
  match newDefaultNode "listener" [] world0 with
  | (Return (inr node), w) =>
      match NewSubscriber node "/chatter" "std_msgs/String" 1 w with
      | (Return (node1, _), _) => keyedByTopic node /\ keyedByTopic node1
      | _ => False
      end
  | _ => False
  end.
Proof.
  assert (F :
    match newDefaultNode "listener" [] world0 with
    | (Return (inr node), w) =>
        match NewSubscriber node "/chatter" "std_msgs/String" 1 w with
        | (Return (node1, _), _) => True
        | _ => False
        end
    | _ => False
    end) by (vm_compute; done).
  revert F.
  destruct (newDefaultNode "listener" [] world0) as [[[e|node]| |] w] eqn:E; ruled_out.
  destruct (NewSubscriber node "/chatter" "std_msgs/String" 1 w)
    as [[[node1 sub1]| |] w1] eqn:E1; ruled_out.
  intros _.
  destruct (keyedByTopic_kept (Pkg := package)) as (Hnew & _ & _ & Hsub & _).
  pose proof (Hnew _ _ _ _ _ E) as Hk.
  split; [exact Hk|]. exact (Hsub _ _ _ _ _ _ _ _ Hk E1).
Defined.

Lemma publications_and_subscriptions_listed_witness :
  match newDefaultNode "talker" [] world0 with
  | (Return (inr node), w) =>
      match NewPublisherWithCallbacks node "/chatter" "std_msgs/String" None None w with
      | (Return (node1, pub), _) =>
          exists pairs,
            getPublications node1 "/caller"
            = inr (Array [Int 1; Str "Success"; Array pairs])
            /\ length pairs = 1
            /\ Array [Str "/chatter"; Str "std_msgs/String"] ∈ pairs
      | _ => False
      end
  | _ => False
  end.
Proof.
  assert (F :
    match newDefaultNode "talker" [] world0 with
    | (Return (inr node), w) =>
        match NewPublisherWithCallbacks node "/chatter" "std_msgs/String" None None w with
        | (Return (node1, pub), _) =>
            publishers node1 !! "/chatter" = Some pub
            /\ Name (pub_msgType pub) = "std_msgs/String"
            /\ size (publishers node1) = 1
        | _ => False
        end
    | _ => False
    end) by (vm_compute; done).
  revert F.
  destruct (newDefaultNode "talker" [] world0) as [[[e|node]| |] w]; ruled_out.
  destruct (NewPublisherWithCallbacks node "/chatter" "std_msgs/String" None None w)
    as [[[node1 pub]| |] w1]; ruled_out.
  intros (Hpub & Hname & Hsize).
  destruct (publications_and_subscriptions_listed node1 "/caller")
    as [(pairs & Hget & Hlen & Hin & _) _].
  exists pairs. split; [exact Hget|]. split; [by rewrite Hlen|].
  rewrite <- Hname. by apply Hin.
Defined.

Lemma HasParam_SearchParam_results_witness :
  match newDefaultNode "talker" [] world0 with
  | (Return (inr node), w) =>
      (HasParam node "rate" w).1 = Panic
      /\ (HasParam (Env := refusingEnvironment) node "rate" w).1
         = Return (false, Some "dial tcp 127.0.0.1:11311: connect: connection refused")
  | _ => False
  end.
Proof.
  assert (F : match newDefaultNode "talker" [] world0 with
              | (Return (inr node), _) => True
              | _ => False
              end) by (vm_compute; done).
  revert F.
  destruct (newDefaultNode "talker" [] world0) as [[[e|node]| |] w]; ruled_out.
  intros _. split.
  - destruct (HasParam_SearchParam_results node "rate" w)
      as (_ & _ & _ & _ & _ & _ & Hpanic & _).
    apply (Hpanic (Int 0)); [reflexivity|]. discriminate.
  - destruct (HasParam_SearchParam_results (Env := refusingEnvironment) node "rate" w)
      as (_ & _ & Herr & _).
    by apply Herr.
Defined.

(** *** The message context *)

(** A spec with the field [foo/Bar x] of a message type that nobody
    knows. *)
Lemma ComputeMD5_never_fails_witness :
  let f := {| Field_Package := "foo"; Field_Type := "Bar"; Field_Name := "x";
              Field_Array := scalar |} in
  let spec := NewMsgSpec [f] [] "foo/Bar x" "pkg/M" "pkg" "M" in
  match ComputeMD5Text (Sys := system ∅) 1 spec emptyContext with
  | Some (r, _) => exists text, r = inr text
  | None => False
  end.
Proof.
  intros f spec.
  assert (F : match ComputeMD5Text (Sys := system ∅) 1 spec emptyContext with
              | Some _ => True
              | None => False
              end) by (vm_compute; done).
  revert F.
  destruct (ComputeMD5Text (Sys := system ∅) 1 spec emptyContext) as [[r c]|] eqn:E;
    ruled_out.
  intros _.
  exact (proj1 (ComputeMD5_never_fails (Sys := system ∅) 1 emptyContext c) spec r E).
Defined.

(** A context in which [actionlib_msgs/GoalID] is registered with
    another spec than its file gives: loading
    [actionlib_msgs/GoalStatus], which has a field of that type, from
    its file registers the second message, and the registered spec of
    the first stays. *)
Lemma LoadMsg_keeps_the_registry_witness :
  match LoadMsgFromString (Sys := system actionFiles) 1 "int32 x"
          "actionlib_msgs/GoalID" actionContext with
  | Some (inr goalID, ctx1) =>
      match LoadMsg (Sys := system actionFiles) 2 "actionlib_msgs/GoalStatus" ctx1 with
      | Some (_, ctx2) =>
          keeps ctx1 ctx2
          /\ msgRegistry ctx1 !! "actionlib_msgs/GoalID" = Some goalID
          /\ msgRegistry ctx2 !! "actionlib_msgs/GoalID" = Some goalID
          /\ size (msgRegistry ctx1) = 1 /\ size (msgRegistry ctx2) = 2
      | None => False
      end
  | _ => False
  end.
Proof.
  assert (F :
    match LoadMsgFromString (Sys := system actionFiles) 1 "int32 x"
            "actionlib_msgs/GoalID" actionContext with
    | Some (inr goalID, ctx1) =>
        match LoadMsg (Sys := system actionFiles) 2 "actionlib_msgs/GoalStatus" ctx1 with
        | Some (_, ctx2) =>
            msgRegistry ctx1 !! "actionlib_msgs/GoalID" = Some goalID
            /\ size (msgRegistry ctx1) = 1 /\ size (msgRegistry ctx2) = 2
        | None => False
        end
    | _ => False
    end) by (vm_compute; done).
  revert F.
  destruct (LoadMsgFromString (Sys := system actionFiles) 1 "int32 x"
              "actionlib_msgs/GoalID" actionContext) as [[[e|goalID] ctx1]|]; ruled_out.
  destruct (LoadMsg (Sys := system actionFiles) 2 "actionlib_msgs/GoalStatus" ctx1)
    as [[r ctx2]|] eqn:E; ruled_out.
  intros (Hreg & Hsize1 & Hsize2).
  destruct (LoadMsg_keeps_the_registry (Sys := system actionFiles) 2 ctx1 ctx2)
    as (_ & _ & H).
  pose proof (proj1 (H _ r E)) as Hkeeps.
  split; [exact Hkeeps|]. split; [exact Hreg|].
  split; [|exact (conj Hsize1 Hsize2)].
  exact (lookup_weaken _ _ _ _ Hreg (proj1 Hkeeps)).
Defined.

Lemma LoadMsg_cached_witness :
  match LoadMsg (Sys := system actionFiles) 2 "actionlib_msgs/GoalStatus" actionContext with
  | Some (inr spec, ctx') =>
      LoadMsg (Sys := system ∅) 0 "actionlib_msgs/GoalStatus" ctx' = Some (inr spec, ctx')
  | _ => False
  end.
Proof.
  assert (F : match LoadMsg (Sys := system actionFiles) 2 "actionlib_msgs/GoalStatus"
                      actionContext with
              | Some (inr _, _) => True
              | _ => False
              end) by (vm_compute; done).
  revert F.
  destruct (LoadMsg (Sys := system actionFiles) 2 "actionlib_msgs/GoalStatus" actionContext)
    as [[[e|spec] c]|] eqn:E; ruled_out.
  intros _.
  destruct (LoadMsg_cached (Sys := system actionFiles) 2 EmptyString
              "actionlib_msgs/GoalStatus" actionContext c spec (or_introl E)) as [_ H].
  apply H.
Defined.

Lemma LoadMsgFromString_errors_witness :
  match LoadMsgFromString (Sys := system ∅) 1 "# two fields

int32 a
int32
int32 c" "pkg/M" emptyContext with
  | Some (inl e, ctx') =>
      ctx' = emptyContext /\ e = SyntaxError "pkg/M" 3 "Invalid field line: int32"
  | _ => False
  end.
Proof.
  assert (F : match LoadMsgFromString (Sys := system ∅) 1 "# two fields

int32 a
int32
int32 c" "pkg/M" emptyContext with
              | Some (inl e, _) => e = SyntaxError "pkg/M" 3 "Invalid field line: int32"
              | _ => False
              end) by (vm_compute; done).
  revert F.
  destruct (LoadMsgFromString (Sys := system ∅) 1 "# two fields

int32 a
int32
int32 c" "pkg/M" emptyContext) as [[[e|spec] c]|] eqn:E; ruled_out.
  intros He. split; [|exact He].
  exact (proj1 (LoadMsgFromString_errors (Sys := system ∅) _ _ _ _ _ _ E)).
Defined.

Lemma fields_and_constants_by_kind_witness :
  match LoadMsgFromString (Sys := system ∅) 1 "int32 X=1
int32 a
int32 Y=2
int32 b" "pkg/M" emptyContext with
  | Some (inr spec, _) =>
      exists spec2 ctx2,
        LoadMsgFromString (Sys := system ∅) 1 "int32 a
# the constants
int32 b
int32 X=1

int32 Y=2" "pkg/M" emptyContext = Some (inr spec2, ctx2)
        /\ Fields spec2 = Fields spec /\ Constants spec2 = Constants spec
        /\ MD5Sum spec2 = MD5Sum spec
  | _ => False
  end.
Proof.
  assert (F : match LoadMsgFromString (Sys := system ∅) 1 "int32 X=1
int32 a
int32 Y=2
int32 b" "pkg/M" emptyContext with
              | Some (inr _, _) => True
              | _ => False
              end) by (vm_compute; done).
  revert F.
  destruct (LoadMsgFromString (Sys := system ∅) 1 "int32 X=1
int32 a
int32 Y=2
int32 b" "pkg/M" emptyContext) as [[[e|spec] c]|] eqn:E; ruled_out.
  intros _.
  destruct (fields_and_constants_by_kind (Sys := system ∅) _ _ _ _ _ _ E) as (_ & _ & H).
  apply H; vm_compute; reflexivity.
Defined.

(** [std_msgs/String] *)
Lemma ComputeMD5Text_builtin_witness :
  let f := {| Field_Package := EmptyString; Field_Type := "string"; Field_Name := "data";
              Field_Array := scalar |} in
  let spec := NewMsgSpec [f] [] "string data" "std_msgs/String" "std_msgs" "String" in
  ComputeMD5Text (Sys := system ∅) 1 spec emptyContext
  = Some (inr "string data", emptyContext)
  /\ ComputeMsgMD5 (Sys := system ∅) 1 spec emptyContext
     = Some (inr "992ce8a1687cec8c8bd883ec73ca41d1", emptyContext).
Proof.
  intros f spec.
  assert (Hb : Forall builtin (Fields spec)).
  { constructor; [reflexivity | constructor]. }
  exact (ComputeMD5Text_builtin (Sys := system ∅) 0 spec emptyContext Hb).
Defined.

(** A message with a [Header], after [std_msgs/Header] was loaded. *)
Lemma ComputeMD5Text_registered_fields_witness :
  let header := {| Field_Package := "std_msgs"; Field_Type := "Header";
                   Field_Name := "header"; Field_Array := scalar |} in
  let data := {| Field_Package := EmptyString; Field_Type := "string";
                 Field_Name := "data"; Field_Array := scalar |} in
  let spec := NewMsgSpec [header; data] [] "Header header
string data" "pkg/Stamped" "pkg" "Stamped" in
  match LoadMsgFromString (Sys := system ∅) 1 Header_msg "std_msgs/Header" emptyContext with
  | Some (inr _, ctx) =>
      ComputeMD5Text (Sys := system ∅) 2 spec ctx
      = Some (inr "2176decaecbce78abc3b96ef049fabed header
string data", ctx)
  | _ => False
  end.
Proof.
  intros header data spec.
  assert (F :
    match LoadMsgFromString (Sys := system ∅) 1 Header_msg "std_msgs/Header"
            emptyContext with
    | Some (inr _, ctx) =>
        match msgRegistry ctx !! "std_msgs/Header" with
        | Some sub =>
            forallb (fun f => String.eqb (Field_Package f) EmptyString) (Fields sub) = true
            /\ Trim1 (concatText (map constantLineText (Constants spec))
                      +:+ concatText (map (includedLine (Sys := system ∅) ctx)
                                        (Fields spec))) "010"%char
               = "2176decaecbce78abc3b96ef049fabed header
string data"
        | None => False
        end
    | _ => False
    end) by (vm_compute; done).
  revert F.
  destruct (LoadMsgFromString (Sys := system ∅) 1 Header_msg "std_msgs/Header"
              emptyContext) as [[[e|loaded] ctx]|]; ruled_out.
  destruct (msgRegistry ctx !! "std_msgs/Header") as [sub|] eqn:Hreg; ruled_out.
  intros (Hall & Htext).
  assert (Hb : Forall builtin (Fields sub)).
  { apply Is_true_true_2 in Hall. apply forallb_True in Hall.
    eapply Forall_impl; [exact Hall|]. intros f Hf. apply Is_true_true_1 in Hf.
    by apply String.eqb_eq. }
  assert (Hflat : Forall (flatField ctx) (Fields spec)).
  { constructor; [right; by exists sub|]. constructor; [by left | constructor]. }
  destruct (ComputeMD5Text_registered_fields (Sys := system ∅) 0 spec ctx Hflat)
    as [Ht _].
  rewrite Ht. by rewrite Htext.
Defined.

Lemma LoadMsg_self_including_witness :
  LoadMsg (Sys := system selfFiles) 1 "pkg/Node" selfContext = None
  /\ LoadMsg (Sys := system selfFiles) 1000 "pkg/Node" selfContext = None.
Proof.
  assert (H : forall fuel,
    LoadMsg (Sys := system selfFiles) fuel "pkg/Node" selfContext = None);
    [|exact (conj (H 1) (H 1000))].
  intros fuel.
  apply (LoadMsg_self_including (Sys := system selfFiles)
           "pkg/Node" "/ws/src/pkg/msg/Node.msg" Node_msg "pkg" "Node"
           [{| Field_Package := EmptyString; Field_Type := "int32"; Field_Name := "value";
               Field_Array := scalar |}]
           []
           {| Field_Package := "pkg"; Field_Type := "Node"; Field_Name := "next";
              Field_Array := scalar |}
           [] selfContext).
  - reflexivity.
  - reflexivity.
  - reflexivity.
  - reflexivity.
  - vm_compute. reflexivity.
  - constructor; [reflexivity | constructor].
  - discriminate.
  - reflexivity.
Defined.


Lemma LoadSrvFromString_failure_witness :
  match LoadSrvFromString (Sys := system ∅) 1 "int32 a
---
int32" "pkg/Srv" emptyContext with
  | Some (inl e, ctx') =>
      e = SyntaxError "pkg/SrvResponse" 1 "Invalid field line: int32"
      /\ exists reqSpec, msgRegistry ctx' !! "pkg/SrvRequest" = Some reqSpec
  | _ => False
  end.
Proof.
  assert (F : match LoadSrvFromString (Sys := system ∅) 1 "int32 a
---
int32" "pkg/Srv" emptyContext with
              | Some (inl e, ctx') =>
                  e = SyntaxError "pkg/SrvResponse" 1 "Invalid field line: int32"
                  /\ ctx' <> emptyContext
              | _ => False
              end) by (vm_compute; done).
  revert F.
  destruct (LoadSrvFromString (Sys := system ∅) 1 "int32 a
---
int32" "pkg/Srv" emptyContext) as [[[e|spec] c]|] eqn:E; ruled_out.
  intros (He & Hne). split; [exact He|].
  destruct (LoadSrvFromString_failure (Sys := system ∅) 1 "int32 a
---
int32" "pkg/Srv" "int32 a
" "
int32" emptyContext c e eq_refl E) as [[Hsame _]|(reqSpec & _ & _ & Hreg)].
  - by destruct Hne.
  - by exists reqSpec.
Defined.

Lemma LoadActionFromString_registers_witness :
  match LoadActionFromString (Sys := system actionFiles) 3 Fibonacci_action
          "actionlib_tutorials/Fibonacci" actionContext with
  | Some (inr spec, ctx') =>
      Fibonacci_action = Text (Goal spec) +:+ "---" +:+ Text (Result spec) +:+ "---"
                         +:+ Text (Feedback spec)
      /\ msgRegistry ctx' !! "actionlib_tutorials/FibonacciActionGoal"
         = Some (ActionGoal spec)
      /\ msgRegistry ctx' !! "actionlib_tutorials/FibonacciResult" = Some (Result spec)
  | _ => False
  end.
Proof.
  assert (F : match LoadActionFromString (Sys := system actionFiles) 3 Fibonacci_action
                      "actionlib_tutorials/Fibonacci" actionContext with
              | Some (inr _, _) => True
              | _ => False
              end) by (vm_compute; done).
  revert F.
  destruct (LoadActionFromString (Sys := system actionFiles) 3 Fibonacci_action
              "actionlib_tutorials/Fibonacci" actionContext)
    as [[[e|spec] c]|] eqn:E; ruled_out.
  intros _.
  destruct (LoadActionFromString_registers (Sys := system actionFiles) _ _ _ _ _ _ E)
    as (Htext & _ & Hag & _ & _ & Hr & _).
  split; [exact Htext|]. split; [exact Hag | exact Hr].
Defined.

(** A name that is known as a message only is no service. *)
Lemma LoadSrv_LoadAction_by_name_witness :
  LoadSrv (Sys := system actionFiles) 1 "std_msgs/Header" actionContext
  = Some (inl (errorString "Service definition of `std_msgs/Header` is not found"),
          actionContext).
Proof.
  apply (proj1 (LoadSrv_LoadAction_by_name (Sys := system actionFiles) 1
                  "std_msgs/Header" actionContext)).
  reflexivity.
Defined.

(** *** Finding the definitions *)

Lemma findPackages_entries_witness :
  match findPackages (Dirs := directories shareDirs shareGlobs) "msg"
          ["/opt/ros/share"; "/nowhere"; "/ws/src"] with
  | Some (inr pkgs) =>
      pkgs !! "std_msgs/String" = Some "/ws/src/std_msgs/msg/String.msg"
      /\ is_Some (pkgs !! "std_msgs/Header")
      /\ found (Dirs := directories shareDirs shareGlobs) "msg"
           ["/opt/ros/share"; "/nowhere"; "/ws/src"]
           "std_msgs/String" "/ws/src/std_msgs/msg/String.msg"
  | _ => False
  end.
Proof.
  assert (F : match findPackages (Dirs := directories shareDirs shareGlobs) "msg"
                      ["/opt/ros/share"; "/nowhere"; "/ws/src"] with
              | Some (inr pkgs) =>
                  pkgs !! "std_msgs/String" = Some "/ws/src/std_msgs/msg/String.msg"
              | _ => False
              end) by (vm_compute; done).
  revert F.
  destruct (findPackages (Dirs := directories shareDirs shareGlobs) "msg"
              ["/opt/ros/share"; "/nowhere"; "/ws/src"]) as [[e|pkgs]|] eqn:E; ruled_out.
  intros Hstring.
  destruct (findPackages_entries (Dirs := directories shareDirs shareGlobs) _ _ _ E)
    as [Hsound Hkeys].
  split; [exact Hstring|]. split; [|by apply Hsound].
  apply Hkeys. exists "/opt/ros/share/std_msgs/msg/Header.msg".
  exists "/opt/ros/share",
    [{| File_Name := "README"; IsDir := false |};
     {| File_Name := "std_msgs"; IsDir := true |};
     {| File_Name := "tools"; IsDir := true |}].
  split; [elem_of_list|]. split; [reflexivity|].
  exists {| File_Name := "std_msgs"; IsDir := true |},
    ["/opt/ros/share/std_msgs/msg/Header.msg"; "/opt/ros/share/std_msgs/msg/String.msg"].
  split; [elem_of_list|]. split; [reflexivity|]. split; [reflexivity|].
  split; [reflexivity|]. split; [elem_of_list|]. reflexivity.
Defined.

Lemma NewMsgContext_result_witness :
  match NewMsgContext (Dirs := directories shareDirs shareGlobs) ["/opt/ros/share"] with
  | Some r =>
      exists ctx,
        r = inr ctx /\ msgRegistry ctx = ∅
        /\ LoadMsg (Sys := system ∅) 1 "std_msgs/Int32" ctx
           = Some (inl (errorString "Message definition of `std_msgs/Int32` is not found"),
                   ctx)
  | None => False
  end.
Proof.
  assert (F : match NewMsgContext (Dirs := directories shareDirs shareGlobs)
                      ["/opt/ros/share"] with
              | Some (inr ctx) => msgPathMap ctx !! "std_msgs/Int32" = None
              | _ => False
              end) by (vm_compute; done).
  revert F.
  destruct (NewMsgContext (Dirs := directories shareDirs shareGlobs) ["/opt/ros/share"])
    as [r|] eqn:E; ruled_out.
  destruct (NewMsgContext_result (Dirs := directories shareDirs shareGlobs)
              (Sys := system ∅) _ _ E) as (ctx & -> & Hreg & Hmsg & _ & _ & Hload).
  intros Hnone. exists ctx. split; [reflexivity|]. split; [exact Hreg|].
  apply (proj1 (Hload 1 "std_msgs/Int32")).
  intros m Hfound.
  exact (findPackages_absent (Dirs := directories shareDirs shareGlobs) _ _ _ Hmsg
           "std_msgs/Int32" Hnone m Hfound).
Defined.

End extra_examples.
